(** * Lagged-feature tabularization of darts: a shallow embedding

    Source: [src/darts/utils/data/tabularization.py], the functions
    [_create_lagged_data] (the lag matrix builder) and
    [_add_static_covariates] (the static covariate appender).

    The Python code is written against pandas and numpy.  The part of
    both libraries the two functions use is embedded here as plain
    functions over lists: a [DataFrame] is a list of column labels and a
    list of (timestamp, row) pairs, a numpy array is a column count and
    a list of rows.  Cells are numbers or NaN; the code only moves cells
    around and tests them for NaN, so a cell is an [option Z] with [None]
    standing for NaN.  Exceptions are an error monad. *)

From Stdlib Require Import String Ascii DecimalString DecimalPos DecimalZ.
From Stdlib Require Import ZArith Lia Bool Permutation List.
From Stdlib Require Import Sorted.
Import ListNotations.

Local Open Scope string_scope.
Local Open Scope list_scope.
Local Open Scope Z_scope.

(** ** Exceptions *)

Inductive exn : Type :=
| ValueError (msg : string)   (* raised by [darts.logging.raise_if] *)
| PandasValueError            (* pd.concat: no objects to concatenate *)
| NumpyValueError             (* np.concatenate / np.tile shape errors *)
| IndexError                  (* a sequence indexed out of range *)
| AttributeError              (* a method called on [None] *)
| TypeError                   (* arithmetic on [None] *)
| EmptySequenceError.         (* max() or min() of an empty sequence *)

Inductive result (A : Type) : Type :=
| Ok (a : A)
| Raise (e : exn).

Arguments Ok {A} a.
Arguments Raise {A} e.

Definition bind {A B : Type} (r : result A) (k : A -> result B) : result B :=
  match r with
  | Ok a => k a
  | Raise e => Raise e
  end.

Notation "x <- r ;; k" := (bind r (fun x => k))
  (at level 61, r at next level, right associativity).
Notation "' p <- r ;; k" := (bind r (fun x => let p := x in k))
  (at level 61, p pattern, r at next level, right associativity).

(** [raise_if(condition, message)] of [darts.logging]. *)
Definition raise_if (condition : bool) (message : string) : result unit :=
  if condition then Raise (ValueError message) else Ok tt.

(** ** Cells, rows and data frames *)

Definition cell : Type := option Z.
Definition row : Type := list cell.

Definition notna (c : cell) : bool :=
  match c with
  | Some _ => true
  | None => false
  end.

Definition nan_row (w : nat) : row := repeat None w.

Record DataFrame : Type := mkDataFrame {
  columns : list string;
  body : list (Z * row)
}.

(** [df.index], [df.values] and [df.shape[1]]. *)
Definition index (df : DataFrame) : list Z := map fst (body df).
Definition values (df : DataFrame) : list row := map snd (body df).
Definition width (df : DataFrame) : nat := length (columns df).

(** Label-based row lookup; a timestamp the frame does not have reads as
    a row of NaN, which is what alignment in pandas fills in.  The labels
    of an index are taken to be distinct, as the time stamps of a
    [TimeSeries] are. *)
Fixpoint loc_row (b : list (Z * row)) (t : Z) : option row :=
  match b with
  | [] => None
  | (t', r) :: b' => if t' =? t then Some r else loc_row b' t
  end.

Definition row_or_nan (df : DataFrame) (t : Z) : row :=
  match loc_row (body df) t with
  | Some r => r
  | None => nan_row (width df)
  end.

(** [df.reindex(new_index)]. *)
Definition reindex (new_index : list Z) (df : DataFrame) : DataFrame :=
  {| columns := columns df;
     body := map (fun t => (t, row_or_nan df t)) new_index |}.

(** Positional row access that reads NaN outside the frame. *)
Definition iloc (rs : list row) (w : nat) (p : Z) : row :=
  if p <? 0 then nan_row w else nth (Z.to_nat p) rs (nan_row w).

(** [df.shift(periods)] without [freq]: the rows move by [periods]
    positions, the index stays, the vacated rows are NaN. *)
Definition shift (periods : Z) (df : DataFrame) : DataFrame :=
  let rs := values df in
  {| columns := columns df;
     body := combine (index df)
               (map (fun i => iloc rs (width df) (Z.of_nat i - periods))
                    (seq 0 (length rs))) |}.

(** [df.rename(columns=f)]. *)
Definition rename (f : string -> string) (df : DataFrame) : DataFrame :=
  {| columns := map f (columns df); body := body df |}.

(** *** Index union

    [Index.union] with its default [sort=None] returns the left operand
    when both are equal or the right one is empty, the right operand when
    the left one is empty, and the sorted set union otherwise. *)

Fixpoint insert_uniq (t : Z) (l : list Z) : list Z :=
  match l with
  | [] => [t]
  | x :: l' =>
      if t <? x then t :: l
      else if t =? x then l
      else x :: insert_uniq t l'
  end.

Definition sort_uniq (l : list Z) : list Z := fold_right insert_uniq [] l.

Fixpoint index_eqb (a b : list Z) : bool :=
  match a, b with
  | [], [] => true
  | x :: a', y :: b' => (x =? y) && index_eqb a' b'
  | _, _ => false
  end.

Definition index_union (a b : list Z) : list Z :=
  if index_eqb a b then a
  else match a, b with
       | _, [] => a
       | [], _ => b
       | _, _ => sort_uniq (a ++ b)
       end.

(** The combined index of the frames of a column-wise [pd.concat]
    (datetime indexes: the union is taken left to right). *)
Definition union_indexes (idxs : list (list Z)) : list Z :=
  match idxs with
  | [] => []
  | i :: rest => fold_left index_union rest i
  end.

(** [pd.concat(dfs, axis=1)]: outer join on the index. *)
Definition pd_concat_axis1 (dfs : list DataFrame) : result DataFrame :=
  match dfs with
  | [] => Raise PandasValueError
  | _ :: _ =>
      Ok {| columns := flat_map columns dfs;
            body := map (fun t => (t, flat_map (fun d => row_or_nan d t) dfs))
                        (union_indexes (map index dfs)) |}
  end.

(** [df.dropna()]: keeps the rows without NaN. *)
Definition dropna (df : DataFrame) : DataFrame :=
  {| columns := columns df;
     body := filter (fun tr => forallb notna (snd tr)) (body df) |}.

Definition in_names (n : string) (names : list string) : bool :=
  existsb (String.eqb n) names.

(** [df.dropna(subset=names)]: only the columns whose label is in
    [names] are looked at. *)
Definition dropna_subset (names : list string) (df : DataFrame) : DataFrame :=
  {| columns := columns df;
     body := filter
               (fun tr => forallb
                            (fun nc => implb (in_names (fst nc) names) (notna (snd nc)))
                            (combine (columns df) (snd tr)))
               (body df) |}.

(** Python's [a[k:]] for a possibly negative [k]. *)
Definition py_slice_from {A : Type} (k : Z) (l : list A) : list A :=
  let n := Z.of_nat (length l) in
  let start := if k <? 0 then Z.max (n + k) 0 else Z.min k n in
  skipn (Z.to_nat start) l.

(** [range(n)]. *)
Definition range (n : Z) : list Z := map Z.of_nat (seq 0 (Z.to_nat n)).

(** ** numpy arrays of two dimensions *)

Record ndarray : Type := mkArray {
  nd_cols : nat;          (* shape[1] *)
  nd_rows : list row      (* shape[0] is the length *)
}.

(** [np.split(a, [w], axis=1)]. *)
Definition np_split_axis1 (w : nat) (a : ndarray) : ndarray * ndarray :=
  ({| nd_cols := Nat.min w (nd_cols a); nd_rows := map (firstn w) (nd_rows a) |},
   {| nd_cols := nd_cols a - w; nd_rows := map (skipn w) (nd_rows a) |}).

(** [np.concatenate(arrays, axis=0)]. *)
Definition np_concatenate_axis0 (arrays : list ndarray) : result ndarray :=
  match arrays with
  | [] => Raise NumpyValueError
  | a :: rest =>
      if forallb (fun b => Nat.eqb (nd_cols b) (nd_cols a)) rest
      then Ok {| nd_cols := nd_cols a; nd_rows := concat (map nd_rows arrays) |}
      else Raise NumpyValueError
  end.

(** [np.concatenate([a, b], axis=1)]. *)
Definition np_concatenate_axis1 (a b : ndarray) : result ndarray :=
  if Nat.eqb (length (nd_rows a)) (length (nd_rows b))
  then Ok {| nd_cols := nd_cols a + nd_cols b;
             nd_rows := map (fun ab => fst ab ++ snd ab)
                            (combine (nd_rows a) (nd_rows b)) |}
  else Raise NumpyValueError.

(** [np.tile(a, reps=(reps, 1))] of an array of one row. *)
Definition np_tile_rows (reps : Z) (a : ndarray) : result ndarray :=
  if reps <? 0 then Raise NumpyValueError
  else Ok {| nd_cols := nd_cols a;
             nd_rows := concat (repeat (nd_rows a) (Z.to_nat reps)) |}.

(** [np.zeros((1, w))]. *)
Definition np_zeros_row (w : nat) : ndarray :=
  {| nd_cols := w; nd_rows := [repeat (Some 0) w] |}.

(** ** Time series *)

(** The static covariates of a series: a table with one column per
    attribute and one row per component (or a single global row). *)
Record StaticFrame : Type := mkStaticFrame {
  sc_columns : list string;
  sc_values : list row
}.

Record TimeSeries : Type := mkTimeSeries {
  components : list string;
  observations : list (Z * row);
  static_covariates : option StaticFrame
}.

Definition pd_dataframe (ts : TimeSeries) : DataFrame :=
  {| columns := components ts; body := observations ts |}.

Definition ts_len (ts : TimeSeries) : Z := Z.of_nat (length (observations ts)).
Definition n_components (ts : TimeSeries) : nat := length (components ts).

(** ** The lag matrix builder, [_create_lagged_data] *)

(** Truth value of an optional sequence ([if lags:]). *)
Definition truthy {A : Type} (o : option (list A)) : bool :=
  match o with
  | Some (_ :: _) => true
  | _ => false
  end.

Definition items {A : Type} (o : option (list A)) : list A :=
  match o with
  | Some l => l
  | None => []
  end.

(** How an f-string prints an integer. *)
Definition str_int (z : Z) : string := NilZero.string_of_int (Z.to_int z).

Definition horizon_label (k : Z) (x : string) : string :=
  (x ++ "_horizon_lag" ++ str_int k)%string.

Definition target_label (lag : Z) (x : string) : string :=
  (x ++ "_target_lag" ++ str_int lag)%string.

Definition cov_label (covariate_name : string) (lag : Z) (x : string) : string :=
  (x ++ "_" ++ covariate_name ++ "_cov_lag" ++ str_int lag)%string.

Record Params : Type := mkParams {
  output_chunk_length : Z;
  lags : option (list Z);
  lags_past_covariates : option (list Z);
  lags_future_covariates : option (list Z);
  max_samples_per_ts : option Z;
  is_training : bool;
  multi_models : bool
}.

(** [covs[idx].pd_dataframe(copy=False) if covs else None]. *)
Definition covariate_frame (covs : option (list TimeSeries)) (idx : nat)
  : result (option DataFrame) :=
  if truthy covs then
    match nth_error (items covs) idx with
    | Some ts => Ok (Some (pd_dataframe ts))
    | None => Raise IndexError
    end
  else Ok None.

(** Lines 91-104: the blocks of [df_y]. *)
Definition horizon_blocks (p : Params) (df_target : DataFrame) : list DataFrame :=
  if multi_models p then
    map (fun future_target_lag =>
           rename (horizon_label future_target_lag)
                  (shift (- future_target_lag) df_target))
        (range (output_chunk_length p))
  else
    [rename (horizon_label (output_chunk_length p - 1))
            (shift (- output_chunk_length p + 1) df_target)].

(** Lines 106-112: the target-lag blocks of [df_X]. *)
Definition target_blocks (p : Params) (df_target : DataFrame) : list DataFrame :=
  if truthy (lags p) then
    map (fun lag => rename (target_label lag) (shift (- lag) df_target))
        (items (lags p))
  else [].

(** Line 121: outside training the covariate frame is first extended
    to the union of the target index and its own. *)
Definition extend_covariate (p : Params) (df_target df_cov : DataFrame) : DataFrame :=
  if negb (is_training p)
  then reindex (index_union (index df_target) (index df_cov)) df_cov
  else df_cov.

(** Lines 115-128: the blocks of one covariate kind. *)
Definition covariate_blocks (p : Params) (covariate_name : string)
    (df_cov : option DataFrame) (lags_cov : option (list Z))
    (df_target : DataFrame) : result (list DataFrame) :=
  if truthy lags_cov then
    match df_cov with
    | None => Raise AttributeError
    | Some df_cov =>
        let df_cov := extend_covariate p df_target df_cov in
        Ok (map (fun lag => rename (cov_label covariate_name lag)
                                   (shift (- lag) df_cov))
                (items lags_cov))
    end
  else Ok [].

(** Lines 72-128: the list [df_X] of feature blocks of the series at
    position [idx], in the order in which they are appended. *)
Definition feature_blocks (p : Params)
    (past_covariates future_covariates : option (list TimeSeries))
    (idx : nat) (target_ts : TimeSeries) : result (list DataFrame) :=
  df_past <- covariate_frame past_covariates idx ;;
  df_future <- covariate_frame future_covariates idx ;;
  let df_target := pd_dataframe target_ts in
  let df_X := target_blocks p df_target in
  past_blocks <-
    covariate_blocks p "past" df_past (lags_past_covariates p) df_target ;;
  future_blocks <-
    covariate_blocks p "future" df_future (lags_future_covariates p) df_target ;;
  Ok (df_X ++ past_blocks ++ future_blocks).

(** Lines 130-133: the frames [df_X] and [df_X_y] before any row is
    dropped. *)
Definition lagged_concat (p : Params)
    (past_covariates future_covariates : option (list TimeSeries))
    (idx : nat) (target_ts : TimeSeries) : result (DataFrame * DataFrame) :=
  df_X <- feature_blocks p past_covariates future_covariates idx target_ts ;;
  let df_y := horizon_blocks p (pd_dataframe target_ts) in
  df_X <- pd_concat_axis1 df_X ;;
  df_y <- pd_concat_axis1 df_y ;;
  df_X_y <- pd_concat_axis1 [df_X; df_y] ;;
  Ok (df_X, df_X_y).

(** Lines 134-138: the rows with missing values are dropped. *)
Definition drop_missing (p : Params) (df_X df_X_y : DataFrame) : DataFrame :=
  if is_training p then dropna df_X_y
  else dropna_subset (columns df_X) df_X_y.

(** Lines 72-138: for the series at position [idx], the frame [df_X] and
    the filtered frame [df_X_y]. *)
Definition lagged_frames (p : Params)
    (past_covariates future_covariates : option (list TimeSeries))
    (idx : nat) (target_ts : TimeSeries) : result (DataFrame * DataFrame) :=
  '(df_X, df_X_y) <-
    lagged_concat p past_covariates future_covariates idx target_ts ;;
  Ok (df_X, drop_missing p df_X df_X_y).

(** Lines 143-146: [if max_samples_per_ts: a = a[-max_samples_per_ts:]]. *)
Definition keep_most_recent {A : Type} (p : Params) (l : list A) : list A :=
  match max_samples_per_ts p with
  | None => l
  | Some m => if m =? 0 then l else py_slice_from (- m) l
  end.

(** The message of the empty-sample-set error (lines 150-153). *)
Definition empty_samples_message (n_series idx : nat) : string :=
  let at_index : string :=
    if (1 <? n_series)%nat
    then ("at index " ++ str_int (Z.of_nat idx) ++ " ")%string
    else "" in
  ("Unable to build any training samples of the target series "
   ++ at_index
   ++ "and the corresponding covariate series; "
   ++ "There is no time step for which all required lags are available and are not NaN values.")%string.

(** One turn of the loop over the series (lines 71-159): the arrays [X]
    and [y] of the series and its retained time index. *)
Definition lagged_samples (p : Params)
    (past_covariates future_covariates : option (list TimeSeries))
    (n_series idx : nat) (target_ts : TimeSeries)
  : result (ndarray * ndarray * list Z) :=
  '(df_X, df_X_y) <- lagged_frames p past_covariates future_covariates idx target_ts ;;
  let Ts := keep_most_recent p (index df_X_y) in
  let X_y := {| nd_cols := width df_X_y;
                nd_rows := keep_most_recent p (values df_X_y) |} in
  _ <- raise_if (Nat.eqb (length (nd_rows X_y)) 0)
                (empty_samples_message n_series idx) ;;
  let '(X, y) := np_split_axis1 (width df_X) X_y in
  Ok (X, y, Ts).

(** The loop over [enumerate(target_series)], from position [idx] on. *)
Fixpoint lagged_loop (p : Params)
    (past_covariates future_covariates : option (list TimeSeries))
    (n_series idx : nat) (target_series : list TimeSeries)
  : result (list ndarray * list ndarray * list (list Z)) :=
  match target_series with
  | [] => Ok ([], [], [])
  | target_ts :: rest =>
      '(X, y, T) <- lagged_samples p past_covariates future_covariates
                                    n_series idx target_ts ;;
      '(Xs, ys, Ts) <- lagged_loop p past_covariates future_covariates
                                   n_series (S idx) rest ;;
      Ok (X :: Xs, y :: ys, T :: Ts)
  end.

(** [_create_lagged_data] on a sequence of series. *)
Definition _create_lagged_data (p : Params) (target_series : list TimeSeries)
    (past_covariates future_covariates : option (list TimeSeries))
  : result (ndarray * ndarray * list (list Z)) :=
  '(Xs, ys, Ts) <- lagged_loop p past_covariates future_covariates
                               (length target_series) 0 target_series ;;
  X <- np_concatenate_axis0 Xs ;;
  y <- np_concatenate_axis0 ys ;;
  Ok (X, y, Ts).

(** Lines 63-66: a single [TimeSeries] is wrapped into a sequence of one;
    a covariate series is wrapped when it is given and not empty. *)
Definition wrap_covariate (cov : option TimeSeries) : option (list TimeSeries) :=
  match cov with
  | Some ts => if ts_len ts =? 0 then None else Some [ts]
  | None => None
  end.

Definition _create_lagged_data_single (p : Params) (target_series : TimeSeries)
    (past_covariates future_covariates : option TimeSeries)
  : result (ndarray * ndarray * list (list Z)) :=
  _create_lagged_data p [target_series]
    (wrap_covariate past_covariates) (wrap_covariate future_covariates).

(** ** The static covariate appender, [_add_static_covariates] *)

(** The lag bounds the caller passes. *)
Record LagBounds : Type := mkLagBounds {
  min_target_lag : option Z;
  min_past_cov_lag : option Z;
  min_future_cov_lag : option Z;
  max_future_cov_lag : option Z
}.

(** [[v for v in l if v is not None]]. *)
Definition not_none (l : list (option Z)) : list Z :=
  flat_map (fun v => match v with Some x => [x] | None => [] end) l.

(** Python's [max] and [min] of a list. *)
Definition py_max (l : list Z) : result Z :=
  match l with
  | [] => Raise EmptySequenceError
  | x :: l' => Ok (fold_left Z.max l' x)
  end.

Definition py_min (l : list Z) : result Z :=
  match l with
  | [] => Raise EmptySequenceError
  | x :: l' => Ok (fold_left Z.min l' x)
  end.

(** Lines 222-228. *)
Definition max_past_lag (b : LagBounds) : result Z :=
  py_max (map Z.abs
            (not_none [min_target_lag b; min_past_cov_lag b; min_future_cov_lag b])).

(** [len(covs[idx])] for a sequence that is not [None]. *)
Definition covariate_len (covs : list TimeSeries) (idx : nat) : result Z :=
  match nth_error covs idx with
  | Some ts => Ok (ts_len ts)
  | None => Raise IndexError
  end.

(** Lines 234-255: the number of rows the appender expects the series at
    position [idx] to have contributed. *)
Definition len_shortest_features (b : LagBounds) (output_chunk_length : Z)
    (past_covariates future_covariates : option (list TimeSeries))
    (max_past_lag : Z) (idx : nat) (ts : TimeSeries) : result Z :=
  let len_target_features :=
    ts_len ts - max_past_lag - (output_chunk_length - 1) in
  len_past_cov_features <-
    match past_covariates with
    | Some covs =>
        n <- covariate_len covs idx ;; Ok (Some (n - max_past_lag))
    | None => Ok None
    end ;;
  len_future_cov_features <-
    match future_covariates with
    | Some covs =>
        n <- covariate_len covs idx ;;
        match max_future_cov_lag b with
        | Some mx => Ok (Some (n - max_past_lag - mx))
        | None => Raise TypeError
        end
    | None => Ok None
    end ;;
  py_min (not_none [Some len_target_features;
                    len_past_cov_features;
                    len_future_cov_features]).

(** The dictionary [scovs_map]; the set of names is kept as the list of
    the labels put into it. *)
Record ScovsMap : Type := mkScovsMap {
  covs_exist : bool;
  df : list StaticFrame;
  reps : list Z;
  names : list string
}.

(** [pd.DataFrame()] and [df.empty]. *)
Definition empty_frame : StaticFrame := {| sc_columns := []; sc_values := [] |}.

Definition frame_empty (f : StaticFrame) : bool :=
  match sc_columns f, sc_values f with
  | _ :: _, _ :: _ => false
  | _, _ => true
  end.

(** Lines 233-273: the loop that collects the static covariates. *)
Fixpoint collect_static (b : LagBounds) (output_chunk_length : Z)
    (past_covariates future_covariates : option (list TimeSeries))
    (max_samples_per_ts : option Z) (max_past_lag : Z)
    (idx : nat) (target_series : list TimeSeries) (scovs_map : ScovsMap)
  : result ScovsMap :=
  match target_series with
  | [] => Ok scovs_map
  | ts :: rest =>
      len_shortest <-
        len_shortest_features b output_chunk_length past_covariates
          future_covariates max_past_lag idx ts ;;
      let r := match max_samples_per_ts with
               | Some m => m
               | None => len_shortest
               end in
      let scovs_map :=
        match static_covariates ts with
        | Some sc =>
            {| covs_exist := true;
               df := df scovs_map ++ [sc];
               reps := reps scovs_map ++ [r];
               names := names scovs_map ++ sc_columns sc |}
        | None =>
            {| covs_exist := covs_exist scovs_map;
               df := df scovs_map ++ [empty_frame];
               reps := reps scovs_map ++ [r];
               names := names scovs_map |}
        end in
      collect_static b output_chunk_length past_covariates future_covariates
        max_samples_per_ts max_past_lag (S idx) rest scovs_map
  end.

(** Position of a label among the column labels. *)
Fixpoint find_col (name : string) (cols : list string) : option nat :=
  match cols with
  | [] => None
  | c :: cols' =>
      if String.eqb c name then Some O
      else option_map S (find_col name cols')
  end.

(** [df.reindex(col_names, axis=1, fill_value=0.0)]; the labels of a
    static covariate table are pairwise distinct. *)
Definition reindex_columns (col_names : list string) (f : StaticFrame) : StaticFrame :=
  {| sc_columns := col_names;
     sc_values :=
       map (fun r =>
              map (fun name =>
                     match find_col name (sc_columns f) with
                     | Some j => nth j r None
                     | None => Some 0
                     end)
                  col_names)
           (sc_values f) |}.

(** [df.values.reshape(1, -1, order="F")]: the table is read column by
    column. *)
Definition reshape_row_F (f : StaticFrame) : ndarray :=
  let ncols := length (sc_columns f) in
  {| nd_cols := (length (sc_values f) * ncols)%nat;
     nd_rows := [flat_map (fun j => map (fun r => nth j r None) (sc_values f))
                          (seq 0 ncols)] |}.

(** Lines 294-304: the static block of one series. *)
Definition static_block (col_names : list string) (n_comps : nat)
    (f : StaticFrame) (r : Z) : result ndarray :=
  if negb (frame_empty f) then
    let f := reindex_columns col_names f in
    let scovs := reshape_row_F f in
    np_tile_rows r scovs
  else
    let pad_zeros := np_zeros_row (length col_names * n_comps) in
    np_tile_rows r pad_zeros.

Fixpoint static_blocks (col_names : list string) (n_comps : nat)
    (entries : list (StaticFrame * Z)) : result (list ndarray) :=
  match entries with
  | [] => Ok []
  | (f, r) :: rest =>
      blk <- static_block col_names n_comps f r ;;
      blks <- static_blocks col_names n_comps rest ;;
      Ok (blk :: blks)
  end.

(** Lines 214-273: everything up to the branch on [covs_exist]: the
    component count of the first series and the collected map. *)
Definition static_inputs (target_series : list TimeSeries)
    (b : LagBounds) (output_chunk_length : Z)
    (past_covariates future_covariates : option (list TimeSeries))
    (max_samples_per_ts : option Z) : result (nat * ScovsMap) :=
  n_comps <-
    match target_series with
    | ts :: _ => Ok (n_components ts)
    | [] => Raise IndexError
    end ;;
  max_past_lag <- max_past_lag b ;;
  scovs_map <-
    collect_static b output_chunk_length past_covariates future_covariates
      max_samples_per_ts max_past_lag 0 target_series
      {| covs_exist := false; df := []; reps := []; names := [] |} ;;
  Ok (n_comps, scovs_map).

(** Lines 275-287: no series has static covariates. *)
Definition pad_to_model (n_features_in_ : option Z) (features : ndarray)
  : result ndarray :=
  match n_features_in_ with
  | Some n =>
      if Z.of_nat (nd_cols features) <? n then
        let pad_zeros :=
          np_zeros_row (Z.to_nat (n - Z.of_nat (nd_cols features))) in
        tiled <- np_tile_rows (Z.of_nat (length (nd_rows features))) pad_zeros ;;
        np_concatenate_axis1 features tiled
      else Ok features
  | None => Ok features
  end.

(** Lines 289-308: at least one series has static covariates. *)
Definition append_static (col_names : list string) (features : ndarray)
    (n_comps : nat) (scovs_map : ScovsMap) : result ndarray :=
  static_covs <-
    static_blocks col_names n_comps
      (combine (df scovs_map) (reps scovs_map)) ;;
  static_covs <- np_concatenate_axis0 static_covs ;;
  np_concatenate_axis1 features static_covs.

Section Appender.

(** [list(a_set)]: the order in which Python enumerates a set of
    strings is not fixed by the language; the appender is embedded
    over any such enumeration. *)
Variable set_order : list string -> list string.

(** [n_features_in_] is [Some n] when the fitted model has the
    attribute and it is not [None]. *)
Definition _add_static_covariates (n_features_in_ : option Z)
    (features : ndarray) (target_series : list TimeSeries)
    (b : LagBounds) (output_chunk_length : Z)
    (past_covariates future_covariates : option (list TimeSeries))
    (max_samples_per_ts : option Z) : result ndarray :=
  '(n_comps, scovs_map) <-
    static_inputs target_series b output_chunk_length
      past_covariates future_covariates max_samples_per_ts ;;
  if negb (covs_exist scovs_map) then pad_to_model n_features_in_ features
  else
    let col_names := set_order (names scovs_map) in
    append_static col_names features n_comps scovs_map.

End Appender.

(** An enumeration of a set of labels: each label once. *)
Definition enumerates (set_order : list string -> list string) : Prop :=
  forall l, NoDup (set_order l) /\ forall x, In x (set_order l) <-> In x l.

(** ** Concrete inputs *)

(** A series of one component without static covariates. *)
Definition univariate (name : string) (obs : list (Z * cell)) : TimeSeries :=
  {| components := [name];
     observations := map (fun tv => (fst tv, [snd tv])) obs;
     static_covariates := None |}.

Definition with_static (sc : StaticFrame) (ts : TimeSeries) : TimeSeries :=
  {| components := components ts;
     observations := observations ts;
     static_covariates := Some sc |}.

Definition e2e_params : Params :=
  {| output_chunk_length := 1;
     lags := Some [-1];
     lags_past_covariates := None;
     lags_future_covariates := None;
     max_samples_per_ts := None;
     is_training := true;
     multi_models := true |}.

Definition e2e_series : TimeSeries :=
  univariate "v" [(0, Some 1); (1, Some 2); (2, Some 3); (3, Some 4); (4, Some 5)].

(** ** Well-formed inputs *)

(** Every row of a frame has one cell per column. *)
Definition wf_frame (d : DataFrame) : Prop :=
  Forall (fun tr => length (snd tr) = width d) (body d).

(** A series has at least one component, one value per component at
    each time step, and no time stamp twice. *)
Definition wf_series (ts : TimeSeries) : Prop :=
  components ts <> [] /\
  Forall (fun tr => length (snd tr) = n_components ts) (observations ts) /\
  NoDup (map fst (observations ts)).

Definition wf_covariates (covs : option (list TimeSeries)) : Prop :=
  Forall wf_series (items covs).

(** Membership in an index, and the first position of a label
    ([Index.get_loc]). *)
Definition mem (t : Z) (l : list Z) : bool := existsb (Z.eqb t) l.

Fixpoint get_loc (t : Z) (idx : list Z) : option nat :=
  match idx with
  | [] => None
  | x :: idx' => if x =? t then Some O else option_map S (get_loc t idx')
  end.

Definition with_max_samples (m : option Z) (p : Params) : Params :=
  {| output_chunk_length := output_chunk_length p;
     lags := lags p;
     lags_past_covariates := lags_past_covariates p;
     lags_future_covariates := lags_future_covariates p;
     max_samples_per_ts := m;
     is_training := is_training p;
     multi_models := multi_models p |}.

Definition with_multi_models (m : bool) (p : Params) : Params :=
  {| output_chunk_length := output_chunk_length p;
     lags := lags p;
     lags_past_covariates := lags_past_covariates p;
     lags_future_covariates := lags_future_covariates p;
     max_samples_per_ts := max_samples_per_ts p;
     is_training := is_training p;
     multi_models := m |}.

Definition with_is_training (m : bool) (p : Params) : Params :=
  {| output_chunk_length := output_chunk_length p;
     lags := lags p;
     lags_past_covariates := lags_past_covariates p;
     lags_future_covariates := lags_future_covariates p;
     max_samples_per_ts := max_samples_per_ts p;
     is_training := m;
     multi_models := multi_models p |}.

(** A series too short for a lag of one step. *)
Definition short_series : TimeSeries := univariate "v" [(0, Some 1)].

(** A label built by the builder for a feature column. *)
Definition feature_label (n : string) : Prop :=
  (exists lag x, n = target_label lag x) \/
  (exists name lag x, n = cov_label name lag x).

(** A series whose last value is missing (properties P3 and P4). *)
Definition p3_series : TimeSeries :=
  univariate "v" [(0, Some 1); (1, Some 2); (2, Some 3); (3, None)].

(** The time index and the rows of values of a series. *)
Definition time_index (ts : TimeSeries) : list Z := map fst (observations ts).
Definition series_values (ts : TimeSeries) : list row := map snd (observations ts).

(** The row of a list of blocks at a label: the rows of the blocks at
    that label, side by side. *)
Definition blocks_row (blocks : list DataFrame) (t : Z) : row :=
  flat_map (fun b => row_or_nan b t) blocks.

(** *** The column layout the specification states

    The following definitions follow the specification, not the code:
    the columns of [X] are the target-lag columns, then the
    past-covariate-lag columns, then the future-covariate-lag columns;
    within a group they follow the lags as given, and within a lag the
    components of the source series. *)

Definition cov_at (covs : option (list TimeSeries)) (idx : nat) : option DataFrame :=
  if truthy covs then option_map pd_dataframe (nth_error (items covs) idx)
  else None.

Definition group_labels (label : Z -> string -> string)
    (group_lags : option (list Z)) (d : DataFrame) : list string :=
  flat_map (fun lag => map (label lag) (columns d)) (items group_lags).

Definition group_row (group_lags : option (list Z)) (d : DataFrame) (t : Z) : row :=
  flat_map (fun lag => row_or_nan (shift (- lag) d) t) (items group_lags).

Definition expected_columns (p : Params) (df_target : DataFrame)
    (df_past df_future : option DataFrame) : list string :=
  group_labels target_label (lags p) df_target
  ++ match df_past with
     | Some d => group_labels (cov_label "past") (lags_past_covariates p) d
     | None => []
     end
  ++ match df_future with
     | Some d => group_labels (cov_label "future") (lags_future_covariates p) d
     | None => []
     end.

Definition expected_row (p : Params) (df_target : DataFrame)
    (df_past df_future : option DataFrame) (t : Z) : row :=
  group_row (lags p) df_target t
  ++ match df_past with
     | Some d => group_row (lags_past_covariates p) (extend_covariate p df_target d) t
     | None => []
     end
  ++ match df_future with
     | Some d => group_row (lags_future_covariates p) (extend_covariate p df_target d) t
     | None => []
     end.

(** A series without missing values. *)
Definition nan_free (ts : TimeSeries) : Prop :=
  Forall (fun tr => forallb notna (snd tr) = true) (observations ts).

(** What the claims call the retained rows: the feature matrix and the
    retained time indexes of a call, or its exception. *)
Definition retained (r : result (ndarray * ndarray * list (list Z)))
  : result (ndarray * list (list Z)) :=
  '(X, _, Ts) <- r ;; Ok (X, Ts).

(** A series with a missing value inside, and a call with two horizon
    steps. *)
Definition gap_series : TimeSeries :=
  univariate "v" [(0, Some 1); (1, Some 2); (2, None); (3, Some 4); (4, Some 5)].

Definition gap_params : Params :=
  {| output_chunk_length := 2;
     lags := Some [-2];
     lags_past_covariates := None;
     lags_future_covariates := None;
     max_samples_per_ts := None;
     is_training := true;
     multi_models := false |}.

(** What a series brings into [scovs_map]. *)
Definition frame_of (ts : TimeSeries) : StaticFrame :=
  match static_covariates ts with
  | Some sc => sc
  | None => empty_frame
  end.

Definition static_names (ts : TimeSeries) : list string :=
  match static_covariates ts with
  | Some sc => sc_columns sc
  | None => []
  end.

Definition has_static (ts : TimeSeries) : bool :=
  match static_covariates ts with
  | Some _ => true
  | None => false
  end.

(** Rows of two arrays side by side. *)
Definition zip_rows (a b : list row) : list row :=
  map (fun ab => fst ab ++ snd ab) (combine a b).

(** The cell of a static covariate table for a component row and an
    attribute name, zero when the table lacks the attribute. *)
Definition static_cell (f : StaticFrame) (component_row : row) (name : string) : cell :=
  match find_col name (sc_columns f) with
  | Some j => nth j component_row None
  | None => Some 0
  end.

(** The order the claim words as "values varying fastest by attribute,
    then by component": the reindexed table read component by component,
    the attributes of one component next to each other.  This definition
    follows the claim, not the code. *)
Definition flatten_attribute_fastest (col_names : list string) (f : StaticFrame) : row :=
  concat (sc_values (reindex_columns col_names f)).

(** A table of two components (rows) and two attributes (columns). *)
Definition two_by_two : StaticFrame :=
  {| sc_columns := ["A"; "B"];
     sc_values := [[Some 1; Some 2]; [Some 3; Some 4]] |}.

Definition two_component_series : TimeSeries :=
  {| components := ["u"; "v"];
     observations := [(0, [Some 10; Some 20]); (1, [Some 11; Some 21]);
                      (2, [Some 12; Some 22])];
     static_covariates := Some two_by_two |}.

Definition one_row_features : ndarray :=
  {| nd_cols := 1; nd_rows := [[Some 9]] |}.

(** Inputs on which the row count of the appender and the rows of the
    builder are compared: a target of ten values with one static
    attribute, a future covariate over the same ten time stamps used at
    lag +3, and a past covariate of ten values that starts three steps
    after the target. *)
Definition ten_series : TimeSeries :=
  with_static {| sc_columns := ["A"]; sc_values := [[Some 7]] |}
    (univariate "v"
       [(0, Some 1); (1, Some 2); (2, Some 3); (3, Some 4); (4, Some 5);
        (5, Some 6); (6, Some 7); (7, Some 8); (8, Some 9); (9, Some 10)]).

Definition ten_future : TimeSeries :=
  univariate "c"
    [(0, Some 101); (1, Some 102); (2, Some 103); (3, Some 104); (4, Some 105);
     (5, Some 106); (6, Some 107); (7, Some 108); (8, Some 109); (9, Some 110)].

Definition late_past : TimeSeries :=
  univariate "c"
    [(3, Some 101); (4, Some 102); (5, Some 103); (6, Some 104); (7, Some 105);
     (8, Some 106); (9, Some 107); (10, Some 108); (11, Some 109); (12, Some 110)].

Definition future_lag_params : Params :=
  {| output_chunk_length := 1;
     lags := Some [-1];
     lags_past_covariates := None;
     lags_future_covariates := Some [3];
     max_samples_per_ts := None;
     is_training := true;
     multi_models := true |}.

Definition future_lag_bounds : LagBounds :=
  {| min_target_lag := Some (-1); min_past_cov_lag := None;
     min_future_cov_lag := Some 3; max_future_cov_lag := Some 3 |}.

Definition past_lag_params : Params :=
  {| output_chunk_length := 1;
     lags := Some [-1];
     lags_past_covariates := Some [-1];
     lags_future_covariates := None;
     max_samples_per_ts := None;
     is_training := true;
     multi_models := true |}.

Definition past_lag_bounds : LagBounds :=
  {| min_target_lag := Some (-1); min_past_cov_lag := Some (-1);
     min_future_cov_lag := None; max_future_cov_lag := None |}.

(** The number of rows the appender computes for the series at position
    [idx] when no [max_samples_per_ts] is given (lines 222-255). *)
Definition recomputed_rows (b : LagBounds) (output_chunk_length : Z)
    (past_covariates future_covariates : option (list TimeSeries))
    (idx : nat) (ts : TimeSeries) : result Z :=
  mpl <- max_past_lag b ;;
  len_shortest_features b output_chunk_length past_covariates
    future_covariates mpl idx ts.

(** The time indexes a call of the builder retains. *)
Definition retained_indexes (r : result (ndarray * ndarray * list (list Z)))
  : result (list (list Z)) :=
  '(_, _, Ts) <- r ;; Ok Ts.

(** A time index in chronological order, no time stamp twice. *)
Definition chronological (idx : list Z) : Prop := StronglySorted Z.lt idx.

Definition chronological_series (ts : TimeSeries) : Prop :=
  chronological (time_index ts).

(** The number of components of the covariate series at position [idx],
    zero when there is none. *)
Definition cov_width (covs : option (list TimeSeries)) (idx : nat) : nat :=
  match cov_at covs idx with
  | Some d => width d
  | None => 0
  end.

(** The end-to-end call with two horizon steps. *)
Definition two_step_params : Params :=
  {| output_chunk_length := 2;
     lags := Some [-1];
     lags_past_covariates := None;
     lags_future_covariates := None;
     max_samples_per_ts := None;
     is_training := true;
     multi_models := true |}.

(** The samples of a returned triple, one per row: the time stamp, the
    feature row and the target row. *)
Definition samples (r : ndarray * ndarray * list (list Z))
  : list (Z * (row * row)) :=
  let '(X, y, Ts) := r in
  combine (concat Ts) (combine (nd_rows X) (nd_rows y)).

(** A sample whose target row has no missing value. *)
Definition complete_target (s : Z * (row * row)) : bool :=
  forallb notna (snd (snd s)).

(** Every covariate series of a sequence has the time index of the
    target series at its position. *)
Definition same_span (targets : list TimeSeries) (covs : option (list TimeSeries))
  : Prop :=
  forall i ts c,
    nth_error targets i = Some ts -> nth_error (items covs) i = Some c ->
    time_index c = time_index ts.


(** ** Theorems *)

Example e2e_concrete :
  _create_lagged_data_single e2e_params e2e_series None None
  = Ok ({| nd_cols := 1; nd_rows := [[Some 1]; [Some 2]; [Some 3]; [Some 4]] |},
        {| nd_cols := 1; nd_rows := [[Some 2]; [Some 3]; [Some 4]; [Some 5]] |},
        [[1; 2; 3; 4]]).
Proof. vm_compute. reflexivity. Qed.

Definition p6_first : TimeSeries :=
  with_static {| sc_columns := ["A"]; sc_values := [[Some 7]] |}
    (univariate "v" [(0, Some 1); (1, Some 2); (2, Some 3)]).

Definition p6_second : TimeSeries :=
  univariate "v" [(0, Some 4); (1, Some 5); (2, Some 6)].

Definition e2e_bounds : LagBounds :=
  {| min_target_lag := Some (-1); min_past_cov_lag := None;
     min_future_cov_lag := None; max_future_cov_lag := None |}.

(** *** Lists *)

Lemma map_fst_combine {A B : Type} (l1 : list A) (l2 : list B) :
  length l1 = length l2 -> map fst (combine l1 l2) = l1.
Proof.
  revert l2; induction l1 as [|a l1 IH]; intros [|b l2] H; simpl in *;
    try discriminate; auto.
  f_equal. apply IH. lia.
Qed.

Lemma map_snd_combine {A B : Type} (l1 : list A) (l2 : list B) :
  length l1 = length l2 -> map snd (combine l1 l2) = l2.
Proof.
  revert l2; induction l1 as [|a l1 IH]; intros [|b l2] H; simpl in *;
    try discriminate; auto.
  f_equal. apply IH. lia.
Qed.

Lemma length_flat_map_const {A B : Type} (f : A -> list B) (g : A -> nat) (l : list A) :
  Forall (fun a => length (f a) = g a) l ->
  length (flat_map f l) = list_sum (map g l).
Proof.
  induction 1 as [|a l Ha _ IH]; simpl; auto.
  rewrite length_app, Ha, IH. reflexivity.
Qed.

(** *** Frames *)

Lemma length_nan_row (w : nat) : length (nan_row w) = w.
Proof. apply repeat_length. Qed.

Lemma length_index_values (d : DataFrame) :
  length (index d) = length (values d).
Proof. unfold index, values. now rewrite !length_map. Qed.

Lemma shifted_rows_length (k : Z) (d : DataFrame) :
  length (index d)
  = length (map (fun i => iloc (values d) (width d) (Z.of_nat i - k))
                (seq 0 (length (values d)))).
Proof. rewrite length_map, length_seq. apply length_index_values. Qed.

Lemma index_shift (k : Z) (d : DataFrame) : index (shift k d) = index d.
Proof.
  unfold shift, index at 1; simpl. apply map_fst_combine, shifted_rows_length.
Qed.

Lemma values_shift (k : Z) (d : DataFrame) :
  values (shift k d)
  = map (fun i => iloc (values d) (width d) (Z.of_nat i - k))
        (seq 0 (length (values d))).
Proof.
  unfold shift, values at 1; simpl. apply map_snd_combine, shifted_rows_length.
Qed.

Lemma wf_frame_values (d : DataFrame) :
  wf_frame d <-> Forall (fun r => length r = width d) (values d).
Proof. unfold wf_frame, values. now rewrite Forall_map. Qed.

Lemma length_iloc (rs : list row) (w : nat) (p : Z) :
  Forall (fun r => length r = w) rs -> length (iloc rs w p) = w.
Proof.
  intros H. unfold iloc. destruct (p <? 0); [apply length_nan_row|].
  destruct (nth_in_or_default (Z.to_nat p) rs (nan_row w)) as [Hin|Heq].
  - rewrite Forall_forall in H. now apply H.
  - rewrite Heq. apply length_nan_row.
Qed.

Lemma wf_shift (k : Z) (d : DataFrame) : wf_frame d -> wf_frame (shift k d).
Proof.
  intros H. apply wf_frame_values. rewrite values_shift.
  apply Forall_map, Forall_forall. intros i _.
  change (width (shift k d)) with (width d).
  apply length_iloc. now apply (proj1 (wf_frame_values d)).
Qed.

Lemma wf_rename (f : string -> string) (d : DataFrame) :
  wf_frame d -> wf_frame (rename f d).
Proof.
  unfold wf_frame, rename, width; simpl. now rewrite length_map.
Qed.

Lemma loc_row_In (b : list (Z * row)) (t : Z) (r : row) :
  loc_row b t = Some r -> In (t, r) b.
Proof.
  induction b as [|[t' r'] b IH]; simpl; [discriminate|].
  destruct (Z.eqb_spec t' t) as [->|_].
  - intros [= ->]. now left.
  - intros H. right. now apply IH.
Qed.

Lemma length_row_or_nan (d : DataFrame) (t : Z) :
  wf_frame d -> length (row_or_nan d t) = width d.
Proof.
  intros H. unfold row_or_nan.
  destruct (loc_row (body d) t) as [r|] eqn:E.
  - apply loc_row_In in E. unfold wf_frame in H. rewrite Forall_forall in H.
    apply (H _ E).
  - apply length_nan_row.
Qed.

Lemma wf_reindex (idx : list Z) (d : DataFrame) :
  wf_frame d -> wf_frame (reindex idx d).
Proof.
  intros H. unfold wf_frame, reindex; simpl.
  apply Forall_map, Forall_forall. intros t _; simpl.
  apply (length_row_or_nan d t H).
Qed.

Lemma loc_row_map (f : Z -> row) (l : list Z) (t : Z) :
  loc_row (map (fun t => (t, f t)) l) t = if mem t l then Some (f t) else None.
Proof.
  induction l as [|x l IH]; simpl; auto.
  rewrite (Z.eqb_sym t x). destruct (Z.eqb_spec x t) as [->|_]; simpl; auto.
Qed.

Lemma mem_In (t : Z) (l : list Z) : mem t l = true <-> In t l.
Proof.
  unfold mem. rewrite existsb_exists. split.
  - intros [x [Hx E]]. apply Z.eqb_eq in E. now subst.
  - intros H. exists t. split; auto. apply Z.eqb_refl.
Qed.

Lemma loc_row_none (b : list (Z * row)) (t : Z) :
  loc_row b t = None <-> ~ In t (map fst b).
Proof.
  induction b as [|[t' r'] b IH]; simpl.
  - tauto.
  - destruct (Z.eqb_spec t' t) as [->|Hne].
    + split; [discriminate|]. intros H. exfalso. apply H. now left.
    + rewrite IH. tauto.
Qed.

(** *** Index union *)

Lemma In_insert_uniq (t x : Z) (l : list Z) :
  In x (insert_uniq t l) <-> x = t \/ In x l.
Proof.
  induction l as [|y l IH]; simpl.
  - intuition.
  - destruct (t <? y); simpl; [intuition|].
    destruct (Z.eqb_spec t y) as [->|_]; simpl; [intuition|].
    rewrite IH. intuition.
Qed.

Lemma In_sort_uniq (x : Z) (l : list Z) : In x (sort_uniq l) <-> In x l.
Proof.
  induction l as [|y l IH]; simpl; [tauto|].
  rewrite In_insert_uniq, IH. intuition.
Qed.

Lemma index_eqb_eq (a b : list Z) : index_eqb a b = true <-> a = b.
Proof.
  revert b; induction a as [|x a IH]; intros [|y b]; simpl;
    try (split; [discriminate|discriminate]); try tauto.
  rewrite andb_true_iff, Z.eqb_eq, IH. split.
  - intros [-> ->]; auto.
  - intros [= -> ->]; auto.
Qed.

Lemma index_eqb_refl (a : list Z) : index_eqb a a = true.
Proof. now apply index_eqb_eq. Qed.

Lemma index_union_same (a : list Z) : index_union a a = a.
Proof. unfold index_union. now rewrite index_eqb_refl. Qed.

Lemma In_index_union (x : Z) (a b : list Z) :
  In x (index_union a b) <-> In x a \/ In x b.
Proof.
  unfold index_union. destruct (index_eqb a b) eqn:E.
  - apply index_eqb_eq in E. subst. tauto.
  - destruct a as [|a0 a], b as [|b0 b]; simpl; try tauto.
    rewrite In_insert_uniq, In_sort_uniq, in_app_iff. simpl.
    intuition congruence.
Qed.

Lemma In_fold_index_union (x : Z) (rest : list (list Z)) (i : list Z) :
  In x (fold_left index_union rest i) <-> In x i \/ exists j, In j rest /\ In x j.
Proof.
  revert i; induction rest as [|j rest IH]; intros i; simpl.
  - split; [tauto|]. intros [H|[j [[] _]]]; auto.
  - rewrite IH, In_index_union. split.
    + intros [[H|H]|[j' [Hj Hx]]]; eauto.
    + intros [H|[j' [[->|Hj] Hx]]]; eauto.
Qed.

Lemma In_union_indexes (x : Z) (idxs : list (list Z)) :
  In x (union_indexes idxs) <-> exists j, In j idxs /\ In x j.
Proof.
  destruct idxs as [|i rest]; simpl.
  - split; [tauto|]. intros [j [[] _]].
  - rewrite In_fold_index_union. split.
    + intros [H|[j [Hj Hx]]]; eauto.
    + intros [j [[->|Hj] Hx]]; eauto.
Qed.

Lemma fold_index_union_same (i : list Z) (rest : list (list Z)) :
  Forall (fun j => j = i) rest -> fold_left index_union rest i = i.
Proof.
  induction 1 as [|j rest -> _ IH]; simpl; auto.
  now rewrite index_union_same.
Qed.

(** *** Column-wise concatenation *)

Lemma concat_columns (dfs : list DataFrame) (d : DataFrame) :
  pd_concat_axis1 dfs = Ok d -> columns d = flat_map columns dfs.
Proof. destruct dfs; simpl; [discriminate|]. now intros [= <-]. Qed.

Lemma concat_index (dfs : list DataFrame) (d : DataFrame) :
  pd_concat_axis1 dfs = Ok d -> index d = union_indexes (map index dfs).
Proof.
  destruct dfs as [|d0 dfs]; simpl; [discriminate|]. intros [= <-].
  unfold index at 1; simpl. rewrite map_map; simpl. apply map_id.
Qed.

Lemma concat_body (dfs : list DataFrame) (d : DataFrame) :
  pd_concat_axis1 dfs = Ok d ->
  body d = map (fun t => (t, flat_map (fun b => row_or_nan b t) dfs)) (index d).
Proof.
  intros H. rewrite (concat_index _ _ H).
  destruct dfs as [|d0 dfs]; simpl in *; [discriminate|]. now injection H as <-.
Qed.

Lemma flat_map_nan_row (dfs : list DataFrame) :
  flat_map (fun b => nan_row (width b)) dfs
  = nan_row (length (flat_map columns dfs)).
Proof.
  induction dfs as [|b dfs IH]; simpl; auto.
  rewrite length_app, IH. unfold nan_row, width. now rewrite repeat_app.
Qed.

(** The row of a concatenation at a label is the concatenation of the
    rows of its parts at that label. *)
Lemma row_or_nan_concat (dfs : list DataFrame) (d : DataFrame) (t : Z) :
  pd_concat_axis1 dfs = Ok d ->
  row_or_nan d t = flat_map (fun b => row_or_nan b t) dfs.
Proof.
  intros H. unfold row_or_nan at 1.
  rewrite (concat_body _ _ H), loc_row_map.
  destruct (mem t (index d)) eqn:E; auto.
  unfold width. rewrite (concat_columns _ _ H), <- flat_map_nan_row.
  assert (Hno : forall b, In b dfs -> ~ In t (index b)).
  { intros b Hb Ht. assert (Hm : mem t (index d) = true).
    { apply mem_In. rewrite (concat_index _ _ H). apply In_union_indexes.
      exists (index b). split; auto. now apply in_map. }
    congruence. }
  clear H E. induction dfs as [|b dfs IH]; simpl; auto.
  f_equal.
  - unfold row_or_nan.
    destruct (loc_row (body b) t) eqn:E; auto.
    exfalso. apply (Hno b); [now left|].
    apply loc_row_In in E. unfold index. now apply (in_map fst) in E.
  - apply IH. intros b' Hb'. apply Hno. now right.
Qed.

Lemma wf_concat (dfs : list DataFrame) (d : DataFrame) :
  Forall wf_frame dfs -> pd_concat_axis1 dfs = Ok d -> wf_frame d.
Proof.
  intros Hwf H. unfold wf_frame. rewrite (concat_body _ _ H).
  apply Forall_map, Forall_forall. intros t _; simpl.
  unfold width. rewrite (concat_columns _ _ H).
  clear H. induction Hwf as [|b dfs Hb _ IH]; simpl; auto.
  rewrite !length_app, IH. f_equal. now apply length_row_or_nan.
Qed.

(** *** The loop over the series *)

Lemma py_slice_from_map {A B : Type} (f : A -> B) (k : Z) (l : list A) :
  py_slice_from k (map f l) = map f (py_slice_from k l).
Proof. unfold py_slice_from. now rewrite length_map, skipn_map. Qed.

Lemma keep_most_recent_map {A B : Type} (f : A -> B) (p : Params) (l : list A) :
  keep_most_recent p (map f l) = map f (keep_most_recent p l).
Proof.
  unfold keep_most_recent. destruct (max_samples_per_ts p) as [m|]; auto.
  destruct (m =? 0); auto. apply py_slice_from_map.
Qed.

(** What one turn of the loop returns, read off the filtered frame. *)
Lemma lagged_samples_inv p pc fc n idx ts X y T :
  lagged_samples p pc fc n idx ts = Ok (X, y, T) ->
  exists df_X D,
    lagged_frames p pc fc idx ts = Ok (df_X, D) /\
    keep_most_recent p (body D) <> [] /\
    T = map fst (keep_most_recent p (body D)) /\
    nd_rows X = map (fun tr => firstn (width df_X) (snd tr))
                    (keep_most_recent p (body D)) /\
    nd_rows y = map (fun tr => skipn (width df_X) (snd tr))
                    (keep_most_recent p (body D)) /\
    nd_cols X = Nat.min (width df_X) (width D) /\
    nd_cols y = (width D - width df_X)%nat.
Proof.
  unfold lagged_samples.
  destruct (lagged_frames p pc fc idx ts) as [[df_X D]|e]; simpl; [|discriminate].
  unfold index, values. rewrite !keep_most_recent_map.
  destruct (keep_most_recent p (body D)) as [|tr kept] eqn:E; simpl; [discriminate|].
  intros [= <- <- <-]. exists df_X, D. simpl.
  repeat split; auto; rewrite E; simpl; try discriminate; auto;
    now rewrite map_map.
Qed.

Lemma lagged_samples_lengths p pc fc n idx ts X y T :
  lagged_samples p pc fc n idx ts = Ok (X, y, T) ->
  length (nd_rows X) = length T /\ length (nd_rows y) = length T.
Proof.
  intros H. apply lagged_samples_inv in H.
  destruct H as (df_X & D & _ & _ & -> & -> & -> & _).
  now rewrite !length_map.
Qed.

Lemma lagged_loop_inv p pc fc n targets : forall idx Xs ys Ts,
  lagged_loop p pc fc n idx targets = Ok (Xs, ys, Ts) ->
  length Xs = length targets /\ length ys = length targets /\
  length Ts = length targets /\
  forall i ts, nth_error targets i = Some ts ->
    exists Xi yi Ti,
      nth_error Xs i = Some Xi /\ nth_error ys i = Some yi /\
      nth_error Ts i = Some Ti /\
      lagged_samples p pc fc n (idx + i) ts = Ok (Xi, yi, Ti).
Proof.
  induction targets as [|ts0 targets IH]; intros idx Xs ys Ts; simpl.
  - intros [= <- <- <-]. repeat split; auto. intros [|i] ts; discriminate.
  - destruct (lagged_samples p pc fc n idx ts0) as [[[X0 y0] T0]|e] eqn:E0;
      simpl; [|discriminate].
    destruct (lagged_loop p pc fc n (S idx) targets) as [[[Xs' ys'] Ts']|e] eqn:E1;
      simpl; [|discriminate].
    intros [= <- <- <-].
    destruct (IH _ _ _ _ E1) as (HX & Hy & HT & Hnth).
    simpl. repeat split; try congruence.
    intros [|i] ts; simpl.
    + intros [= <-]. exists X0, y0, T0. rewrite Nat.add_0_r. auto.
    + intros Hi. destruct (Hnth i ts Hi) as (Xi & yi & Ti & H1 & H2 & H3 & H4).
      exists Xi, yi, Ti. rewrite Nat.add_succ_r. auto.
Qed.

Lemma np_concatenate_axis0_rows arrays a :
  np_concatenate_axis0 arrays = Ok a ->
  nd_rows a = concat (map nd_rows arrays).
Proof.
  destruct arrays as [|a0 rest]; simpl; [discriminate|].
  destruct (forallb _ rest); [|discriminate]. now intros [= <-].
Qed.

(** Row counts add up over lists that agree position by position. *)
Lemma list_sum_pointwise {A B : Type} (f : A -> nat) (g : B -> nat) :
  forall (l1 : list A) (l2 : list B),
    length l1 = length l2 ->
    (forall i a b, nth_error l1 i = Some a -> nth_error l2 i = Some b -> f a = g b) ->
    list_sum (map f l1) = list_sum (map g l2).
Proof.
  induction l1 as [|a l1 IH]; intros [|b l2] Hlen H; simpl in *;
    try discriminate; auto.
  rewrite (H 0%nat a b eq_refl eq_refl). f_equal.
  apply IH; [lia|]. intros i a' b' Ha Hb. apply (H (S i)); auto.
Qed.

(** C4 -- Row-count invariant.  Whenever the lag matrix builder returns,
    [X] and [y] are the row-wise concatenations of per-series arrays, one
    per input series and in input order; there is one retained time index
    per input series, in input order; per series the number of rows of
    [X], the number of rows of [y] and the length of the retained index
    agree; and the total number of rows of [X] and of [y] is the sum of
    the lengths of the returned indexes. *)
Theorem row_count_invariant p targets pc fc X y Ts :
  _create_lagged_data p targets pc fc = Ok (X, y, Ts) ->
  length (nd_rows X) = length (nd_rows y) /\
  length (nd_rows X) = list_sum (map (@length Z) Ts) /\
  length Ts = length targets /\
  exists Xs ys,
    nd_rows X = concat (map nd_rows Xs) /\
    nd_rows y = concat (map nd_rows ys) /\
    forall i ts, nth_error targets i = Some ts ->
      exists Xi yi Ti,
        nth_error Xs i = Some Xi /\ nth_error ys i = Some yi /\
        nth_error Ts i = Some Ti /\
        lagged_samples p pc fc (length targets) i ts = Ok (Xi, yi, Ti) /\
        length (nd_rows Xi) = length Ti /\
        length (nd_rows yi) = length Ti.
Proof.
  unfold _create_lagged_data.
  destruct (lagged_loop p pc fc (length targets) 0 targets)
    as [[[Xs ys] Ts']|e] eqn:EL; simpl; [|discriminate].
  destruct (np_concatenate_axis0 Xs) as [X'|e] eqn:EX; simpl; [|discriminate].
  destruct (np_concatenate_axis0 ys) as [y'|e] eqn:Ey; simpl; [|discriminate].
  intros [= <- <- <-].
  apply np_concatenate_axis0_rows in EX, Ey.
  destruct (lagged_loop_inv _ _ _ _ _ _ _ _ _ EL) as (HX & Hy & HT & Hnth).
  assert (Hper : forall i ts, nth_error targets i = Some ts ->
            exists Xi yi Ti,
              nth_error Xs i = Some Xi /\ nth_error ys i = Some yi /\
              nth_error Ts' i = Some Ti /\
              lagged_samples p pc fc (length targets) i ts = Ok (Xi, yi, Ti) /\
              length (nd_rows Xi) = length Ti /\
              length (nd_rows yi) = length Ti).
  { intros i ts Hi. destruct (Hnth i ts Hi) as (Xi & yi & Ti & H1 & H2 & H3 & H4).
    exists Xi, yi, Ti. simpl in H4.
    destruct (lagged_samples_lengths _ _ _ _ _ _ _ _ _ H4).
    repeat split; assumption. }
  assert (SX : list_sum (map (fun a => length (nd_rows a)) Xs)
               = list_sum (map (@length Z) Ts')).
  { apply list_sum_pointwise; [congruence|]. intros i a b Ha Hb.
    assert (Hlt : (i < length targets)%nat).
    { rewrite <- HX. apply nth_error_Some. congruence. }
    destruct (nth_error targets i) as [ts|] eqn:Ei;
      [|apply nth_error_None in Ei; lia].
    destruct (Hper i ts Ei) as (Xi & yi & Ti & H1 & H2 & H3 & _ & H5 & _).
    congruence. }
  assert (Sy : list_sum (map (fun a => length (nd_rows a)) ys)
               = list_sum (map (@length Z) Ts')).
  { apply list_sum_pointwise; [congruence|]. intros i a b Ha Hb.
    assert (Hlt : (i < length targets)%nat).
    { rewrite <- Hy. apply nth_error_Some. congruence. }
    destruct (nth_error targets i) as [ts|] eqn:Ei;
      [|apply nth_error_None in Ei; lia].
    destruct (Hper i ts Ei) as (Xi & yi & Ti & H1 & H2 & H3 & _ & _ & H6).
    congruence. }
  rewrite EX, Ey, !length_concat, !map_map.
  repeat split; try congruence.
  exists Xs, ys. auto.
Qed.

Lemma row_count_invariant_witness :
  exists X y Ts,
    _create_lagged_data e2e_params [e2e_series] None None = Ok (X, y, Ts) /\
    length (nd_rows X) = length (nd_rows y) /\
    length (nd_rows X) = list_sum (map (@length Z) Ts).
Proof.
  eexists _, _, _. 
  assert (H : _create_lagged_data e2e_params [e2e_series] None None
              = Ok ({| nd_cols := 1; nd_rows := [[Some 1]; [Some 2]; [Some 3]; [Some 4]] |},
                    {| nd_cols := 1; nd_rows := [[Some 2]; [Some 3]; [Some 4]; [Some 5]] |},
                    [[1; 2; 3; 4]])) by (vm_compute; reflexivity).
  split; [exact H|].
  destruct (row_count_invariant _ _ _ _ _ _ _ H) as (H1 & H2 & _).
  split; [exact H1|exact H2].
Defined.

(** C10 -- A cap of zero is no cap.  With [max_samples_per_ts = 0] the
    builder returns exactly what it returns without a cap: the same rows,
    the same retained time indexes, and the same error if there is
    one. *)
Theorem zero_cap_is_no_cap p targets pc fc :
  _create_lagged_data (with_max_samples (Some 0) p) targets pc fc
  = _create_lagged_data (with_max_samples None p) targets pc fc.
Proof.
  unfold _create_lagged_data.
  assert (H : forall idx,
             lagged_loop (with_max_samples (Some 0) p) pc fc (length targets) idx targets
             = lagged_loop (with_max_samples None p) pc fc (length targets) idx targets).
  { generalize (length targets) as n.
    induction targets as [|ts targets IH]; intros n idx; simpl; auto.
    rewrite IH.
    replace (lagged_samples (with_max_samples (Some 0) p) pc fc n idx ts)
      with (lagged_samples (with_max_samples None p) pc fc n idx ts)
      by reflexivity.
    reflexivity. }
  now rewrite H.
Qed.

(** *** Strings and labels *)

Lemma chars_append (a b : string) :
  list_ascii_of_string (a ++ b)
  = list_ascii_of_string a ++ list_ascii_of_string b.
Proof. induction a as [|c a IH]; simpl; auto. now rewrite IH. Qed.

Lemma chars_inj (a b : string) :
  list_ascii_of_string a = list_ascii_of_string b -> a = b.
Proof.
  intros H. rewrite <- (string_of_list_ascii_of_string a),
              <- (string_of_list_ascii_of_string b).
  now rewrite H.
Qed.

(** Two lists that agree and are cut at the first occurrence of [g]. *)
Lemma split_at_first (g : ascii) : forall D1 D2 R1 R2 : list ascii,
  ~ In g D1 -> ~ In g D2 ->
  D1 ++ g :: R1 = D2 ++ g :: R2 -> D1 = D2 /\ R1 = R2.
Proof.
  induction D1 as [|c D1 IH]; intros [|c' D2] R1 R2 H1 H2; simpl.
  - intros [= <-]. auto.
  - intros [= <- _]. exfalso. apply H2. now left.
  - intros [= -> _]. exfalso. apply H1. now left.
  - intros [= <- E]. destruct (IH D2 R1 R2) as [-> ->]; auto.
    + intros Hin. apply H1. now right.
    + intros Hin. apply H2. now right.
Qed.

(** The same at the last occurrence of [g]. *)
Lemma split_at_last (g : ascii) (A1 A2 D1 D2 : list ascii) :
  ~ In g D1 -> ~ In g D2 ->
  A1 ++ g :: D1 = A2 ++ g :: D2 -> A1 = A2 /\ D1 = D2.
Proof.
  intros H1 H2 E. apply (f_equal (@rev ascii)) in E.
  rewrite !rev_app_distr in E. simpl in E. rewrite <- !app_assoc in E. simpl in E.
  apply split_at_first in E.
  - destruct E as [E1 E2]. split.
    + rewrite <- (rev_involutive A1), <- (rev_involutive A2). now rewrite E2.
    + rewrite <- (rev_involutive D1), <- (rev_involutive D2). now rewrite E1.
  - now rewrite <- in_rev.
  - now rewrite <- in_rev.
Qed.

Lemma uint_chars (d : Decimal.uint) (c : ascii) :
  In c (list_ascii_of_string (NilEmpty.string_of_uint d)) ->
  In c (list_ascii_of_string "0123456789").
Proof.
  induction d; simpl; try tauto;
    intros [<-|H]; try (specialize (IHd H); simpl in IHd); tauto.
Qed.

(** An integer prints as digits after an optional minus sign. *)
Lemma str_int_chars (z : Z) (c : ascii) :
  In c (list_ascii_of_string (str_int z)) ->
  In c (list_ascii_of_string "-0123456789").
Proof.
  unfold str_int, NilZero.string_of_int, NilZero.string_of_uint.
  assert (U : forall d,
             In c (list_ascii_of_string
                     match d with
                     | Decimal.Nil => "0"
                     | _ => NilEmpty.string_of_uint d
                     end) ->
             In c (list_ascii_of_string "0123456789")).
  { intros d. destruct d; try apply uint_chars. simpl. tauto. }
  destruct (Z.to_int z) as [d|d].
  - intros H. right. apply (U d H).
  - simpl. intros [<-|H]; [now left|]. right. apply (U d H).
Qed.

Lemma to_int_proper (z : Z) :
  Z.to_int z <> Decimal.Pos Decimal.Nil /\ Z.to_int z <> Decimal.Neg Decimal.Nil.
Proof.
  destruct z; simpl; split; try discriminate;
    intros [= H]; now apply Unsigned.to_uint_nonnil in H.
Qed.

Lemma str_int_inj (a b : Z) : str_int a = str_int b -> a = b.
Proof.
  unfold str_int. intros H. apply DecimalZ.to_int_inj.
  destruct (to_int_proper a) as [Ha1 Ha2], (to_int_proper b) as [Hb1 Hb2].
  pose proof (NilZero.isi _ Ha1 Ha2) as Ia.
  pose proof (NilZero.isi _ Hb1 Hb2) as Ib.
  rewrite H in Ia. congruence.
Qed.

Lemma str_int_no (g : ascii) (z : Z) :
  ~ In g (list_ascii_of_string "-0123456789") ->
  ~ In g (list_ascii_of_string (str_int z)).
Proof. intros H Hin. apply H. apply (str_int_chars z g Hin). Qed.

(** A label that ends in ["_horizon_lag<k>"] is no feature label. *)
Lemma horizon_label_not_target (k lag : Z) (x x' : string) :
  horizon_label k x <> target_label lag x'.
Proof.
  unfold horizon_label, target_label. intros E.
  apply (f_equal list_ascii_of_string) in E.
  rewrite !chars_append in E.
  change (list_ascii_of_string "_horizon_lag")
    with (list_ascii_of_string "_horizon_la" ++ ["g"%char]) in E.
  change (list_ascii_of_string "_target_lag")
    with (list_ascii_of_string "_target_la" ++ ["g"%char]) in E.
  rewrite <- !app_assoc in E. simpl ([_] ++ _) in E.
  rewrite !app_assoc in E.
  apply split_at_last in E.
  - destruct E as [E _]. apply (f_equal (@rev ascii)) in E.
    rewrite !rev_app_distr in E. simpl in E. discriminate.
  - apply str_int_no. simpl. intuition discriminate.
  - apply str_int_no. simpl. intuition discriminate.
Qed.

Lemma horizon_label_not_cov (k lag : Z) (name x x' : string) :
  horizon_label k x <> cov_label name lag x'.
Proof.
  unfold horizon_label, cov_label. intros E.
  apply (f_equal list_ascii_of_string) in E.
  rewrite !chars_append in E.
  change (list_ascii_of_string "_horizon_lag")
    with (list_ascii_of_string "_horizon_la" ++ ["g"%char]) in E.
  change (list_ascii_of_string "_cov_lag")
    with (list_ascii_of_string "_cov_la" ++ ["g"%char]) in E.
  rewrite <- !app_assoc in E. simpl ([_] ++ _) in E.
  rewrite !app_assoc in E.
  apply split_at_last in E.
  - destruct E as [E _]. apply (f_equal (@rev ascii)) in E.
    rewrite !rev_app_distr in E. simpl in E. discriminate.
  - apply str_int_no. simpl. intuition discriminate.
  - apply str_int_no. simpl. intuition discriminate.
Qed.

(** *** The empty-sample-set error *)

Lemma lagged_samples_outcome p pc fc n idx ts df_X D :
  lagged_frames p pc fc idx ts = Ok (df_X, D) ->
  lagged_samples p pc fc n idx ts
  = match keep_most_recent p (values D) with
    | [] => Raise (ValueError (empty_samples_message n idx))
    | _ :: _ =>
        Ok (fst (np_split_axis1 (width df_X)
                   {| nd_cols := width D;
                      nd_rows := keep_most_recent p (values D) |}),
            snd (np_split_axis1 (width df_X)
                   {| nd_cols := width D;
                      nd_rows := keep_most_recent p (values D) |}),
            keep_most_recent p (index D))
    end.
Proof.
  intros H. unfold lagged_samples. rewrite H. simpl.
  destruct (keep_most_recent p (values D)); reflexivity.
Qed.

(** The first series that raises ends the loop with its exception. *)
Lemma lagged_loop_raise p pc fc n e : forall targets idx0 i ts,
  nth_error targets i = Some ts ->
  (forall j tsj, (j < i)%nat -> nth_error targets j = Some tsj ->
     exists r, lagged_samples p pc fc n (idx0 + j) tsj = Ok r) ->
  lagged_samples p pc fc n (idx0 + i) ts = Raise e ->
  lagged_loop p pc fc n idx0 targets = Raise e.
Proof.
  induction targets as [|ts0 targets IH]; intros idx0 [|i] ts Hi Hprev Hr;
    simpl in *; try discriminate.
  - injection Hi as ->. rewrite Nat.add_0_r in Hr. now rewrite Hr.
  - destruct (Hprev 0%nat ts0) as [[[X0 y0] T0] H0]; [lia|reflexivity|].
    rewrite Nat.add_0_r in H0. rewrite H0. simpl.
    rewrite (IH (S idx0) i ts); auto.
    + intros j tsj Hj Hnth. destruct (Hprev (S j) tsj) as [r Hr']; [lia|exact Hnth|].
      exists r. now rewrite Nat.add_succ_comm.
    + now rewrite Nat.add_succ_comm.
Qed.

Lemma empty_samples_message_inj (n i j : nat) :
  (1 < n)%nat ->
  empty_samples_message n i = empty_samples_message n j -> i = j.
Proof.
  intros Hn. unfold empty_samples_message.
  apply Nat.ltb_lt in Hn. rewrite Hn. intros E.
  apply (f_equal list_ascii_of_string) in E.
  rewrite !chars_append in E.
  apply app_inv_head in E. rewrite <- !app_assoc in E.
  apply app_inv_head in E.
  change (list_ascii_of_string " ") with [" "%char] in E. simpl ([_] ++ _) in E.
  apply split_at_first in E.
  - destruct E as [E _]. apply chars_inj, str_int_inj in E. lia.
  - apply str_int_no. simpl. intuition discriminate.
  - apply str_int_no. simpl. intuition discriminate.
Qed.

(** C6 -- Empty-sample-set error.  For a series whose frames could be
    built, the turn of the loop raises the empty-sample-set error if and
    only if no row is left after shifting, filtering and capping, and
    returns otherwise; it raises nothing else.  The message names the
    position of the series (["at index <idx> "]) exactly when more than
    one series was supplied, and then tells the positions apart.  The
    error of the first failing series is the outcome of the whole call. *)
Theorem empty_sample_set_error p pc fc targets idx ts df_X D :
  nth_error targets idx = Some ts ->
  lagged_frames p pc fc idx ts = Ok (df_X, D) ->
  let n := length targets in
  let outcome := lagged_samples p pc fc n idx ts in
  (outcome = Raise (ValueError (empty_samples_message n idx))
   <-> keep_most_recent p (values D) = []) /\
  ((exists r, outcome = Ok r) <-> keep_most_recent p (values D) <> []) /\
  (forall e, outcome = Raise e ->
             e = ValueError (empty_samples_message n idx)) /\
  ((1 < n)%nat ->
   empty_samples_message n idx
   = ("Unable to build any training samples of the target series "
      ++ ("at index " ++ str_int (Z.of_nat idx) ++ " ")
      ++ "and the corresponding covariate series; "
      ++ "There is no time step for which all required lags are available and are not NaN values.")%string) /\
  ((n <= 1)%nat ->
   empty_samples_message n idx
   = ("Unable to build any training samples of the target series "
      ++ "and the corresponding covariate series; "
      ++ "There is no time step for which all required lags are available and are not NaN values.")%string) /\
  (forall j, (1 < n)%nat ->
             empty_samples_message n j = empty_samples_message n idx -> j = idx) /\
  ((forall j tsj, (j < idx)%nat -> nth_error targets j = Some tsj ->
      exists r, lagged_samples p pc fc n j tsj = Ok r) ->
   forall e, outcome = Raise e -> _create_lagged_data p targets pc fc = Raise e).
Proof.
  intros Hnth HF n outcome. subst outcome.
  rewrite (lagged_samples_outcome p pc fc n idx ts df_X D HF).
  repeat split.
  - destruct (keep_most_recent p (values D)); [reflexivity|discriminate].
  - intros ->. reflexivity.
  - intros [r Hr]. destruct (keep_most_recent p (values D)); discriminate.
  - intros H. destruct (keep_most_recent p (values D)); [congruence|eauto].
  - intros e. destruct (keep_most_recent p (values D)); [|discriminate].
    now intros [= <-].
  - intros Hn. unfold empty_samples_message.
    apply Nat.ltb_lt in Hn. now rewrite Hn.
  - intros Hn. unfold empty_samples_message.
    apply Nat.ltb_ge in Hn. now rewrite Hn.
  - intros j Hn. now apply empty_samples_message_inj.
  - intros Hprev e He. unfold _create_lagged_data. fold n.
    rewrite (lagged_loop_raise p pc fc n e targets 0%nat idx ts); auto.
    simpl. now rewrite (lagged_samples_outcome p pc fc n idx ts df_X D HF).
Qed.

Lemma empty_sample_set_error_witness :
  lagged_samples e2e_params None None 1 0 short_series
  = Raise (ValueError (empty_samples_message 1 0))
  /\ _create_lagged_data e2e_params [short_series] None None
      = Raise (ValueError (empty_samples_message 1 0)).
Proof.
  edestruct (empty_sample_set_error e2e_params None None [short_series] 0%nat
               short_series) as (H1 & _ & _ & _ & _ & _ & H7);
    [reflexivity | vm_compute; reflexivity | ].
  assert (H : lagged_samples e2e_params None None 1 0 short_series
              = Raise (ValueError (empty_samples_message 1 0))).
  { apply H1. vm_compute. reflexivity. }
  split; [exact H|].
  apply H7; [|exact H]. intros j tsj Hj. inversion Hj.
Defined.

(** *** The frames of one series *)

Lemma wf_pd_dataframe (ts : TimeSeries) :
  wf_series ts -> wf_frame (pd_dataframe ts).
Proof. intros (_ & H & _). exact H. Qed.

Lemma covariate_frame_wf covs idx d :
  wf_covariates covs -> covariate_frame covs idx = Ok (Some d) -> wf_frame d.
Proof.
  unfold covariate_frame, wf_covariates. intros Hwf.
  destruct (truthy covs); [|discriminate].
  destruct (nth_error (items covs) idx) as [ts|] eqn:E; [|discriminate].
  intros [= <-]. apply wf_pd_dataframe.
  rewrite Forall_forall in Hwf. apply Hwf. eapply nth_error_In; eauto.
Qed.

Lemma wf_extend_covariate p df_target df_cov :
  wf_frame df_cov -> wf_frame (extend_covariate p df_target df_cov).
Proof.
  unfold extend_covariate. destruct (negb (is_training p)); auto.
  apply wf_reindex.
Qed.

Lemma target_blocks_wf p d : wf_frame d -> Forall wf_frame (target_blocks p d).
Proof.
  intros H. unfold target_blocks. destruct (truthy (lags p)); [|constructor].
  apply Forall_map, Forall_forall. intros lag _. now apply wf_rename, wf_shift.
Qed.

Lemma horizon_blocks_wf p d : wf_frame d -> Forall wf_frame (horizon_blocks p d).
Proof.
  intros H. unfold horizon_blocks. destruct (multi_models p).
  - apply Forall_map, Forall_forall. intros k _. now apply wf_rename, wf_shift.
  - repeat constructor. now apply wf_rename, wf_shift.
Qed.

Lemma covariate_blocks_wf p name df_cov lags_cov d blocks :
  (forall c, df_cov = Some c -> wf_frame c) ->
  covariate_blocks p name df_cov lags_cov d = Ok blocks ->
  Forall wf_frame blocks.
Proof.
  intros Hc. unfold covariate_blocks.
  destruct (truthy lags_cov); [|intros [= <-]; constructor].
  destruct df_cov as [c|]; [|discriminate]. intros [= <-].
  apply Forall_map, Forall_forall. intros lag _.
  apply wf_rename, wf_shift, wf_extend_covariate. now apply Hc.
Qed.

Lemma feature_blocks_wf p pc fc idx ts blocks :
  wf_series ts -> wf_covariates pc -> wf_covariates fc ->
  feature_blocks p pc fc idx ts = Ok blocks -> Forall wf_frame blocks.
Proof.
  intros Hts Hpc Hfc. unfold feature_blocks.
  destruct (covariate_frame pc idx) as [dp|] eqn:Ep; simpl; [|discriminate].
  destruct (covariate_frame fc idx) as [df_|] eqn:Ef; simpl; [|discriminate].
  destruct (covariate_blocks p "past" dp _ _) as [bp|] eqn:Bp; simpl; [|discriminate].
  destruct (covariate_blocks p "future" df_ _ _) as [bf|] eqn:Bf; simpl; [|discriminate].
  intros [= <-]. rewrite !Forall_app. repeat split.
  - now apply target_blocks_wf, wf_pd_dataframe.
  - eapply covariate_blocks_wf; [|exact Bp]. intros c ->.
    apply (covariate_frame_wf pc idx c Hpc Ep).
  - eapply covariate_blocks_wf; [|exact Bf]. intros c ->.
    apply (covariate_frame_wf fc idx c Hfc Ef).
Qed.

Lemma lagged_concat_inv p pc fc idx ts df_X df_X_y :
  lagged_concat p pc fc idx ts = Ok (df_X, df_X_y) ->
  exists blocks df_y,
    feature_blocks p pc fc idx ts = Ok blocks /\
    pd_concat_axis1 blocks = Ok df_X /\
    pd_concat_axis1 (horizon_blocks p (pd_dataframe ts)) = Ok df_y /\
    pd_concat_axis1 [df_X; df_y] = Ok df_X_y.
Proof.
  unfold lagged_concat.
  destruct (feature_blocks p pc fc idx ts) as [blocks|]; simpl; [|discriminate].
  destruct (pd_concat_axis1 blocks) as [dX|] eqn:EX; simpl; [|discriminate].
  destruct (pd_concat_axis1 (horizon_blocks p (pd_dataframe ts))) as [dy|] eqn:Ey;
    simpl; [|discriminate].
  intros [= <- <-]. exists blocks, dy. auto.
Qed.

Lemma lagged_frames_concat p pc fc idx ts :
  lagged_frames p pc fc idx ts
  = '(df_X, df_X_y) <- lagged_concat p pc fc idx ts ;;
    Ok (df_X, drop_missing p df_X df_X_y).
Proof. reflexivity. Qed.

(** Labels: the feature columns and the horizon columns never share a
    label. *)

Lemma feature_blocks_labels p pc fc idx ts blocks n :
  feature_blocks p pc fc idx ts = Ok blocks ->
  In n (flat_map columns blocks) -> feature_label n.
Proof.
  unfold feature_blocks.
  destruct (covariate_frame pc idx) as [dp|]; simpl; [|discriminate].
  destruct (covariate_frame fc idx) as [df_|]; simpl; [|discriminate].
  destruct (covariate_blocks p "past" dp _ _) as [bp|] eqn:Bp; simpl; [|discriminate].
  destruct (covariate_blocks p "future" df_ _ _) as [bf|] eqn:Bf; simpl; [|discriminate].
  intros [= <-]. rewrite !flat_map_app, !in_app_iff.
  assert (Hcov : forall name dc lc bl,
             covariate_blocks p name dc lc (pd_dataframe ts) = Ok bl ->
             In n (flat_map columns bl) -> feature_label n).
  { intros name dc lc bl. unfold covariate_blocks.
    destruct (truthy lc); [|intros [= <-] []].
    destruct dc as [c|]; [|discriminate]. intros [= <-].
    rewrite in_flat_map. intros [b [Hb Hn]].
    apply in_map_iff in Hb. destruct Hb as [lag [<- _]]. simpl in Hn.
    apply in_map_iff in Hn. destruct Hn as [x [<- _]].
    right. eauto. }
  intros [H|[H|H]]; eauto.
  unfold target_blocks in H. destruct (truthy (lags p)); [|destruct H].
  rewrite in_flat_map in H. destruct H as [b [Hb Hn]].
  apply in_map_iff in Hb. destruct Hb as [lag [<- _]]. simpl in Hn.
  apply in_map_iff in Hn. destruct Hn as [x [<- _]].
  left. eauto.
Qed.

Lemma horizon_blocks_labels p d n :
  In n (flat_map columns (horizon_blocks p d)) ->
  exists k x, n = horizon_label k x.
Proof.
  unfold horizon_blocks. destruct (multi_models p).
  - rewrite in_flat_map. intros [b [Hb Hn]].
    apply in_map_iff in Hb. destruct Hb as [k [<- _]]. simpl in Hn.
    apply in_map_iff in Hn. destruct Hn as [x [<- _]]. eauto.
  - simpl. rewrite app_nil_r. intros Hn.
    apply in_map_iff in Hn. destruct Hn as [x [<- _]]. eauto.
Qed.

Lemma in_names_In n names : in_names n names = true <-> In n names.
Proof.
  unfold in_names. rewrite existsb_exists. split.
  - intros [x [Hx E]]. apply String.eqb_eq in E. now subst.
  - intros H. exists n. split; auto. apply String.eqb_refl.
Qed.

Lemma horizon_not_feature k x n :
  feature_label n -> horizon_label k x <> n.
Proof.
  intros [[lag [x' ->]]|[name [lag [x' ->]]]].
  - apply horizon_label_not_target.
  - apply horizon_label_not_cov.
Qed.

(** *** Dropping rows *)

(** With the labels of the subset first and other labels behind,
    [dropna(subset=names)] tests the leading cells of a row. *)
Lemma subset_test_general (names cy : list string) (ry : row) :
  (forall n, In n cy -> in_names n names = false) ->
  forall (cx : list string) (rx : row),
    length cx = length rx ->
    (forall n, In n cx -> in_names n names = true) ->
    forallb (fun nc => implb (in_names (fst nc) names) (notna (snd nc)))
            (combine (cx ++ cy) (rx ++ ry))
    = forallb notna rx.
Proof.
  intros Hout. induction cx as [|n cx IH]; intros [|c rx] Hlen Hin;
    simpl in *; try discriminate.
  - apply forallb_forall. intros [n c] Hnc. simpl.
    apply in_combine_l in Hnc. now rewrite (Hout n Hnc).
  - rewrite Hin by now left. simpl. f_equal. apply IH; auto.
Qed.

Lemma subset_test (cx cy : list string) (rx ry : row) :
  length cx = length rx ->
  (forall n, In n cy -> ~ In n cx) ->
  forallb (fun nc => implb (in_names (fst nc) cx) (notna (snd nc)))
          (combine (cx ++ cy) (rx ++ ry))
  = forallb notna rx.
Proof.
  intros Hlen Hdis. apply subset_test_general; auto.
  - intros n Hn. destruct (in_names n cx) eqn:E; auto.
    apply in_names_In in E. now apply Hdis in Hn.
  - intros n. apply in_names_In.
Qed.

Lemma firstn_exact_app {A : Type} (l1 l2 : list A) (n : nat) :
  length l1 = n -> firstn n (l1 ++ l2) = l1.
Proof.
  intros <-. rewrite firstn_app, Nat.sub_diag, firstn_all. simpl.
  apply app_nil_r.
Qed.

Lemma skipn_exact_app {A : Type} (l1 l2 : list A) (n : nat) :
  length l1 = n -> skipn n (l1 ++ l2) = l2.
Proof.
  intros <-. rewrite skipn_app, Nat.sub_diag, skipn_all. reflexivity.
Qed.

(** The unfiltered frame of a series: each row is the feature row
    followed by the target row at the same label. *)
Lemma lagged_concat_rows p pc fc idx ts df_X df_X_y :
  wf_series ts -> wf_covariates pc -> wf_covariates fc ->
  lagged_concat p pc fc idx ts = Ok (df_X, df_X_y) ->
  exists blocks df_y,
    feature_blocks p pc fc idx ts = Ok blocks /\
    pd_concat_axis1 blocks = Ok df_X /\
    pd_concat_axis1 (horizon_blocks p (pd_dataframe ts)) = Ok df_y /\
    wf_frame df_X /\ wf_frame df_y /\
    columns df_X_y = columns df_X ++ columns df_y /\
    index df_X_y = index_union (index df_X) (index df_y) /\
    body df_X_y
    = map (fun t => (t, row_or_nan df_X t ++ row_or_nan df_y t)) (index df_X_y).
Proof.
  intros Hts Hpc Hfc H.
  destruct (lagged_concat_inv _ _ _ _ _ _ _ H) as (blocks & df_y & HB & HX & Hy & HXy).
  exists blocks, df_y. repeat split; auto.
  - eapply wf_concat; [|exact HX].
    apply (feature_blocks_wf p pc fc idx ts blocks Hts Hpc Hfc HB).
  - eapply wf_concat; [|exact Hy]. now apply horizon_blocks_wf, wf_pd_dataframe.
  - rewrite (concat_columns _ _ HXy). simpl. now rewrite app_nil_r.
  - rewrite (concat_index _ _ HXy). reflexivity.
  - rewrite (concat_body _ _ HXy). apply map_ext. intros t. simpl.
    now rewrite app_nil_r.
Qed.

(** Outside training a row is kept exactly when its feature cells are
    all present. *)
Lemma drop_missing_inference p pc fc idx ts df_X df_X_y :
  wf_series ts -> wf_covariates pc -> wf_covariates fc ->
  lagged_concat p pc fc idx ts = Ok (df_X, df_X_y) ->
  body (dropna_subset (columns df_X) df_X_y)
  = filter (fun tr => forallb notna (firstn (width df_X) (snd tr))) (body df_X_y).
Proof.
  intros Hts Hpc Hfc H.
  destruct (lagged_concat_rows _ _ _ _ _ _ _ Hts Hpc Hfc H)
    as (blocks & df_y & HB & HX & Hy & WX & Wy & HC & HI & HBody).
  unfold dropna_subset; simpl. apply filter_ext_in. intros [t r] Hin.
  rewrite HBody in Hin. apply in_map_iff in Hin.
  destruct Hin as [t' [[= <- <-] _]]. simpl.
  rewrite HC, firstn_exact_app by now apply length_row_or_nan.
  apply subset_test.
  - symmetry. now apply length_row_or_nan.
  - intros n Hy' HX'.
    rewrite (concat_columns _ _ Hy) in Hy'. rewrite (concat_columns _ _ HX) in HX'.
    apply horizon_blocks_labels in Hy'. destruct Hy' as [k [x ->]].
    apply (feature_blocks_labels _ _ _ _ _ _ _ HB) in HX'.
    now apply (horizon_not_feature k x) in HX'.
Qed.

Lemma forallb_firstn_skipn {A : Type} (f : A -> bool) (n : nat) (l : list A) :
  forallb f l = forallb f (firstn n l) && forallb f (skipn n l).
Proof. now rewrite <- forallb_app, firstn_skipn. Qed.

(** C2 -- Mode-dependent row filtering.  For well-formed inputs the
    builder keeps, in training mode, exactly the rows of the unfiltered
    frame whose feature cells and target cells are all present; outside
    training (inference) it keeps exactly the rows whose feature cells
    are all present, whatever the target cells hold.  For the series
    [1, 2, 3, NaN] with lags [-1] and horizon 1 the row at the last time
    stamp is dropped in training mode and retained, with its missing
    target, in inference mode. *)
Theorem mode_dependent_filtering p pc fc idx ts df_X df_X_y :
  wf_series ts -> wf_covariates pc -> wf_covariates fc ->
  lagged_concat p pc fc idx ts = Ok (df_X, df_X_y) ->
  let w := width df_X in
  let kept := body (drop_missing p df_X df_X_y) in
  lagged_frames p pc fc idx ts = Ok (df_X, drop_missing p df_X df_X_y) /\
  (forall t r, In (t, r) (body df_X_y) ->
     length r = width df_X_y /\ (w <= width df_X_y)%nat) /\
  (is_training p = true ->
   kept = filter (fun tr => forallb notna (firstn w (snd tr))
                            && forallb notna (skipn w (snd tr)))
                 (body df_X_y)) /\
  (is_training p = false ->
   kept = filter (fun tr => forallb notna (firstn w (snd tr))) (body df_X_y)) /\
  _create_lagged_data e2e_params [p3_series] None None
  = Ok ({| nd_cols := 1; nd_rows := [[Some 1]; [Some 2]] |},
        {| nd_cols := 1; nd_rows := [[Some 2]; [Some 3]] |},
        [[1; 2]]) /\
  _create_lagged_data (with_is_training false e2e_params) [p3_series] None None
  = Ok ({| nd_cols := 1; nd_rows := [[Some 1]; [Some 2]; [Some 3]] |},
        {| nd_cols := 1; nd_rows := [[Some 2]; [Some 3]; [None]] |},
        [[1; 2; 3]]).
Proof.
  intros Hts Hpc Hfc H w kept. subst w kept.
  split; [rewrite lagged_frames_concat, H; reflexivity|].
  split.
  { intros t r Hin.
    destruct (lagged_concat_rows _ _ _ _ _ _ _ Hts Hpc Hfc H)
      as (blocks & df_y & HB & HX & Hy & WX & Wy & HC & HI & HBody).
    rewrite HBody in Hin. apply in_map_iff in Hin.
    destruct Hin as [t' [[= <- <-] _]].
    rewrite !length_app, !length_row_or_nan by assumption.
    unfold width. rewrite HC, length_app. lia. }
  split; [|split; [|split]].
  - intros Htr. unfold drop_missing. rewrite Htr. unfold dropna; simpl.
    apply filter_ext. intros tr. apply forallb_firstn_skipn.
  - intros Htr. unfold drop_missing. rewrite Htr.
    now apply (drop_missing_inference p pc fc idx ts).
  - vm_compute. reflexivity.
  - vm_compute. reflexivity.
Qed.

Lemma mode_dependent_filtering_witness :
  exists df_X df_X_y,
    lagged_frames (with_is_training false e2e_params) None None 0 p3_series
    = Ok (df_X, drop_missing (with_is_training false e2e_params) df_X df_X_y) /\
    index (drop_missing (with_is_training false e2e_params) df_X df_X_y) = [1; 2; 3].
Proof.
  assert (Hwf : wf_series p3_series).
  { split; [discriminate|]. split; [repeat constructor|].
    repeat constructor; simpl; intuition discriminate. }
  destruct (lagged_concat (with_is_training false e2e_params) None None 0 p3_series)
    as [[df_X df_X_y]|e] eqn:E; [|vm_compute in E; discriminate].
  exists df_X, df_X_y.
  destruct (mode_dependent_filtering (with_is_training false e2e_params)
              None None 0%nat p3_series df_X df_X_y Hwf
              (Forall_nil _) (Forall_nil _) E) as (H1 & _).
  split; [exact H1|].
  vm_compute in E. injection E as <- <-. vm_compute. reflexivity.
Defined.

(** *** Shifted rows by label *)

Lemma get_loc_Some (t : Z) (idx : list Z) (pos : nat) :
  get_loc t idx = Some pos -> nth_error idx pos = Some t.
Proof.
  revert pos; induction idx as [|x idx IH]; intros pos; simpl; [discriminate|].
  destruct (Z.eqb_spec x t) as [->|_].
  - now intros [= <-].
  - destruct (get_loc t idx) as [q|]; simpl; [|discriminate].
    intros [= <-]. simpl. now apply IH.
Qed.

Lemma get_loc_None (t : Z) (idx : list Z) :
  get_loc t idx = None <-> ~ In t idx.
Proof.
  induction idx as [|x idx IH]; simpl; [tauto|].
  destruct (Z.eqb_spec x t) as [->|Hne].
  - split; [discriminate|]. intros H. exfalso. apply H. now left.
  - destruct (get_loc t idx) as [q|]; simpl.
    + split; [discriminate|]. intros H. exfalso.
      assert (Hq : ~ In t idx) by tauto. now apply IH in Hq.
    + split; auto. intros _ [H|H]; [congruence|]. now apply IH in H.
Qed.

Lemma loc_row_combine_seq (g : nat -> row) (t : Z) : forall (idx : list Z) (s : nat),
  loc_row (combine idx (map g (seq s (length idx)))) t
  = option_map (fun pos => g (s + pos)%nat) (get_loc t idx).
Proof.
  induction idx as [|x idx IH]; intros s; simpl; auto.
  destruct (Z.eqb_spec x t) as [->|_]; simpl.
  - now rewrite Nat.add_0_r.
  - rewrite IH. destruct (get_loc t idx) as [q|]; simpl; auto.
    do 2 f_equal. lia.
Qed.

(** The row of a shifted frame at a label: the row [periods] positions
    before the position of the label, NaN outside the frame. *)
Lemma row_or_nan_shift (k : Z) (d : DataFrame) (t : Z) :
  row_or_nan (shift k d) t
  = match get_loc t (index d) with
    | Some pos => iloc (values d) (width d) (Z.of_nat pos - k)
    | None => nan_row (width d)
    end.
Proof.
  unfold row_or_nan, shift; simpl.
  rewrite <- (length_index_values d), loc_row_combine_seq.
  destruct (get_loc t (index d)); reflexivity.
Qed.

Lemma row_or_nan_rename (f : string -> string) (d : DataFrame) (t : Z) :
  row_or_nan (rename f d) t = row_or_nan d t.
Proof.
  unfold row_or_nan, rename, width; simpl. now rewrite length_map.
Qed.

Lemma nan_row_not_all_present (w : nat) :
  (0 < w)%nat -> forallb notna (nan_row w) = false.
Proof. destruct w; [lia|reflexivity]. Qed.

(** A positional read whose cells are all present came from inside the
    frame. *)
Lemma iloc_present (rs : list row) (w : nat) (p : Z) :
  (0 < w)%nat -> forallb notna (iloc rs w p) = true ->
  0 <= p /\ nth_error rs (Z.to_nat p) = Some (iloc rs w p).
Proof.
  intros Hw. unfold iloc. destruct (Z.ltb_spec p 0) as [Hp|Hp].
  - now rewrite nan_row_not_all_present.
  - intros H. split; auto.
    destruct (nth_error rs (Z.to_nat p)) as [r|] eqn:E.
    + now rewrite (nth_error_nth _ _ _ E).
    + apply nth_error_None in E. rewrite nth_overflow in H by exact E.
      now rewrite nan_row_not_all_present in H.
Qed.

Lemma iloc_inside (rs : list row) (w : nat) (p : nat) (r : row) :
  nth_error rs p = Some r -> iloc rs w (Z.of_nat p) = r.
Proof.
  intros H. unfold iloc. destruct (Z.ltb_spec (Z.of_nat p) 0); [lia|].
  rewrite Nat2Z.id. now apply nth_error_nth.
Qed.

Lemma keep_most_recent_In {A : Type} (p : Params) (l : list A) (x : A) :
  In x (keep_most_recent p l) -> In x l.
Proof.
  unfold keep_most_recent. destruct (max_samples_per_ts p) as [m|]; auto.
  destruct (m =? 0); auto. unfold py_slice_from.
  intros H. rewrite <- (firstn_skipn (Z.to_nat
    (if - m <? 0 then Z.max (Z.of_nat (length l) + - m) 0
     else Z.min (- m) (Z.of_nat (length l)))) l).
  apply in_or_app. now right.
Qed.

(** In both modes a retained row was a row of the unfiltered frame and
    has all its feature cells. *)
Lemma drop_missing_features p pc fc idx ts df_X df_X_y tr :
  wf_series ts -> wf_covariates pc -> wf_covariates fc ->
  lagged_concat p pc fc idx ts = Ok (df_X, df_X_y) ->
  In tr (body (drop_missing p df_X df_X_y)) ->
  In tr (body df_X_y) /\
  forallb notna (firstn (width df_X) (snd tr)) = true.
Proof.
  intros Hts Hpc Hfc H. unfold drop_missing. destruct (is_training p).
  - unfold dropna; simpl. rewrite filter_In. intros [Hin Hall]. split; auto.
    rewrite (forallb_firstn_skipn _ (width df_X)) in Hall.
    now apply andb_true_iff in Hall.
  - rewrite (drop_missing_inference p pc fc idx ts) by assumption.
    now rewrite filter_In.
Qed.

(** *** What one series contributes *)

Lemma width_drop_missing p df_X df_X_y :
  width (drop_missing p df_X df_X_y) = width df_X_y.
Proof. unfold drop_missing. now destruct (is_training p). Qed.

(** The arrays of a series are read off its blocks at the retained
    labels: row [i] of [X] is the row of the feature blocks at [T[i]],
    row [i] of [y] the row of the horizon blocks at [T[i]]. *)
Lemma lagged_samples_rows p pc fc n idx ts X y T :
  wf_series ts -> wf_covariates pc -> wf_covariates fc ->
  lagged_samples p pc fc n idx ts = Ok (X, y, T) ->
  exists blocks,
    feature_blocks p pc fc idx ts = Ok blocks /\
    Forall wf_frame blocks /\
    nd_rows X = map (blocks_row blocks) T /\
    nd_rows y = map (blocks_row (horizon_blocks p (pd_dataframe ts))) T /\
    nd_cols X = length (flat_map columns blocks) /\
    nd_cols y = length (flat_map columns (horizon_blocks p (pd_dataframe ts))) /\
    Forall (fun t => forallb notna (blocks_row blocks t) = true) T.
Proof.
  intros Hts Hpc Hfc H.
  destruct (lagged_samples_inv _ _ _ _ _ _ _ _ _ H)
    as (df_X & D & HF & _ & HT & HXr & Hyr & HXc & Hyc).
  rewrite lagged_frames_concat in HF.
  destruct (lagged_concat p pc fc idx ts) as [[df_X' df_X_y]|] eqn:HC;
    simpl in HF; [|discriminate].
  injection HF as -> <-.
  destruct (lagged_concat_rows _ _ _ _ _ _ _ Hts Hpc Hfc HC)
    as (blocks & df_y & HB & HX & Hy & WX & Wy & HCol & HI & HBody).
  exists blocks.
  assert (Hkept : forall tr,
             In tr (keep_most_recent p (body (drop_missing p df_X df_X_y))) ->
             snd tr = blocks_row blocks (fst tr)
                      ++ blocks_row (horizon_blocks p (pd_dataframe ts)) (fst tr)
             /\ length (blocks_row blocks (fst tr)) = width df_X
             /\ forallb notna (blocks_row blocks (fst tr)) = true).
  { intros tr Hin. apply keep_most_recent_In in Hin.
    destruct (drop_missing_features _ _ _ _ _ _ _ _ Hts Hpc Hfc HC Hin)
      as [Hin' Hall].
    rewrite HBody in Hin'. apply in_map_iff in Hin'.
    destruct Hin' as [t [<- _]]. simpl in *.
    unfold blocks_row.
    rewrite <- (row_or_nan_concat _ _ t HX), <- (row_or_nan_concat _ _ t Hy).
    rewrite firstn_exact_app in Hall by now apply length_row_or_nan.
    repeat split; auto. now apply length_row_or_nan. }
  split; [exact HB|]. split.
  { apply (feature_blocks_wf p pc fc idx ts blocks Hts Hpc Hfc HB). }
  split; [|split; [|split; [|split]]].
  - rewrite HXr, HT, map_map. apply map_ext_in. intros tr Hin.
    destruct (Hkept tr Hin) as (E & Hlen & _). cbv beta.
    rewrite <- (firstn_exact_app _
      (blocks_row (horizon_blocks p (pd_dataframe ts)) (fst tr)) _ Hlen).
    f_equal. exact E.
  - rewrite Hyr, HT, map_map. apply map_ext_in. intros tr Hin.
    destruct (Hkept tr Hin) as (E & Hlen & _). cbv beta.
    rewrite <- (skipn_exact_app _
      (blocks_row (horizon_blocks p (pd_dataframe ts)) (fst tr)) _ Hlen).
    f_equal. exact E.
  - rewrite HXc, width_drop_missing.
    unfold width. rewrite HCol, length_app, (concat_columns _ _ HX). lia.
  - rewrite Hyc, width_drop_missing.
    unfold width. rewrite HCol, length_app, (concat_columns _ _ Hy). lia.
  - rewrite HT. apply Forall_map, Forall_forall. intros tr Hin.
    now destruct (Hkept tr Hin) as (_ & _ & Hall).
Qed.

(** *** A single series with one lag *)

Lemma single_series_result p ts pc fc X y Ts :
  _create_lagged_data p [ts] pc fc = Ok (X, y, Ts) ->
  exists X0 y0 T0,
    lagged_samples p pc fc 1 0 ts = Ok (X0, y0, T0) /\
    nd_rows X = nd_rows X0 /\ nd_rows y = nd_rows y0 /\ Ts = [T0] /\
    nd_cols X = nd_cols X0 /\ nd_cols y = nd_cols y0.
Proof.
  unfold _create_lagged_data. simpl.
  destruct (lagged_samples p pc fc 1 0 ts) as [[[X0 y0] T0]|]; simpl; [|discriminate].
  intros [= <- <- <-]. exists X0, y0, T0. simpl. rewrite !app_nil_r. auto 10.
Qed.

Lemma feature_blocks_target_only p idx ts blocks :
  feature_blocks p None None idx ts = Ok blocks ->
  blocks = target_blocks p (pd_dataframe ts).
Proof.
  unfold feature_blocks, covariate_frame, covariate_blocks. simpl.
  destruct (truthy (lags_past_covariates p)); simpl; [discriminate|].
  destruct (truthy (lags_future_covariates p)); simpl; [discriminate|].
  intros [= <-]. now rewrite app_nil_r.
Qed.

Lemma horizon_blocks_one p d :
  output_chunk_length p = 1 ->
  horizon_blocks p d = [rename (horizon_label 0) (shift 0 d)].
Proof.
  intros H. unfold horizon_blocks. rewrite H. now destruct (multi_models p).
Qed.

Lemma nth_error_values_of_index (ts : TimeSeries) (pos : nat) (t : Z) :
  nth_error (time_index ts) pos = Some t ->
  exists r, nth_error (series_values ts) pos = Some r.
Proof.
  unfold time_index, series_values. rewrite !nth_error_map.
  destruct (nth_error (observations ts) pos) as [[t' r]|]; simpl; [|discriminate].
  eauto.
Qed.

(** C1 -- Row alignment with one lag.  End to end: the series with the
    daily values 1..5 at the time stamps 0..4, target lags [-1], horizon
    1, multi-step targets, training mode, gives X = [[1],[2],[3],[4]],
    y = [[2],[3],[4],[5]] and the retained time index [1,2,3,4].  In
    general (P1), for a well-formed single series with target lags [-1]
    and horizon 1, whenever the builder returns, row [i] of [X] is the
    row of values of the series one position before the position of the
    time stamp [T[i]], and row [i] of [y] is the row of values at
    [T[i]]. *)
Theorem lag_one_alignment :
  _create_lagged_data_single e2e_params e2e_series None None
  = Ok ({| nd_cols := 1; nd_rows := [[Some 1]; [Some 2]; [Some 3]; [Some 4]] |},
        {| nd_cols := 1; nd_rows := [[Some 2]; [Some 3]; [Some 4]; [Some 5]] |},
        [[1; 2; 3; 4]])
  /\
  forall p ts X y Ts,
    wf_series ts ->
    lags p = Some [-1] ->
    output_chunk_length p = 1 ->
    _create_lagged_data_single p ts None None = Ok (X, y, Ts) ->
    exists T,
      Ts = [T] /\
      length (nd_rows X) = length T /\
      length (nd_rows y) = length T /\
      forall i t, nth_error T i = Some t ->
        exists pos rx ry,
          get_loc t (time_index ts) = Some (S pos) /\
          nth_error (series_values ts) pos = Some rx /\
          nth_error (series_values ts) (S pos) = Some ry /\
          nth_error (nd_rows X) i = Some rx /\
          nth_error (nd_rows y) i = Some ry.
Proof.
  split; [vm_compute; reflexivity|].
  intros p ts X y Ts Hwf Hlags Hocl H.
  unfold _create_lagged_data_single in H. simpl in H.
  destruct (single_series_result _ _ _ _ _ _ _ H)
    as (X0 & y0 & T & HS & -> & -> & -> & _).
  exists T. split; [reflexivity|].
  destruct (lagged_samples_rows p None None 1%nat 0%nat ts X0 y0 T Hwf
              (Forall_nil _) (Forall_nil _) HS)
    as (blocks & HB & _ & HXr & Hyr & _ & _ & Hall).
  apply feature_blocks_target_only in HB.
  unfold target_blocks in HB. rewrite Hlags in HB. simpl in HB. subst blocks.
  rewrite (horizon_blocks_one p _ Hocl) in Hyr.
  rewrite HXr, Hyr, !length_map. repeat split.
  intros i t Hi.
  rewrite Forall_forall in Hall. specialize (Hall t (nth_error_In _ _ Hi)).
  unfold blocks_row in *. simpl in *. rewrite app_nil_r in Hall.
  rewrite row_or_nan_rename, row_or_nan_shift in Hall.
  assert (Hw : (0 < width (pd_dataframe ts))%nat).
  { destruct Hwf as [Hc _]. unfold width; simpl.
    destruct (components ts); [congruence|simpl; lia]. }
  change (index (pd_dataframe ts)) with (time_index ts) in Hall.
  change (values (pd_dataframe ts)) with (series_values ts) in Hall.
  destruct (get_loc t (time_index ts)) as [pos'|] eqn:EL;
    [|now rewrite nan_row_not_all_present in Hall].
  destruct (iloc_present _ _ _ Hw Hall) as [Hge Hnth].
  destruct pos' as [|pos]; [simpl in Hge; lia|].
  replace (Z.to_nat (Z.of_nat (S pos) - 1)) with pos in Hnth by lia.
  pose proof (get_loc_Some _ _ _ EL) as Hidx.
  destruct (nth_error_values_of_index ts (S pos) t Hidx) as [ry Hry].
  exists pos, (iloc (series_values ts) (width (pd_dataframe ts))
                 (Z.of_nat (S pos) - 1)), ry.
  repeat split; auto.
  - rewrite nth_error_map, Hi. simpl. rewrite app_nil_r.
    rewrite row_or_nan_rename, row_or_nan_shift.
    change (index (pd_dataframe ts)) with (time_index ts). now rewrite EL.
  - rewrite nth_error_map, Hi. simpl. rewrite app_nil_r.
    rewrite row_or_nan_rename, row_or_nan_shift.
    change (index (pd_dataframe ts)) with (time_index ts). rewrite EL.
    rewrite Z.sub_0_r. f_equal. now apply iloc_inside.
Qed.

Lemma lag_one_alignment_witness :
  exists pos rx ry,
    get_loc 2 (time_index e2e_series) = Some (S pos) /\
    nth_error (series_values e2e_series) pos = Some rx /\
    nth_error (series_values e2e_series) (S pos) = Some ry /\
    rx = [Some 2] /\ ry = [Some 3].
Proof.
  assert (Hwf : wf_series e2e_series).
  { split; [discriminate|]. split; [repeat constructor|].
    repeat constructor; simpl; intuition discriminate. }
  destruct lag_one_alignment as [He2e Hp1].
  destruct (Hp1 e2e_params e2e_series _ _ _ Hwf eq_refl eq_refl He2e)
    as (T & HT & _ & _ & Hrow).
  injection HT as <-.
  destruct (Hrow 1%nat 2 eq_refl) as (pos & rx & ry & H1 & H2 & H3 & H4 & H5).
  exists pos, rx, ry. simpl in H4, H5.
  repeat split; auto; congruence.
Defined.

(** *** Column layout *)

Lemma flat_map_map_comp {A B C : Type} (g : A -> B) (f : B -> list C) (l : list A) :
  flat_map f (map g l) = flat_map (fun a => f (g a)) l.
Proof. induction l as [|a l IH]; simpl; auto. now rewrite IH. Qed.

Lemma truthy_false_items {A : Type} (o : option (list A)) :
  truthy o = false -> items o = [].
Proof. destruct o as [[|a l]|]; simpl; auto; discriminate. Qed.

Lemma target_blocks_map p d :
  target_blocks p d
  = map (fun lag => rename (target_label lag) (shift (- lag) d)) (items (lags p)).
Proof.
  unfold target_blocks. destruct (truthy (lags p)) eqn:E; auto.
  now rewrite (truthy_false_items _ E).
Qed.

Lemma covariate_frame_cov_at covs idx d :
  covariate_frame covs idx = Ok d -> d = cov_at covs idx.
Proof.
  unfold covariate_frame, cov_at. destruct (truthy covs); [|now intros [= <-]].
  destruct (nth_error (items covs) idx); [|discriminate]. now intros [= <-].
Qed.

Lemma covariate_blocks_map p name dc lc d blocks :
  covariate_blocks p name dc lc d = Ok blocks ->
  blocks = match dc with
           | Some c => map (fun lag => rename (cov_label name lag)
                                         (shift (- lag) (extend_covariate p d c)))
                           (items lc)
           | None => []
           end.
Proof.
  unfold covariate_blocks. destruct (truthy lc) eqn:E.
  - destruct dc; [|discriminate]. now intros [= <-].
  - intros [= <-]. rewrite (truthy_false_items _ E). now destruct dc.
Qed.

Lemma blocks_row_group (label : Z -> string -> string) l d t :
  blocks_row (map (fun lag => rename (label lag) (shift (- lag) d)) l) t
  = flat_map (fun lag => row_or_nan (shift (- lag) d) t) l.
Proof.
  unfold blocks_row. rewrite flat_map_map_comp. apply flat_map_ext.
  intros lag. apply row_or_nan_rename.
Qed.

Lemma blocks_row_app a b t :
  blocks_row (a ++ b) t = blocks_row a t ++ blocks_row b t.
Proof. apply flat_map_app. Qed.

Lemma columns_group (label : Z -> string -> string) l d :
  flat_map columns (map (fun lag => rename (label lag) (shift (- lag) d)) l)
  = flat_map (fun lag => map (label lag) (columns d)) l.
Proof. now rewrite flat_map_map_comp. Qed.

Lemma columns_extend_covariate p d c :
  columns (extend_covariate p d c) = columns c.
Proof. unfold extend_covariate. now destruct (negb (is_training p)). Qed.

(** The feature blocks of a series are in the order the specification
    states, both for the labels and for the cells. *)
Lemma feature_blocks_layout p pc fc idx ts blocks :
  feature_blocks p pc fc idx ts = Ok blocks ->
  flat_map columns blocks
  = expected_columns p (pd_dataframe ts) (cov_at pc idx) (cov_at fc idx) /\
  forall t, blocks_row blocks t
            = expected_row p (pd_dataframe ts) (cov_at pc idx) (cov_at fc idx) t.
Proof.
  unfold feature_blocks.
  destruct (covariate_frame pc idx) as [dp|] eqn:Ep; simpl; [|discriminate].
  destruct (covariate_frame fc idx) as [df_|] eqn:Ef; simpl; [|discriminate].
  destruct (covariate_blocks p "past" dp _ _) as [bp|] eqn:Bp; simpl; [|discriminate].
  destruct (covariate_blocks p "future" df_ _ _) as [bf|] eqn:Bf; simpl; [|discriminate].
  intros [= <-].
  apply covariate_frame_cov_at in Ep, Ef. subst dp df_.
  apply covariate_blocks_map in Bp, Bf. subst bp bf.
  rewrite target_blocks_map.
  unfold expected_columns, expected_row, group_labels, group_row.
  split.
  - rewrite !flat_map_app, columns_group. do 2 f_equal.
    + destruct (cov_at pc idx); auto.
      rewrite columns_group. apply flat_map_ext. intros lag.
      now rewrite columns_extend_covariate.
    + destruct (cov_at fc idx); auto.
      rewrite columns_group. apply flat_map_ext. intros lag.
      now rewrite columns_extend_covariate.
  - intros t. rewrite !blocks_row_app.
    rewrite (blocks_row_group target_label). do 2 f_equal.
    + destruct (cov_at pc idx); auto. apply blocks_row_group.
    + destruct (cov_at fc idx); auto. apply blocks_row_group.
Qed.

Lemma np_concatenate_axis0_cols arrays a b :
  np_concatenate_axis0 arrays = Ok a -> In b arrays -> nd_cols b = nd_cols a.
Proof.
  destruct arrays as [|a0 rest]; simpl; [discriminate|].
  destruct (forallb _ rest) eqn:E; [|discriminate]. intros [= <-]. simpl.
  intros [<-|Hin]; auto.
  rewrite forallb_forall in E. now apply Nat.eqb_eq, E.
Qed.

Lemma length_blocks_row blocks t :
  Forall wf_frame blocks ->
  length (blocks_row blocks t) = length (flat_map columns blocks).
Proof.
  induction 1 as [|b blocks Hb _ IH]; simpl; auto.
  rewrite !length_app, IH. f_equal. now apply length_row_or_nan.
Qed.

Lemma lagged_frames_columns p pc fc idx ts df_X D blocks :
  lagged_frames p pc fc idx ts = Ok (df_X, D) ->
  feature_blocks p pc fc idx ts = Ok blocks ->
  columns df_X = flat_map columns blocks.
Proof.
  rewrite lagged_frames_concat.
  destruct (lagged_concat p pc fc idx ts) as [[dX dXy]|] eqn:E; simpl; [|discriminate].
  intros [= <- _] HB.
  destruct (lagged_concat_inv _ _ _ _ _ _ _ E) as (blocks' & df_y & HB' & HX & _).
  rewrite HB in HB'. injection HB' as <-. apply (concat_columns _ _ HX).
Qed.

(** C5 -- Column layout.  Whenever the builder returns for well-formed
    inputs, [X] is the row-wise concatenation of one array per series;
    for each series the feature frame carries the labels of the
    target-lag columns, then of the past-covariate-lag columns, then of
    the future-covariate-lag columns, within a group in the order of the
    lags as given and within a lag in the order of the components; each
    row of the series' array holds the cells in that same order, one
    cell per label; and the call is a function of its inputs: any two
    outcomes on the same inputs are equal. *)
Theorem column_layout p targets pc fc X y Ts :
  Forall wf_series targets -> wf_covariates pc -> wf_covariates fc ->
  _create_lagged_data p targets pc fc = Ok (X, y, Ts) ->
  (exists Xs,
     nd_rows X = concat (map nd_rows Xs) /\
     length Xs = length targets /\
     forall i ts, nth_error targets i = Some ts ->
       exists Xi Ti df_X D,
         nth_error Xs i = Some Xi /\ nth_error Ts i = Some Ti /\
         lagged_frames p pc fc i ts = Ok (df_X, D) /\
         columns df_X
         = expected_columns p (pd_dataframe ts) (cov_at pc i) (cov_at fc i) /\
         nd_cols Xi = length (columns df_X) /\
         nd_cols X = nd_cols Xi /\
         nd_rows Xi
         = map (expected_row p (pd_dataframe ts) (cov_at pc i) (cov_at fc i)) Ti /\
         Forall (fun r => length r = nd_cols X) (nd_rows Xi)) /\
  (forall r1 r2,
     _create_lagged_data p targets pc fc = r1 ->
     _create_lagged_data p targets pc fc = r2 -> r1 = r2).
Proof.
  intros Hts Hpc Hfc H. split; [|intros r1 r2 <- <-; reflexivity].
  unfold _create_lagged_data in H.
  destruct (lagged_loop p pc fc (length targets) 0 targets)
    as [[[Xs ys] Ts']|e] eqn:EL; simpl in H; [|discriminate].
  destruct (np_concatenate_axis0 Xs) as [X'|e] eqn:EX; simpl in H; [|discriminate].
  destruct (np_concatenate_axis0 ys) as [y'|e] eqn:Ey; simpl in H; [|discriminate].
  injection H as <- <- <-.
  destruct (lagged_loop_inv _ _ _ _ _ _ _ _ _ EL) as (HX & Hy & HT & Hnth).
  exists Xs. split; [now apply np_concatenate_axis0_rows|]. split; [exact HX|].
  intros i ts Hi.
  destruct (Hnth i ts Hi) as (Xi & yi & Ti & H1 & H2 & H3 & H4). simpl in H4.
  assert (Hwf : wf_series ts).
  { rewrite Forall_forall in Hts. apply Hts. eapply nth_error_In; eauto. }
  destruct (lagged_samples_inv _ _ _ _ _ _ _ _ _ H4)
    as (df_X & D & HF & _).
  destruct (lagged_samples_rows _ _ _ _ _ _ _ _ _ Hwf Hpc Hfc H4)
    as (blocks & HB & WB & HXr & _ & HXc & _ & _).
  destruct (feature_blocks_layout _ _ _ _ _ _ HB) as [Hcols Hrows].
  pose proof (lagged_frames_columns _ _ _ _ _ _ _ _ HF HB) as HdX.
  assert (Hc : nd_cols X' = nd_cols Xi).
  { symmetry. apply (np_concatenate_axis0_cols _ _ _ EX).
    eapply nth_error_In; eauto. }
  exists Xi, Ti, df_X, D. repeat split; auto.
  - congruence.
  - congruence.
  - rewrite HXr. apply map_ext. exact Hrows.
  - rewrite HXr. apply Forall_map, Forall_forall. intros t _.
    rewrite Hc, HXc. now apply length_blocks_row.
Qed.

Lemma column_layout_witness :
  exists Xi,
    nd_rows Xi = map (expected_row e2e_params (pd_dataframe e2e_series) None None)
                     [1; 2; 3; 4] /\
    nd_cols Xi = 1%nat.
Proof.
  assert (Hwf : wf_series e2e_series).
  { split; [discriminate|]. split; [repeat constructor|].
    repeat constructor; simpl; intuition discriminate. }
  assert (He2e : _create_lagged_data e2e_params [e2e_series] None None
                 = Ok ({| nd_cols := 1;
                          nd_rows := [[Some 1]; [Some 2]; [Some 3]; [Some 4]] |},
                       {| nd_cols := 1;
                          nd_rows := [[Some 2]; [Some 3]; [Some 4]; [Some 5]] |},
                       [[1; 2; 3; 4]])) by (vm_compute; reflexivity).
  destruct (column_layout e2e_params [e2e_series] None None _ _ _
              (Forall_cons _ Hwf (Forall_nil _)) (Forall_nil _) (Forall_nil _) He2e)
    as ((Xs & _ & _ & Hper) & _).
  destruct (Hper 0%nat e2e_series eq_refl)
    as (Xi & Ti & df_X & D & _ & HT & _ & _ & _ & Hc & Hr & _).
  injection HT as <-. exists Xi. split; [exact Hr|]. simpl in Hc. congruence.
Defined.

(** *** Horizon blocks of a series without missing values *)

Lemma In_range (n k : Z) : In k (range n) <-> 0 <= k < n.
Proof.
  unfold range. rewrite in_map_iff. split.
  - intros [i [<- Hi]]. apply in_seq in Hi. lia.
  - intros H. exists (Z.to_nat k). split; [lia|]. apply in_seq. lia.
Qed.

Lemma forallb_flat_map {A B : Type} (f : B -> bool) (g : A -> list B) (l : list A) :
  forallb f (flat_map g l) = forallb (fun a => forallb f (g a)) l.
Proof.
  induction l as [|a l IH]; simpl; auto. now rewrite forallb_app, IH.
Qed.

(** A test that can only turn false as [k] grows holds on [range n]
    exactly when it holds at [n - 1]. *)
Lemma forallb_range_last (g : Z -> bool) (n : Z) :
  1 <= n ->
  (forall k, 0 <= k < n -> g (n - 1) = true -> g k = true) ->
  forallb g (range n) = g (n - 1).
Proof.
  intros Hn Hmono. destruct (g (n - 1)) eqn:E.
  - apply forallb_forall. intros k Hk. apply In_range in Hk. auto.
  - destruct (forallb g (range n)) eqn:F; auto.
    rewrite forallb_forall in F.
    assert (G : g (n - 1) = true) by (apply F, In_range; lia).
    congruence.
Qed.

(** In a frame without NaN a shifted row is present exactly when the
    shifted position is inside the frame. *)
Lemma present_shift (d : DataFrame) (t k : Z) :
  Forall (fun tr => forallb notna (snd tr) = true) (body d) ->
  (0 < width d)%nat -> 0 <= k ->
  forallb notna (row_or_nan (shift (- k) d) t)
  = match get_loc t (index d) with
    | Some pos => Z.of_nat pos + k <? Z.of_nat (length (values d))
    | None => false
    end.
Proof.
  intros Hfree Hw Hk. rewrite row_or_nan_shift.
  destruct (get_loc t (index d)) as [pos|];
    [|now apply nan_row_not_all_present].
  replace (Z.of_nat pos - - k) with (Z.of_nat pos + k) by lia.
  unfold iloc. destruct (Z.ltb_spec (Z.of_nat pos + k) 0) as [Hneg|_]; [lia|].
  destruct (Z.ltb_spec (Z.of_nat pos + k) (Z.of_nat (length (values d)))) as [Hin|Hout].
  - assert (Hlt : (Z.to_nat (Z.of_nat pos + k) < length (values d))%nat) by lia.
    pose proof (nth_In (values d) (nan_row (width d)) Hlt) as HI.
    unfold values in HI at 2. apply in_map_iff in HI.
    destruct HI as [tr [Htr Hin']]. rewrite <- Htr.
    rewrite Forall_forall in Hfree. now apply Hfree.
  - rewrite nth_overflow by lia. now apply nan_row_not_all_present.
Qed.

Lemma index_rename (f : string -> string) (d : DataFrame) :
  index (rename f d) = index d.
Proof. reflexivity. Qed.

Lemma union_indexes_same (i : list Z) (l : list (list Z)) :
  l <> [] -> Forall (fun j => j = i) l -> union_indexes l = i.
Proof.
  destruct l as [|j l]; [congruence|]. intros _ H.
  inversion H as [|j' l' -> Hl]; subst. simpl. now apply fold_index_union_same.
Qed.

Lemma range_nonempty (n : Z) : 1 <= n -> range n <> [].
Proof.
  intros Hn E. assert (H : In 0 (range n)) by (apply In_range; lia).
  now rewrite E in H.
Qed.

Lemma horizon_blocks_nonempty p d :
  (multi_models p = true -> 1 <= output_chunk_length p) ->
  horizon_blocks p d <> [].
Proof.
  unfold horizon_blocks. destruct (multi_models p); [|discriminate].
  intros H E. apply map_eq_nil in E. now apply range_nonempty in E; auto.
Qed.

Lemma horizon_blocks_index p d :
  Forall (fun j => j = index d) (map index (horizon_blocks p d)).
Proof.
  unfold horizon_blocks. destruct (multi_models p).
  - apply Forall_map, Forall_map, Forall_forall. intros k _.
    now rewrite index_rename, index_shift.
  - repeat constructor. now rewrite index_rename, index_shift.
Qed.

(** The index of [df_y] is the index of the target. *)
Lemma horizon_concat_index p d df_y :
  pd_concat_axis1 (horizon_blocks p d) = Ok df_y -> index df_y = index d.
Proof.
  intros H. rewrite (concat_index _ _ H). apply union_indexes_same.
  - destruct (horizon_blocks p d); [discriminate|]. discriminate.
  - apply horizon_blocks_index.
Qed.

(** For a target without missing values, all horizon steps are present
    at a label exactly when the last one is. *)
Lemma horizon_present_last p (d : DataFrame) (t : Z) :
  Forall (fun tr => forallb notna (snd tr) = true) (body d) ->
  (0 < width d)%nat -> 1 <= output_chunk_length p ->
  forallb notna (blocks_row (horizon_blocks (with_multi_models true p) d) t)
  = forallb notna (blocks_row (horizon_blocks (with_multi_models false p) d) t).
Proof.
  intros Hfree Hw Hocl. unfold horizon_blocks; simpl.
  rewrite (blocks_row_group horizon_label), forallb_flat_map.
  unfold blocks_row; simpl. rewrite app_nil_r, row_or_nan_rename.
  replace (- output_chunk_length p + 1) with (- (output_chunk_length p - 1)) by lia.
  rewrite forallb_range_last; auto.
  intros k Hk. rewrite !present_shift by (auto; lia).
  destruct (get_loc t (index d)); auto.
  intros H. apply Z.ltb_lt in H. apply Z.ltb_lt. lia.
Qed.

(** *** The retained labels of one series *)

Lemma filter_map_fst (f : row -> bool) (g : Z -> row) (l : list Z) :
  map fst (filter (fun tr => f (snd tr)) (map (fun t => (t, g t)) l))
  = filter (fun t => f (g t)) l.
Proof.
  induction l as [|t l IH]; simpl; auto.
  destruct (f (g t)); simpl; now rewrite IH.
Qed.

(** The labels left after dropping rows: those of the unfiltered frame
    at which the feature blocks are present and, in training mode, the
    horizon blocks too. *)
Lemma index_drop_missing p pc fc idx ts df_X df_X_y :
  wf_series ts -> wf_covariates pc -> wf_covariates fc ->
  lagged_concat p pc fc idx ts = Ok (df_X, df_X_y) ->
  exists blocks,
    feature_blocks p pc fc idx ts = Ok blocks /\
    index (drop_missing p df_X df_X_y)
    = filter (fun t =>
                forallb notna (blocks_row blocks t)
                && (negb (is_training p)
                    || forallb notna
                         (blocks_row (horizon_blocks p (pd_dataframe ts)) t)))
             (index df_X_y).
Proof.
  intros Hts Hpc Hfc H.
  destruct (lagged_concat_rows _ _ _ _ _ _ _ Hts Hpc Hfc H)
    as (blocks & df_y & HB & HX & Hy & WX & Wy & HC & HI & HBody).
  exists blocks. split; [exact HB|].
  unfold index at 1, drop_missing. destruct (is_training p) eqn:Etr; simpl.
  - rewrite HBody.
    rewrite (filter_map_fst (forallb notna)
               (fun t => row_or_nan df_X t ++ row_or_nan df_y t)).
    apply filter_ext. intros t. rewrite forallb_app. unfold blocks_row.
    now rewrite <- (row_or_nan_concat _ _ t HX), <- (row_or_nan_concat _ _ t Hy).
  - change (filter _ (body df_X_y))
      with (body (dropna_subset (columns df_X) df_X_y)).
    rewrite (drop_missing_inference p pc fc idx ts) by assumption.
    rewrite HBody.
    rewrite (filter_map_fst (fun r => forallb notna (firstn (width df_X) r))
               (fun t => row_or_nan df_X t ++ row_or_nan df_y t)).
    apply filter_ext. intros t.
    rewrite firstn_exact_app by now apply length_row_or_nan.
    unfold blocks_row. rewrite <- (row_or_nan_concat _ _ t HX).
    now rewrite andb_true_r.
Qed.

Lemma lagged_samples_by_index p pc fc n idx ts df_X D :
  lagged_frames p pc fc idx ts = Ok (df_X, D) ->
  (keep_most_recent p (index D) = [] ->
   lagged_samples p pc fc n idx ts
   = Raise (ValueError (empty_samples_message n idx))) /\
  (keep_most_recent p (index D) <> [] ->
   exists X y, lagged_samples p pc fc n idx ts
               = Ok (X, y, keep_most_recent p (index D))).
Proof.
  intros HF. rewrite (lagged_samples_outcome p pc fc n idx ts df_X D HF).
  unfold index, values. rewrite !keep_most_recent_map.
  destruct (keep_most_recent p (body D)); simpl; split; intros H;
    try congruence; eauto.
Qed.

(** *** Single-step and multi-step targets *)

Lemma ndarray_eq (a b : ndarray) :
  nd_cols a = nd_cols b -> nd_rows a = nd_rows b -> a = b.
Proof. destruct a, b; simpl. now intros -> ->. Qed.

Lemma pd_concat_nonempty dfs :
  dfs <> [] -> exists d, pd_concat_axis1 dfs = Ok d.
Proof. destruct dfs; [congruence|]. intros _. eexists. reflexivity. Qed.

Lemma length_flat_map_fixed {A B : Type} (f : A -> list B) (w : nat) (l : list A) :
  (forall a, length (f a) = w) ->
  length (flat_map f l) = (length l * w)%nat.
Proof.
  intros H. induction l as [|a l IH]; simpl; auto.
  now rewrite length_app, H, IH.
Qed.

Lemma horizon_columns_single p d :
  length (flat_map columns (horizon_blocks (with_multi_models false p) d))
  = width d.
Proof.
  unfold horizon_blocks; simpl. rewrite app_nil_r. apply length_map.
Qed.

Lemma horizon_columns_multi p d :
  length (flat_map columns (horizon_blocks (with_multi_models true p) d))
  = (Z.to_nat (output_chunk_length p) * width d)%nat.
Proof.
  unfold horizon_blocks; simpl. rewrite columns_group.
  rewrite (length_flat_map_fixed _ (width d)).
  - unfold range. now rewrite length_map, length_seq.
  - intros k. apply length_map.
Qed.

(** Before rows are dropped, both target modes build the same feature
    frame over the same labels. *)
Lemma lagged_concat_multi p pc fc idx ts :
  1 <= output_chunk_length p ->
  match lagged_concat (with_multi_models false p) pc fc idx ts,
        lagged_concat (with_multi_models true p) pc fc idx ts with
  | Ok (dX0, D0), Ok (dX1, D1) => dX0 = dX1 /\ index D0 = index D1
  | Raise e0, Raise e1 => e0 = e1
  | _, _ => False
  end.
Proof.
  intros Hocl. unfold lagged_concat.
  change (feature_blocks (with_multi_models true p) pc fc idx ts)
    with (feature_blocks (with_multi_models false p) pc fc idx ts).
  destruct (feature_blocks (with_multi_models false p) pc fc idx ts)
    as [blocks|e]; cbn [bind]; auto.
  destruct (pd_concat_axis1 blocks) as [dX|e]; cbn [bind]; auto.
  destruct (pd_concat_nonempty
              (horizon_blocks (with_multi_models false p) (pd_dataframe ts)))
    as [dy0 H0]; [apply horizon_blocks_nonempty; discriminate|].
  destruct (pd_concat_nonempty
              (horizon_blocks (with_multi_models true p) (pd_dataframe ts)))
    as [dy1 H1]; [apply horizon_blocks_nonempty; auto|].
  rewrite H0, H1. cbn [bind pd_concat_axis1]. split; auto.
  unfold index at 1 3; cbn [body]. rewrite !map_map; cbn [fst]. rewrite !map_id.
  cbn [map union_indexes fold_left].
  now rewrite (horizon_concat_index _ _ _ H0), (horizon_concat_index _ _ _ H1).
Qed.

Lemma lagged_samples_multi p pc fc n idx ts :
  wf_series ts -> wf_covariates pc -> wf_covariates fc ->
  1 <= output_chunk_length p ->
  is_training p = false \/ nan_free ts ->
  match lagged_samples (with_multi_models false p) pc fc n idx ts,
        lagged_samples (with_multi_models true p) pc fc n idx ts with
  | Ok (X0, y0, T0), Ok (X1, y1, T1) =>
      X0 = X1 /\ T0 = T1 /\
      nd_cols y0 = n_components ts /\
      nd_cols y1 = (Z.to_nat (output_chunk_length p) * n_components ts)%nat
  | Raise e0, Raise e1 => e0 = e1
  | _, _ => False
  end.
Proof.
  intros Hts Hpc Hfc Hocl Hfree.
  set (p0 := with_multi_models false p). set (p1 := with_multi_models true p).
  pose proof (lagged_concat_multi p pc fc idx ts Hocl) as HC. fold p0 p1 in HC.
  destruct (lagged_concat p0 pc fc idx ts) as [[dX0 D0]|e0] eqn:E0;
    destruct (lagged_concat p1 pc fc idx ts) as [[dX1 D1]|e1] eqn:E1;
    try contradiction.
  2:{ subst e1. unfold lagged_samples. rewrite !lagged_frames_concat, E0, E1.
      reflexivity. }
  destruct HC as [<- HI].
  assert (F0 : lagged_frames p0 pc fc idx ts = Ok (dX0, drop_missing p0 dX0 D0))
    by (rewrite lagged_frames_concat, E0; reflexivity).
  assert (F1 : lagged_frames p1 pc fc idx ts = Ok (dX0, drop_missing p1 dX0 D1))
    by (rewrite lagged_frames_concat, E1; reflexivity).
  destruct (index_drop_missing _ _ _ _ _ _ _ Hts Hpc Hfc E0) as (b0 & B0 & I0).
  destruct (index_drop_missing _ _ _ _ _ _ _ Hts Hpc Hfc E1) as (b1 & B1 & I1).
  change (feature_blocks p1 pc fc idx ts) with (feature_blocks p0 pc fc idx ts) in B1.
  rewrite B0 in B1. injection B1 as <-.
  assert (HI' : index (drop_missing p1 dX0 D1) = index (drop_missing p0 dX0 D0)).
  { rewrite I0, I1, HI. apply filter_ext. intros t. f_equal.
    change (is_training p1) with (is_training p).
    change (is_training p0) with (is_training p).
    destruct Hfree as [-> | Hnf]; [reflexivity|]. f_equal.
    apply horizon_present_last; auto.
    destruct Hts as [Hc _]. unfold width; simpl.
    destruct (components ts); [congruence|simpl; lia]. }
  destruct (lagged_samples_by_index p0 pc fc n idx ts _ _ F0) as [R0 K0].
  destruct (lagged_samples_by_index p1 pc fc n idx ts _ _ F1) as [R1 K1].
  rewrite HI' in R1, K1.
  change (keep_most_recent p1 (index (drop_missing p0 dX0 D0)))
    with (keep_most_recent p0 (index (drop_missing p0 dX0 D0))) in R1, K1.
  destruct (keep_most_recent p0 (index (drop_missing p0 dX0 D0))) as [|t0 T] eqn:EK.
  - rewrite R0, R1 by reflexivity. reflexivity.
  - destruct K0 as (X0 & y0 & S0); [discriminate|].
    destruct K1 as (X1 & y1 & S1); [discriminate|].
    rewrite S0, S1.
    destruct (lagged_samples_rows _ _ _ _ _ _ _ _ _ Hts Hpc Hfc S0)
      as (c0 & C0 & _ & Xr0 & _ & Xc0 & yc0 & _).
    destruct (lagged_samples_rows _ _ _ _ _ _ _ _ _ Hts Hpc Hfc S1)
      as (c1 & C1 & _ & Xr1 & _ & Xc1 & yc1 & _).
    change (feature_blocks p1 pc fc idx ts) with (feature_blocks p0 pc fc idx ts) in C1.
    rewrite C0 in C1. injection C1 as <-.
    repeat split.
    + apply ndarray_eq; congruence.
    + rewrite yc0. apply horizon_columns_single.
    + rewrite yc1. apply horizon_columns_multi.
Qed.

Lemma with_multi_models_false p :
  multi_models p = false -> with_multi_models false p = p.
Proof. destruct p; simpl. now intros ->. Qed.

Lemma lagged_loop_multi p pc fc n : forall targets idx,
  Forall wf_series targets -> wf_covariates pc -> wf_covariates fc ->
  1 <= output_chunk_length p ->
  is_training p = false \/ Forall nan_free targets ->
  match lagged_loop (with_multi_models false p) pc fc n idx targets,
        lagged_loop (with_multi_models true p) pc fc n idx targets with
  | Ok (Xs0, ys0, Ts0), Ok (Xs1, ys1, Ts1) =>
      Xs0 = Xs1 /\ Ts0 = Ts1 /\
      map nd_cols ys1
      = map (fun y => (Z.to_nat (output_chunk_length p) * nd_cols y)%nat) ys0
  | Raise e0, Raise e1 => e0 = e1
  | _, _ => False
  end.
Proof.
  induction targets as [|ts targets IH]; intros idx Hts Hpc Hfc Hocl Hfree;
    simpl; auto.
  assert (Hfree1 : is_training p = false \/ nan_free ts).
  { destruct Hfree as [H|H]; [now left|right]. now inversion H. }
  assert (Hfree2 : is_training p = false \/ Forall nan_free targets).
  { destruct Hfree as [H|H]; [now left|right]. now inversion H. }
  inversion Hts as [|? ? Hts1 Hts2]; subst.
  pose proof (lagged_samples_multi p pc fc n idx ts Hts1 Hpc Hfc Hocl Hfree1) as HS.
  destruct (lagged_samples (with_multi_models false p) pc fc n idx ts)
    as [[[X0 y0] T0]|e0];
    destruct (lagged_samples (with_multi_models true p) pc fc n idx ts)
      as [[[X1 y1] T1]|e1]; try contradiction; cbn [bind]; auto.
  destruct HS as (<- & <- & Hy0 & Hy1).
  specialize (IH (S idx) Hts2 Hpc Hfc Hocl Hfree2).
  destruct (lagged_loop (with_multi_models false p) pc fc n (S idx) targets)
    as [[[Xs0 ys0] Ts0]|e0];
    destruct (lagged_loop (with_multi_models true p) pc fc n (S idx) targets)
      as [[[Xs1 ys1] Ts1]|e1]; try contradiction; cbn [bind]; auto.
  destruct IH as (<- & <- & Hys). repeat split. simpl. now rewrite Hy0, Hy1, Hys.
Qed.

(** Whether [np.concatenate(arrays, axis=0)] succeeds depends on the
    column counts only. *)
Lemma np_concatenate_axis0_scaled (k : nat) (l0 l1 : list ndarray) :
  (0 < k)%nat ->
  map nd_cols l1 = map (fun y => (k * nd_cols y)%nat) l0 ->
  match np_concatenate_axis0 l0, np_concatenate_axis0 l1 with
  | Ok _, Ok _ => True
  | Raise e0, Raise e1 => e0 = e1
  | _, _ => False
  end.
Proof.
  intros Hk. destruct l0 as [|a0 r0]; destruct l1 as [|a1 r1]; simpl;
    try discriminate; auto.
  intros [= Ha Hr].
  assert (E : forallb (fun b => Nat.eqb (nd_cols b) (nd_cols a1)) r1
              = forallb (fun b => Nat.eqb (nd_cols b) (nd_cols a0)) r0).
  { rewrite Ha. clear Ha. revert r1 Hr.
    induction r0 as [|b0 r0 IH]; intros [|b1 r1]; simpl; try discriminate; auto.
    intros [= Hb Hr]. rewrite Hb, (IH r1 Hr). f_equal.
    destruct (Nat.eqb_spec (nd_cols b0) (nd_cols a0)) as [->|Hne].
    - apply Nat.eqb_refl.
    - apply Nat.eqb_neq. intros H. apply Nat.mul_cancel_l in H; [auto|lia]. }
  rewrite E. destruct (forallb _ r0); auto.
Qed.

(** C7 (as stated) fails: the series 1, 2, NaN, 4, 5 with lags [-2] and
    a horizon of two steps, in training mode, keeps the rows at the time
    stamps 2 and 3 with single-step targets, but only the row at 3 with
    multi-step targets: the row at 2 has its first horizon step
    missing. *)
Lemma single_step_counterexample :
  retained (_create_lagged_data gap_params [gap_series] None None)
  = Ok ({| nd_cols := 1; nd_rows := [[Some 1]; [Some 2]] |}, [[2; 3]])
  /\ retained (_create_lagged_data (with_multi_models true gap_params)
                 [gap_series] None None)
      = Ok ({| nd_cols := 1; nd_rows := [[Some 2]] |}, [[3]])
  /\ retained (_create_lagged_data gap_params [gap_series] None None)
      <> retained (_create_lagged_data (with_multi_models true gap_params)
                     [gap_series] None None).
Proof.
  split; [vm_compute; reflexivity|]. split; [vm_compute; reflexivity|].
  vm_compute. discriminate.
Qed.

(** C7 (amended) -- Single-step target mode.  With [multi_models]
    disabled, [y] holds for each series exactly one block of
    target-component columns: the rows of the target shifted backward by
    [output_chunk_length - 1] steps, at the retained time stamps.  When
    the horizon is at least one step and either the call is not in
    training mode or no target series has a missing value, the feature
    matrix, the retained time indexes and the exception, if any, are
    those of multi-step mode on the same inputs. *)
Theorem single_step_targets p targets pc fc :
  Forall wf_series targets -> wf_covariates pc -> wf_covariates fc ->
  multi_models p = false ->
  (forall X y Ts,
     _create_lagged_data p targets pc fc = Ok (X, y, Ts) ->
     exists ys,
       nd_rows y = concat (map nd_rows ys) /\
       forall i ts, nth_error targets i = Some ts ->
         exists yi Ti,
           nth_error ys i = Some yi /\ nth_error Ts i = Some Ti /\
           nd_cols yi = n_components ts /\
           nd_rows yi
           = map (row_or_nan (shift (- (output_chunk_length p - 1))
                                    (pd_dataframe ts))) Ti) /\
  (1 <= output_chunk_length p ->
   is_training p = false \/ Forall nan_free targets ->
   retained (_create_lagged_data p targets pc fc)
   = retained (_create_lagged_data (with_multi_models true p) targets pc fc)).
Proof.
  intros Hts Hpc Hfc Hsingle. split.
  - intros X y Ts H. unfold _create_lagged_data in H.
    destruct (lagged_loop p pc fc (length targets) 0 targets)
      as [[[Xs ys] Ts']|e] eqn:EL; cbn [bind] in H; [|discriminate].
    destruct (np_concatenate_axis0 Xs) as [X'|e] eqn:EX; cbn [bind] in H;
      [|discriminate].
    destruct (np_concatenate_axis0 ys) as [y'|e] eqn:Ey; cbn [bind] in H;
      [|discriminate].
    injection H as <- <- <-.
    destruct (lagged_loop_inv _ _ _ _ _ _ _ _ _ EL) as (_ & _ & _ & Hnth).
    exists ys. split; [now apply np_concatenate_axis0_rows|].
    intros i ts Hi.
    destruct (Hnth i ts Hi) as (Xi & yi & Ti & H1 & H2 & H3 & H4). simpl in H4.
    assert (Hwf : wf_series ts).
    { rewrite Forall_forall in Hts. apply Hts. eapply nth_error_In; eauto. }
    destruct (lagged_samples_rows _ _ _ _ _ _ _ _ _ Hwf Hpc Hfc H4)
      as (blocks & _ & _ & _ & Hyr & _ & Hyc & _).
    exists yi, Ti. repeat split; auto.
    + rewrite Hyc. unfold horizon_blocks. rewrite Hsingle. simpl.
      rewrite app_nil_r. apply length_map.
    + rewrite Hyr. apply map_ext. intros t.
      unfold blocks_row, horizon_blocks. rewrite Hsingle. simpl.
      rewrite app_nil_r, row_or_nan_rename. do 2 f_equal. lia.
  - intros Hocl Hfree.
    rewrite <- (with_multi_models_false p Hsingle) at 1.
    unfold _create_lagged_data.
    pose proof (lagged_loop_multi p pc fc (length targets) targets 0%nat
                  Hts Hpc Hfc Hocl Hfree) as HL.
    destruct (lagged_loop (with_multi_models false p) pc fc (length targets) 0 targets)
      as [[[Xs0 ys0] Ts0]|e0];
      destruct (lagged_loop (with_multi_models true p) pc fc (length targets) 0 targets)
        as [[[Xs1 ys1] Ts1]|e1]; try contradiction; cbn [bind].
    2:{ now subst. }
    destruct HL as (<- & <- & Hys).
    destruct (np_concatenate_axis0 Xs0) as [X|e]; cbn [bind]; auto.
    pose proof (np_concatenate_axis0_scaled
                  (Z.to_nat (output_chunk_length p)) ys0 ys1 ltac:(lia) Hys) as HY.
    destruct (np_concatenate_axis0 ys0) as [y0|e0];
      destruct (np_concatenate_axis0 ys1) as [y1|e1]; try contradiction;
      cbn [bind retained]; auto.
    now subst.
Qed.

Lemma single_step_targets_witness :
  retained (_create_lagged_data (with_multi_models false e2e_params)
              [e2e_series] None None)
  = retained (_create_lagged_data e2e_params [e2e_series] None None).
Proof.
  assert (Hwf : wf_series e2e_series).
  { split; [discriminate|]. split; [repeat constructor|].
    repeat constructor; simpl; intuition discriminate. }
  destruct (single_step_targets (with_multi_models false e2e_params)
              [e2e_series] None None
              (Forall_cons _ Hwf (Forall_nil _)) (Forall_nil _) (Forall_nil _)
              eq_refl) as [_ H].
  apply H.
  - simpl. lia.
  - right. repeat constructor.
Defined.

(** *** The static covariate appender *)

Lemma collect_static_inv b ocl pc fc ms mpl : forall targets idx m m',
  collect_static b ocl pc fc ms mpl idx targets m = Ok m' ->
  df m' = df m ++ map frame_of targets /\
  names m' = names m ++ flat_map static_names targets /\
  covs_exist m' = covs_exist m || existsb has_static targets /\
  exists rs,
    reps m' = reps m ++ rs /\ length rs = length targets /\
    forall i ts, nth_error targets i = Some ts ->
      exists len,
        len_shortest_features b ocl pc fc mpl (idx + i) ts = Ok len /\
        nth_error rs i = Some (match ms with Some k => k | None => len end).
Proof.
  induction targets as [|ts targets IH]; intros idx m m'; simpl.
  - intros [= <-]. rewrite !app_nil_r, orb_false_r.
    repeat split; auto. exists []. rewrite app_nil_r. repeat split; auto.
    intros [|i] ts; discriminate.
  - destruct (len_shortest_features b ocl pc fc mpl idx ts) as [len|e] eqn:EL;
      cbn [bind]; [|discriminate].
    intros H. apply IH in H. clear IH.
    destruct H as (Hdf & Hnames & Hex & rs & Hreps & Hlen & Hnth).
    assert (Hstep : forall i ts', nth_error (ts :: targets) i = Some ts' ->
              exists len',
                len_shortest_features b ocl pc fc mpl (idx + i) ts' = Ok len' /\
                nth_error (match ms with Some k => k | None => len end :: rs) i
                = Some (match ms with Some k => k | None => len' end)).
    { intros [|i] ts'; simpl.
      - intros [= <-]. exists len. now rewrite Nat.add_0_r.
      - intros Hi. destruct (Hnth i ts' Hi) as [len' [H1 H2]].
        exists len'. now rewrite Nat.add_succ_r. }
    unfold frame_of, static_names, has_static.
    destruct (static_covariates ts) as [sc|]; simpl in *;
      rewrite <- ?app_assoc in *; simpl in *.
    + split; [exact Hdf|]. split; [exact Hnames|].
      split; [rewrite Hex; now rewrite ?orb_true_r|].
      exists (match ms with Some k => k | None => len end :: rs).
      split; [exact Hreps|]. split; [simpl; now rewrite Hlen|exact Hstep].
    + split; [exact Hdf|]. split; [exact Hnames|].
      split; [rewrite Hex; now rewrite ?orb_true_r|].
      exists (match ms with Some k => k | None => len end :: rs).
      split; [exact Hreps|]. split; [simpl; now rewrite Hlen|exact Hstep].
Qed.

Lemma nth_error_combine {A B : Type} : forall (l1 : list A) (l2 : list B) i a b,
  nth_error l1 i = Some a -> nth_error l2 i = Some b ->
  nth_error (combine l1 l2) i = Some (a, b).
Proof.
  induction l1 as [|x l1 IH]; intros [|y l2] [|i] a b; simpl; try discriminate.
  - now intros [= ->] [= ->].
  - apply IH.
Qed.

Lemma static_inputs_inv targets b ocl pc fc ms n_comps m :
  static_inputs targets b ocl pc fc ms = Ok (n_comps, m) ->
  (exists ts0 rest, targets = ts0 :: rest /\ n_comps = n_components ts0) /\
  df m = map frame_of targets /\
  names m = flat_map static_names targets /\
  covs_exist m = existsb has_static targets /\
  exists mpl,
    max_past_lag b = Ok mpl /\
    length (reps m) = length targets /\
    forall i ts, nth_error targets i = Some ts ->
      exists len,
        len_shortest_features b ocl pc fc mpl i ts = Ok len /\
        nth_error (reps m) i = Some (match ms with Some k => k | None => len end).
Proof.
  unfold static_inputs. destruct targets as [|ts0 rest]; cbn [bind]; [discriminate|].
  destruct (max_past_lag b) as [mpl|]; cbn [bind]; [|discriminate].
  destruct (collect_static b ocl pc fc ms mpl 0 (ts0 :: rest) _) as [m'|] eqn:E;
    cbn [bind]; [|discriminate].
  intros [= <- <-].
  apply collect_static_inv in E.
  destruct E as (Hdf & Hnames & Hex & rs & Hreps & Hlen & Hnth). simpl in *.
  split; [eauto|]. repeat split; auto.
  exists mpl. subst rs. repeat split; auto.
Qed.

Lemma static_blocks_inv col_names n_comps : forall entries blocks,
  static_blocks col_names n_comps entries = Ok blocks ->
  length blocks = length entries /\
  forall i f r, nth_error entries i = Some (f, r) ->
    exists blk, nth_error blocks i = Some blk /\
                static_block col_names n_comps f r = Ok blk.
Proof.
  induction entries as [|[f0 r0] entries IH]; intros blocks; simpl.
  - intros [= <-]. split; auto. intros [|i] f r; discriminate.
  - destruct (static_block col_names n_comps f0 r0) as [blk0|] eqn:E0;
      cbn [bind]; [|discriminate].
    destruct (static_blocks col_names n_comps entries) as [blks|] eqn:E1;
      cbn [bind]; [|discriminate].
    intros [= <-]. destruct (IH blks eq_refl) as [Hlen Hnth].
    split; [simpl; now rewrite Hlen|].
    intros [|i] f r; simpl.
    + intros [= <- <-]. eauto.
    + apply Hnth.
Qed.

Lemma np_concatenate_axis1_inv a b out :
  np_concatenate_axis1 a b = Ok out ->
  nd_rows out = zip_rows (nd_rows a) (nd_rows b) /\
  nd_cols out = (nd_cols a + nd_cols b)%nat /\
  length (nd_rows a) = length (nd_rows b).
Proof.
  unfold np_concatenate_axis1.
  destruct (Nat.eqb_spec (length (nd_rows a)) (length (nd_rows b))); [|discriminate].
  intros [= <-]. auto.
Qed.

Lemma concat_repeat_single {A : Type} (x : A) (k : nat) :
  concat (repeat [x] k) = repeat x k.
Proof. induction k; simpl; auto. now rewrite IHk. Qed.

(** A table that is empty is replaced by rows of zeros. *)
Lemma static_block_empty col_names n_comps f r blk :
  frame_empty f = true ->
  static_block col_names n_comps f r = Ok blk ->
  0 <= r /\
  nd_cols blk = (length col_names * n_comps)%nat /\
  nd_rows blk
  = repeat (repeat (Some 0) (length col_names * n_comps)) (Z.to_nat r).
Proof.
  unfold static_block. intros ->. simpl. unfold np_tile_rows.
  destruct (Z.ltb_spec r 0); [discriminate|]. intros [= <-]. simpl.
  repeat split; auto. apply concat_repeat_single.
Qed.

(** What the appender does when some series has static covariates. *)
Lemma add_static_covariates_inv set_order n_in features targets b ocl pc fc ms out :
  _add_static_covariates set_order n_in features targets b ocl pc fc ms = Ok out ->
  existsb has_static targets = true ->
  exists n_comps m blocks static_covs,
    static_inputs targets b ocl pc fc ms = Ok (n_comps, m) /\
    static_blocks (set_order (flat_map static_names targets)) n_comps
      (combine (map frame_of targets) (reps m)) = Ok blocks /\
    np_concatenate_axis0 blocks = Ok static_covs /\
    np_concatenate_axis1 features static_covs = Ok out.
Proof.
  unfold _add_static_covariates. intros H Hex.
  destruct (static_inputs targets b ocl pc fc ms) as [[n_comps m]|] eqn:E;
    cbn [bind] in H; [|discriminate].
  destruct (static_inputs_inv _ _ _ _ _ _ _ _ E) as (_ & Hdf & Hnames & Hcov & _).
  rewrite Hcov, Hex in H. simpl in H. unfold append_static in H.
  rewrite Hdf, Hnames in H.
  destruct (static_blocks _ n_comps _) as [blocks|] eqn:EB; cbn [bind] in H;
    [|discriminate].
  destruct (np_concatenate_axis0 blocks) as [sc|] eqn:EC; cbn [bind] in H;
    [|discriminate].
  exists n_comps, m, blocks, sc. auto.
Qed.

Lemma enumerates_union set_order targets :
  enumerates set_order ->
  NoDup (set_order (flat_map static_names targets)) /\
  forall a, In a (set_order (flat_map static_names targets)) <->
            exists ts sc, In ts targets /\ static_covariates ts = Some sc /\
                          In a (sc_columns sc).
Proof.
  intros H. destruct (H (flat_map static_names targets)) as [Hnd Hin].
  split; auto. intros a. rewrite Hin, in_flat_map. unfold static_names. split.
  - intros [ts [Hts Ha]]. destruct (static_covariates ts) as [sc|] eqn:E;
      [|destruct Ha]. eauto.
  - intros [ts [sc [Hts [E Ha]]]]. exists ts. rewrite E. auto.
Qed.

Lemma enumerates_singleton set_order (a : string) :
  enumerates set_order -> set_order [a] = [a].
Proof.
  intros H. destruct (H [a]) as [Hnd Hin].
  destruct (set_order [a]) as [|x [|y l]].
  - exfalso. apply (Hin a). now left.
  - f_equal. destruct (proj1 (Hin x)) as [E|[]]; [now left|auto].
  - exfalso.
    assert (Ex : x = a).
    { destruct (proj1 (Hin x)) as [E|[]]; [now left|auto]. }
    assert (Ey : y = a).
    { destruct (proj1 (Hin y)) as [E|[]]; [right; now left|auto]. }
    subst. inversion Hnd as [|? ? Hn _]. apply Hn. now left.
Qed.

Lemma frame_of_none ts :
  static_covariates ts = None -> frame_of ts = empty_frame.
Proof. unfold frame_of. now intros ->. Qed.

(** C9 -- Zero rows for series without static covariates.  When at
    least one series carries static covariates and the appender returns,
    the appended block of every series without static covariates is made
    of rows of zeros whose width is the number of names in the union of
    the attribute names times the component count (of the first series).
    For two single-component series of which only the first has a static
    attribute [A] (P6), the matrix gains exactly one column and the part
    of that column that belongs to the second series is zero. *)
Theorem zero_rows_without_static set_order :
  enumerates set_order ->
  (forall n_in features targets b ocl pc fc ms out,
     _add_static_covariates set_order n_in features targets b ocl pc fc ms = Ok out ->
     existsb has_static targets = true ->
     let col_names := set_order (flat_map static_names targets) in
     (NoDup col_names /\
      forall a, In a col_names <->
                exists ts sc, In ts targets /\ static_covariates ts = Some sc /\
                              In a (sc_columns sc)) /\
     exists n_comps blocks,
       (exists ts0 rest, targets = ts0 :: rest /\ n_comps = n_components ts0) /\
       length blocks = length targets /\
       nd_rows out = zip_rows (nd_rows features) (concat (map nd_rows blocks)) /\
       forall i ts, nth_error targets i = Some ts -> static_covariates ts = None ->
         exists blk r,
           nth_error blocks i = Some blk /\ 0 <= r /\
           nd_cols blk = (length col_names * n_comps)%nat /\
           nd_rows blk
           = repeat (repeat (Some 0) (length col_names * n_comps)) (Z.to_nat r)) /\
  (X <- (Xy <- _create_lagged_data e2e_params [p6_first; p6_second] None None ;;
         Ok (fst (fst Xy))) ;;
   _add_static_covariates set_order None X [p6_first; p6_second]
     e2e_bounds 1 None None None)
  = Ok {| nd_cols := 2;
          nd_rows := [[Some 1; Some 7]; [Some 2; Some 7];
                      [Some 4; Some 0]; [Some 5; Some 0]] |}.
Proof.
  intros Henum. split.
  - intros n_in features targets b ocl pc fc ms out H Hex col_names.
    split; [now apply enumerates_union|].
    destruct (add_static_covariates_inv _ _ _ _ _ _ _ _ _ _ H Hex)
      as (n_comps & m & blocks & sc & HI & HB & HC & HO).
    destruct (static_inputs_inv _ _ _ _ _ _ _ _ HI)
      as (Hfirst & _ & _ & _ & mpl & _ & Hlen & Hreps).
    destruct (static_blocks_inv _ _ _ _ HB) as [HBlen HBnth].
    destruct (np_concatenate_axis1_inv _ _ _ HO) as (Hrows & _ & _).
    exists n_comps, blocks. split; [exact Hfirst|]. split.
    { rewrite HBlen, length_combine, length_map, Hlen. apply Nat.min_id. }
    split.
    { rewrite Hrows. now rewrite (np_concatenate_axis0_rows _ _ HC). }
    intros i ts Hi Hnone.
    destruct (Hreps i ts Hi) as (len & _ & Hr).
    destruct (HBnth i (frame_of ts) _
                (nth_error_combine _ _ _ _ _ (map_nth_error frame_of _ _ Hi) Hr))
      as (blk & Hblk & Hsb).
    rewrite (frame_of_none ts Hnone) in Hsb.
    destruct (static_block_empty _ _ empty_frame _ _ eq_refl Hsb)
      as (Hr0 & Hc & Hrw).
    exists blk, (match ms with Some k => k | None => len end). auto.
  - assert (HX : _create_lagged_data e2e_params [p6_first; p6_second] None None
                 = Ok ({| nd_cols := 1;
                          nd_rows := [[Some 1]; [Some 2]; [Some 4]; [Some 5]] |},
                       {| nd_cols := 1;
                          nd_rows := [[Some 2]; [Some 3]; [Some 5]; [Some 6]] |},
                       [[1; 2]; [1; 2]])) by (vm_compute; reflexivity).
    rewrite HX. cbn [bind fst]. unfold _add_static_covariates.
    assert (HI : static_inputs [p6_first; p6_second] e2e_bounds 1 None None None
                 = Ok (1%nat,
                       {| covs_exist := true;
                          df := [{| sc_columns := ["A"]; sc_values := [[Some 7]] |};
                                 empty_frame];
                          reps := [2; 2];
                          names := ["A"] |})) by (vm_compute; reflexivity).
    rewrite HI. cbn [bind covs_exist names negb].
    rewrite (enumerates_singleton set_order "A" Henum).
    vm_compute. reflexivity.
Qed.

Lemma nodup_enumerates : enumerates (nodup string_dec).
Proof.
  intros l. split; [apply NoDup_nodup|]. intros x. apply nodup_In.
Qed.

Lemma zero_rows_without_static_witness :
  (X <- (Xy <- _create_lagged_data e2e_params [p6_first; p6_second] None None ;;
         Ok (fst (fst Xy))) ;;
   _add_static_covariates (nodup string_dec) None X [p6_first; p6_second]
     e2e_bounds 1 None None None)
  = Ok {| nd_cols := 2;
          nd_rows := [[Some 1; Some 7]; [Some 2; Some 7];
                      [Some 4; Some 0]; [Some 5; Some 0]] |}.
Proof.
  exact (proj2 (zero_rows_without_static (nodup string_dec) nodup_enumerates)).
Defined.

(** *** Flattening a static covariate table *)

Lemma nth_error_flat_map_fixed {A B : Type} (f : A -> list B) (R : nat) :
  forall (l : list A) (a c : nat) (x : A),
    (forall y, In y l -> length (f y) = R) ->
    nth_error l a = Some x -> (c < R)%nat ->
    nth_error (flat_map f l) (a * R + c) = nth_error (f x) c.
Proof.
  induction l as [|y l IH]; intros [|a] c x Hlen Hx Hc; simpl in *;
    try discriminate.
  - injection Hx as ->. apply nth_error_app1. rewrite Hlen; auto.
  - rewrite nth_error_app2 by (rewrite Hlen; auto; lia).
    rewrite Hlen by auto.
    replace (R + a * R + c - R)%nat with (a * R + c)%nat by lia.
    apply IH; auto.
Qed.

Lemma nth_error_seq_0 (n a : nat) :
  (a < n)%nat -> nth_error (seq 0 n) a = Some a.
Proof.
  intros H. rewrite nth_error_nth' with (d := 0%nat) by now rewrite length_seq.
  now rewrite seq_nth.
Qed.

Lemma find_col_None name cols : find_col name cols = None <-> ~ In name cols.
Proof.
  induction cols as [|c cols IH]; simpl; [tauto|].
  destruct (String.eqb_spec c name) as [->|Hne].
  - split; [discriminate|]. intros H. exfalso. apply H. now left.
  - destruct (find_col name cols); simpl.
    + split; [discriminate|]. intros H. exfalso.
      assert (Hn : ~ In name cols) by tauto. now apply IH in Hn.
    + split; auto. intros _ [H|H]; [congruence|]. now apply IH in H.
Qed.

Lemma find_col_NoDup name : forall cols j,
  NoDup cols -> nth_error cols j = Some name -> find_col name cols = Some j.
Proof.
  induction cols as [|c cols IH]; intros [|j] Hnd Hj; simpl in *; try discriminate.
  - injection Hj as ->. now rewrite String.eqb_refl.
  - inversion Hnd as [|? ? Hnotin Hnd']; subst.
    destruct (String.eqb_spec c name) as [->|_].
    + exfalso. apply Hnotin. eapply nth_error_In; eauto.
    + now rewrite (IH j Hnd' Hj).
Qed.

(** The flattened row of a table: position [a * R + c] holds the cell of
    component [c] for the [a]-th name, where [R] is the number of
    component rows. *)
Lemma reshape_reindexed_nth col_names f a c name component_row :
  nth_error col_names a = Some name ->
  nth_error (sc_values f) c = Some component_row ->
  nth_error (flat_map (fun j => map (fun r => nth j r None)
                                    (sc_values (reindex_columns col_names f)))
                      (seq 0 (length col_names)))
            (a * length (sc_values f) + c)
  = Some (static_cell f component_row name).
Proof.
  intros Ha Hc.
  assert (Halt : (a < length col_names)%nat) by (apply nth_error_Some; congruence).
  assert (Hclt : (c < length (sc_values f))%nat) by (apply nth_error_Some; congruence).
  rewrite (nth_error_flat_map_fixed _ (length (sc_values f)) _ a c a).
  - rewrite nth_error_map. unfold reindex_columns; cbn [sc_values].
    rewrite nth_error_map. unfold row, cell in Hc. rewrite Hc. simpl. f_equal.
    rewrite (nth_error_nth _ _ _ (map_nth_error _ _ _ Ha)). reflexivity.
  - intros j _. unfold reindex_columns; simpl. now rewrite !length_map.
  - now apply nth_error_seq_0.
  - exact Hclt.
Qed.

(** The block of a series whose table is not empty. *)
Lemma static_block_table col_names n_comps f r blk :
  frame_empty f = false ->
  static_block col_names n_comps f r = Ok blk ->
  0 <= r /\
  exists flat,
    nd_rows blk = repeat flat (Z.to_nat r) /\
    nd_cols blk = length flat /\
    length flat = (length col_names * length (sc_values f))%nat /\
    forall a c name component_row,
      nth_error col_names a = Some name ->
      nth_error (sc_values f) c = Some component_row ->
      nth_error flat (a * length (sc_values f) + c)
      = Some (static_cell f component_row name).
Proof.
  unfold static_block. intros ->. cbn [negb]. unfold np_tile_rows.
  destruct (Z.ltb_spec r 0); [discriminate|]. intros [= <-].
  split; auto.
  set (flat := flat_map (fun j => map (fun r0 => nth j r0 None)
                                      (sc_values (reindex_columns col_names f)))
                        (seq 0 (length col_names))).
  assert (Hlen : length flat = (length col_names * length (sc_values f))%nat).
  { subst flat. rewrite (length_flat_map_fixed _ (length (sc_values f))).
    - now rewrite length_seq.
    - intros j. unfold reindex_columns; cbn [sc_values]. now rewrite !length_map. }
  exists flat. split; [apply concat_repeat_single|].
  split; [|split; [exact Hlen|]].
  - etransitivity; [|symmetry; exact Hlen].
    unfold reshape_row_F, reindex_columns.
    cbn [nd_cols sc_values sc_columns]. rewrite length_map.
    apply Nat.mul_comm.
  - intros a c name component_row Ha Hc.
    apply (reshape_reindexed_nth col_names f a c name component_row Ha Hc).
Qed.

(** C8 (as stated) fails on its last part: for a table of two
    components and two attributes with the rows [1, 2] and [3, 4], the
    code flattens to 1, 3, 2, 4 (all components of attribute A, then all
    components of B); with the values varying fastest by attribute the
    row would be 1, 2, 3, 4.  The same holds with the names enumerated
    in the other order. *)
Lemma static_flattening_counterexample :
  static_block ["A"; "B"] 2 two_by_two 1
  = Ok {| nd_cols := 4; nd_rows := [[Some 1; Some 3; Some 2; Some 4]] |}
  /\ flatten_attribute_fastest ["A"; "B"] two_by_two
      = [Some 1; Some 2; Some 3; Some 4]
  /\ static_block ["A"; "B"] 2 two_by_two 1
      <> Ok {| nd_cols := 4;
               nd_rows := [flatten_attribute_fastest ["A"; "B"] two_by_two] |}
  /\ static_block ["B"; "A"] 2 two_by_two 1
      <> Ok {| nd_cols := 4;
               nd_rows := [flatten_attribute_fastest ["B"; "A"] two_by_two] |}
  /\ _add_static_covariates (nodup string_dec) None one_row_features
        [two_component_series] e2e_bounds 1 None None (Some 1)
      = Ok {| nd_cols := 5;
              nd_rows := [[Some 9; Some 1; Some 3; Some 2; Some 4]] |}.
Proof.
  repeat split; try (vm_compute; reflexivity); vm_compute; discriminate.
Qed.

(** C8 (amended) -- Static covariate flattening.  When at least one
    series carries static covariates and the appender returns, the
    column names are an enumeration without repetition of the union of
    the attribute names of all series; the output is the feature matrix
    with one block per series appended, in input order; and the block of
    every series with a table is one row repeated once per row of the
    series, none being left out.  For a table that is not empty the row
    is the flattened table, attribute-major and component-minor: with
    [R] component rows, position [a * R + c] holds the cell of component
    [c] for the [a]-th name, so within one attribute the component
    varies fastest; the cell is zero when the table of the series lacks
    the name.  For an empty table the row is zero throughout. *)
Theorem static_flattening set_order n_in features targets b ocl pc fc ms out :
  enumerates set_order ->
  _add_static_covariates set_order n_in features targets b ocl pc fc ms = Ok out ->
  existsb has_static targets = true ->
  let col_names := set_order (flat_map static_names targets) in
  (NoDup col_names /\
   forall a, In a col_names <->
             exists ts sc, In ts targets /\ static_covariates ts = Some sc /\
                           In a (sc_columns sc)) /\
  exists n_comps blocks,
    (exists ts0 rest, targets = ts0 :: rest /\ n_comps = n_components ts0) /\
    length blocks = length targets /\
    nd_rows out = zip_rows (nd_rows features) (concat (map nd_rows blocks)) /\
    forall i ts sc,
      nth_error targets i = Some ts -> static_covariates ts = Some sc ->
      (frame_empty sc = false ->
       exists blk r flat,
         nth_error blocks i = Some blk /\ 0 <= r /\
         nd_rows blk = repeat flat (Z.to_nat r) /\
         length flat = (length col_names * length (sc_values sc))%nat /\
         forall a c name component_row,
           nth_error col_names a = Some name ->
           nth_error (sc_values sc) c = Some component_row ->
           nth_error flat (a * length (sc_values sc) + c)
           = Some (static_cell sc component_row name) /\
           (~ In name (sc_columns sc) ->
            static_cell sc component_row name = Some 0) /\
           (forall j, NoDup (sc_columns sc) ->
                      nth_error (sc_columns sc) j = Some name ->
                      static_cell sc component_row name
                      = nth j component_row None)) /\
      (frame_empty sc = true ->
       exists blk r,
         nth_error blocks i = Some blk /\ 0 <= r /\
         nd_rows blk
         = repeat (repeat (Some 0) (length col_names * n_comps)) (Z.to_nat r)).
Proof.
  intros Henum H Hex col_names.
  split; [now apply enumerates_union|].
  destruct (add_static_covariates_inv _ _ _ _ _ _ _ _ _ _ H Hex)
    as (n_comps & m & blocks & sc_arr & HI & HB & HC & HO).
  destruct (static_inputs_inv _ _ _ _ _ _ _ _ HI)
    as (Hfirst & _ & _ & _ & mpl & _ & Hlen & Hreps).
  destruct (static_blocks_inv _ _ _ _ HB) as [HBlen HBnth].
  destruct (np_concatenate_axis1_inv _ _ _ HO) as (Hrows & _ & _).
  exists n_comps, blocks. split; [exact Hfirst|]. split.
  { rewrite HBlen, length_combine, length_map, Hlen. apply Nat.min_id. }
  split.
  { rewrite Hrows. now rewrite (np_concatenate_axis0_rows _ _ HC). }
  intros i ts sc Hi Hsc.
  destruct (Hreps i ts Hi) as (len & _ & Hr).
  destruct (HBnth i (frame_of ts) _
              (nth_error_combine _ _ _ _ _ (map_nth_error frame_of _ _ Hi) Hr))
    as (blk & Hblk & Hsb).
  assert (Ef : frame_of ts = sc) by (unfold frame_of; now rewrite Hsc).
  rewrite Ef in Hsb. split.
  - intros Hne.
    destruct (static_block_table _ _ _ _ _ Hne Hsb)
      as (Hr0 & flat & Hrw & _ & Hfl & Hcells).
    exists blk, (match ms with Some k => k | None => len end), flat.
    split; [exact Hblk|]. split; [exact Hr0|]. split; [exact Hrw|].
    split; [exact Hfl|].
    intros a c name component_row Ha Hc.
    split; [now apply Hcells|]. split.
    + intros Hnot. unfold static_cell.
      now rewrite (proj2 (find_col_None name (sc_columns sc)) Hnot).
    + intros j Hnd Hj. unfold static_cell.
      now rewrite (find_col_NoDup name _ j Hnd Hj).
  - intros He.
    destruct (static_block_empty _ _ _ _ _ He Hsb) as (Hr0 & _ & Hrw).
    exists blk, (match ms with Some k => k | None => len end). auto.
Qed.

Lemma static_flattening_witness :
  exists blocks,
    length blocks = 1%nat /\
    [[Some 9; Some 1; Some 3; Some 2; Some 4]]
    = zip_rows (nd_rows one_row_features) (concat (map nd_rows blocks)).
Proof.
  assert (H : _add_static_covariates (nodup string_dec) None one_row_features
                [two_component_series] e2e_bounds 1 None None (Some 1)
              = Ok {| nd_cols := 5;
                      nd_rows := [[Some 9; Some 1; Some 3; Some 2; Some 4]] |})
    by (vm_compute; reflexivity).
  destruct (static_flattening (nodup string_dec) None one_row_features
              [two_component_series] e2e_bounds 1 None None (Some 1) _
              nodup_enumerates H eq_refl)
    as (_ & n_comps & blocks & _ & Hlen & Hrows & _).
  exists blocks. split; [exact Hlen|exact Hrows].
Defined.

(** *** The row count recomputed by the appender *)

(** C3 -- The recomputed row count is not the builder's.  The target has
    ten values and no missing value.  With target lags [-1] and a future
    covariate over the same time stamps at lag [+3] the builder keeps the
    six rows at the time stamps 1..6, while the appender, which takes the
    absolute value of the minimum future lag, computes 10 - 3 - 3 = 4
    and then fails to append its four static rows to the six feature
    rows.  With a past covariate that starts three steps after the
    target and lag [-1] the builder keeps the six rows at 4..9, while
    the appender computes min(10 - 1, 10 - 1) = 9 and fails as well. *)
Theorem recomputed_rows_diverge :
  retained_indexes
    (_create_lagged_data future_lag_params [ten_series] None (Some [ten_future]))
  = Ok [[1; 2; 3; 4; 5; 6]]
  /\ recomputed_rows future_lag_bounds 1 None (Some [ten_future]) 0 ten_series
      = Ok 4
  /\ (X <- (Xy <- _create_lagged_data future_lag_params [ten_series] None
                    (Some [ten_future]) ;;
             Ok (fst (fst Xy))) ;;
       _add_static_covariates (nodup string_dec) None X [ten_series]
         future_lag_bounds 1 None (Some [ten_future]) None)
      = Raise NumpyValueError
  /\ retained_indexes
        (_create_lagged_data past_lag_params [ten_series] (Some [late_past]) None)
      = Ok [[4; 5; 6; 7; 8; 9]]
  /\ recomputed_rows past_lag_bounds 1 (Some [late_past]) None 0 ten_series
      = Ok 9
  /\ (X <- (Xy <- _create_lagged_data past_lag_params [ten_series]
                    (Some [late_past]) None ;;
             Ok (fst (fst Xy))) ;;
       _add_static_covariates (nodup string_dec) None X [ten_series]
         past_lag_bounds 1 (Some [late_past]) None None)
      = Raise NumpyValueError.
Proof.
  repeat split; vm_compute; reflexivity.
Qed.

(** ** Further properties of the lag matrix builder *)

(** *** The sample cap *)

Lemma keep_most_recent_capped {A : Type} (p : Params) (m : Z) (l : list A) :
  m <> 0 ->
  keep_most_recent (with_max_samples (Some m) p) l = py_slice_from (- m) l.
Proof.
  intros Hm. unfold keep_most_recent; simpl.
  destruct (Z.eqb_spec m 0); [contradiction|reflexivity].
Qed.

(** The capped turn of the loop, read off the turn without a cap. *)
Lemma lagged_samples_capped p pc fc n idx ts m X y T :
  m <> 0 ->
  lagged_samples (with_max_samples None p) pc fc n idx ts = Ok (X, y, T) ->
  lagged_samples (with_max_samples (Some m) p) pc fc n idx ts
  = match py_slice_from (- m) T with
    | [] => Raise (ValueError (empty_samples_message n idx))
    | _ :: _ =>
        Ok ({| nd_cols := nd_cols X; nd_rows := py_slice_from (- m) (nd_rows X) |},
            {| nd_cols := nd_cols y; nd_rows := py_slice_from (- m) (nd_rows y) |},
            py_slice_from (- m) T)
    end.
Proof.
  intros Hm H.
  destruct (lagged_samples_inv _ _ _ _ _ _ _ _ _ H)
    as (df_X & D & HF & _ & HT & HXr & Hyr & HXc & Hyc).
  change (keep_most_recent (with_max_samples None p) (body D)) with (body D)
    in HT, HXr, Hyr.
  change (lagged_frames (with_max_samples None p) pc fc idx ts)
    with (lagged_frames (with_max_samples (Some m) p) pc fc idx ts) in HF.
  rewrite (lagged_samples_outcome _ pc fc n idx ts df_X D HF).
  rewrite !keep_most_recent_capped by exact Hm.
  unfold index, values. rewrite HT, HXr, Hyr, !py_slice_from_map.
  unfold row, cell in *.
  destruct (@py_slice_from (Z * list (option Z)) (- m) (body D)) as [|tr kept];
    [reflexivity|].
  cbn [map fst snd np_split_axis1 nd_cols nd_rows].
  rewrite HXc, Hyc, !map_map. reflexivity.
Qed.

Lemma py_slice_from_last {A : Type} (m : Z) (l : list A) :
  0 < m ->
  py_slice_from (- m) l = skipn (length l - Z.to_nat m) l.
Proof.
  intros Hm. unfold py_slice_from.
  destruct (Z.ltb_spec (- m) 0) as [_|H]; [|lia]. f_equal. lia.
Qed.

Lemma py_slice_from_drop {A : Type} (m : Z) (l : list A) :
  m < 0 ->
  py_slice_from (- m) l = skipn (Z.to_nat (- m)) l.
Proof.
  intros Hm. unfold py_slice_from.
  destruct (Z.ltb_spec (- m) 0) as [H|_]; [lia|].
  destruct (Z.min_spec (- m) (Z.of_nat (length l))) as [[_ ->]|[Hge ->]]; auto.
  rewrite Nat2Z.id, skipn_all. symmetry. apply skipn_all2. lia.
Qed.

(** X1 -- The sample cap keeps the most recent rows.  If a series gives
    the arrays [X], [y] and the index [T] without a cap, then with a cap
    of [m > 0] it gives the last [min(m, length T)] rows of [X] and of
    [y] and the last [min(m, length T)] time stamps of [T], in the same
    order, and it does not raise. *)
Theorem sample_cap_keeps_most_recent p pc fc n idx ts m X y T :
  0 < m ->
  lagged_samples (with_max_samples None p) pc fc n idx ts = Ok (X, y, T) ->
  lagged_samples (with_max_samples (Some m) p) pc fc n idx ts
  = Ok ({| nd_cols := nd_cols X;
           nd_rows := skipn (length T - Z.to_nat m) (nd_rows X) |},
        {| nd_cols := nd_cols y;
           nd_rows := skipn (length T - Z.to_nat m) (nd_rows y) |},
        skipn (length T - Z.to_nat m) T)
  /\ length (skipn (length T - Z.to_nat m) T) = Nat.min (Z.to_nat m) (length T)
  /\ length (skipn (length T - Z.to_nat m) (nd_rows X))
      = Nat.min (Z.to_nat m) (length T).
Proof.
  intros Hm H.
  destruct (lagged_samples_lengths _ _ _ _ _ _ _ _ _ H) as [LX Ly].
  assert (HT : T <> []).
  { destruct (lagged_samples_inv _ _ _ _ _ _ _ _ _ H)
      as (df_X & D & _ & Hne & -> & _).
    intros E. apply map_eq_nil in E. contradiction. }
  rewrite (lagged_samples_capped p pc fc n idx ts m X y T) by (auto; lia).
  rewrite !py_slice_from_last by exact Hm. rewrite LX, Ly.
  assert (HL : length (skipn (length T - Z.to_nat m) T)
               = Nat.min (Z.to_nat m) (length T)).
  { rewrite length_skipn. lia. }
  split; [|split; [exact HL|rewrite length_skipn; lia]].
  destruct (skipn (length T - Z.to_nat m) T) as [|t T'] eqn:E; [|reflexivity].
  exfalso. destruct T; [congruence|]. simpl in HL. lia.
Qed.

Lemma sample_cap_keeps_most_recent_witness :
  lagged_samples (with_max_samples (Some 3) future_lag_params) None
    (Some [ten_future]) 1 0 ten_series
  = Ok ({| nd_cols := 2;
           nd_rows := [[Some 4; Some 108]; [Some 5; Some 109]; [Some 6; Some 110]] |},
        {| nd_cols := 1; nd_rows := [[Some 5]; [Some 6]; [Some 7]] |},
        [4; 5; 6]).
Proof.
  assert (H : lagged_samples (with_max_samples None future_lag_params) None
                (Some [ten_future]) 1 0 ten_series
              = Ok ({| nd_cols := 2;
                       nd_rows := [[Some 1; Some 105]; [Some 2; Some 106];
                                   [Some 3; Some 107]; [Some 4; Some 108];
                                   [Some 5; Some 109]; [Some 6; Some 110]] |},
                    {| nd_cols := 1;
                       nd_rows := [[Some 2]; [Some 3]; [Some 4]; [Some 5];
                                   [Some 6]; [Some 7]] |},
                    [1; 2; 3; 4; 5; 6])) by (vm_compute; reflexivity).
  destruct (sample_cap_keeps_most_recent future_lag_params None
              (Some [ten_future]) 1%nat 0%nat ten_series 3 _ _ _
              ltac:(lia) H) as [HC _].
  exact HC.
Defined.

(** X2 -- A negative cap drops the oldest rows.  With a cap of [m < 0]
    the slice [a[-m:]] drops the first [-m] rows and time stamps of the
    series instead of keeping the last ones; when the series has no more
    than [-m] rows, the empty-sample-set error is raised. *)
Theorem negative_cap_drops_oldest p pc fc n idx ts m X y T :
  m < 0 ->
  lagged_samples (with_max_samples None p) pc fc n idx ts = Ok (X, y, T) ->
  (Z.of_nat (length T) <= - m ->
   lagged_samples (with_max_samples (Some m) p) pc fc n idx ts
   = Raise (ValueError (empty_samples_message n idx))) /\
  (- m < Z.of_nat (length T) ->
   lagged_samples (with_max_samples (Some m) p) pc fc n idx ts
   = Ok ({| nd_cols := nd_cols X; nd_rows := skipn (Z.to_nat (- m)) (nd_rows X) |},
         {| nd_cols := nd_cols y; nd_rows := skipn (Z.to_nat (- m)) (nd_rows y) |},
         skipn (Z.to_nat (- m)) T)).
Proof.
  intros Hm H.
  rewrite (lagged_samples_capped p pc fc n idx ts m X y T) by (auto; lia).
  rewrite !py_slice_from_drop by exact Hm. split; intros HL.
  - rewrite skipn_all2 by lia. reflexivity.
  - destruct (skipn (Z.to_nat (- m)) T) as [|t T'] eqn:E; [|reflexivity].
    exfalso. apply (f_equal (@length Z)) in E. rewrite length_skipn in E.
    simpl in E. lia.
Qed.

Lemma negative_cap_drops_oldest_witness :
  lagged_samples (with_max_samples (Some (-1)) e2e_params) None None 1 0 e2e_series
  = Ok ({| nd_cols := 1; nd_rows := [[Some 2]; [Some 3]; [Some 4]] |},
        {| nd_cols := 1; nd_rows := [[Some 3]; [Some 4]; [Some 5]] |},
        [2; 3; 4]).
Proof.
  assert (H : lagged_samples (with_max_samples None e2e_params) None None 1 0
                e2e_series
              = Ok ({| nd_cols := 1;
                       nd_rows := [[Some 1]; [Some 2]; [Some 3]; [Some 4]] |},
                    {| nd_cols := 1;
                       nd_rows := [[Some 2]; [Some 3]; [Some 4]; [Some 5]] |},
                    [1; 2; 3; 4])) by (vm_compute; reflexivity).
  destruct (negative_cap_drops_oldest e2e_params None None 1%nat 0%nat e2e_series
              (-1) _ _ _ ltac:(lia) H) as [_ HC].
  apply HC. simpl. lia.
Defined.

(** *** Retained rows are complete *)

(** Every array of the loop comes from one turn on one series. *)
Lemma lagged_loop_each p pc fc n targets idx Xs ys Ts :
  lagged_loop p pc fc n idx targets = Ok (Xs, ys, Ts) ->
  forall i, (i < length targets)%nat ->
    exists ts Xi yi Ti,
      nth_error targets i = Some ts /\ nth_error Xs i = Some Xi /\
      nth_error ys i = Some yi /\ nth_error Ts i = Some Ti /\
      lagged_samples p pc fc n (idx + i) ts = Ok (Xi, yi, Ti).
Proof.
  intros H i Hi.
  destruct (lagged_loop_inv _ _ _ _ _ _ _ _ _ H) as (_ & _ & _ & Hnth).
  destruct (nth_error targets i) as [ts|] eqn:E;
    [|apply nth_error_None in E; lia].
  destruct (Hnth i ts E) as (Xi & yi & Ti & H1 & H2 & H3 & H4).
  exists ts, Xi, yi, Ti. auto.
Qed.

(** In training mode the horizon blocks are present at every retained
    label. *)
Lemma lagged_samples_targets_present p pc fc n idx ts X y T :
  wf_series ts -> wf_covariates pc -> wf_covariates fc ->
  is_training p = true ->
  lagged_samples p pc fc n idx ts = Ok (X, y, T) ->
  Forall (fun t => forallb notna
                     (blocks_row (horizon_blocks p (pd_dataframe ts)) t) = true) T.
Proof.
  intros Hts Hpc Hfc Htr H.
  destruct (lagged_samples_inv _ _ _ _ _ _ _ _ _ H)
    as (df_X & D & HF & _ & HT & _).
  rewrite lagged_frames_concat in HF.
  destruct (lagged_concat p pc fc idx ts) as [[dX dXy]|] eqn:HC;
    cbn [bind] in HF; [|discriminate].
  injection HF as -> <-.
  destruct (index_drop_missing _ _ _ _ _ _ _ Hts Hpc Hfc HC) as (blocks & _ & HI).
  rewrite <- keep_most_recent_map in HT.
  change (map fst (body (drop_missing p df_X dXy)))
    with (index (drop_missing p df_X dXy)) in HT.
  rewrite HI, Htr in HT. subst T.
  apply Forall_forall. intros t Hin. apply keep_most_recent_In in Hin.
  apply filter_In in Hin. destruct Hin as [_ Hp].
  apply andb_true_iff in Hp. now destruct Hp as [_ Hp].
Qed.

(** X3 -- Retained rows are complete.  Whenever the builder returns for
    well-formed inputs, no cell of [X] is missing; in training mode no
    cell of [y] is missing either. *)
Theorem retained_rows_complete p targets pc fc X y Ts :
  Forall wf_series targets -> wf_covariates pc -> wf_covariates fc ->
  _create_lagged_data p targets pc fc = Ok (X, y, Ts) ->
  Forall (fun r => forallb notna r = true) (nd_rows X) /\
  (is_training p = true ->
   Forall (fun r => forallb notna r = true) (nd_rows y)).
Proof.
  intros Hts Hpc Hfc H. unfold _create_lagged_data in H.
  destruct (lagged_loop p pc fc (length targets) 0 targets)
    as [[[Xs ys] Ts']|e] eqn:EL; cbn [bind] in H; [|discriminate].
  destruct (np_concatenate_axis0 Xs) as [X'|e] eqn:EX; cbn [bind] in H;
    [|discriminate].
  destruct (np_concatenate_axis0 ys) as [y'|e] eqn:Ey; cbn [bind] in H;
    [|discriminate].
  injection H as <- <- <-.
  destruct (lagged_loop_inv _ _ _ _ _ _ _ _ _ EL) as (LX & Ly & _ & _).
  rewrite (np_concatenate_axis0_rows _ _ EX), (np_concatenate_axis0_rows _ _ Ey).
  split; [|intros Htr]; apply Forall_concat, Forall_map, Forall_forall;
    intros a Ha; apply In_nth_error in Ha; destruct Ha as [i Hi].
  - assert (Hlt : (i < length targets)%nat)
      by (rewrite <- LX; apply nth_error_Some; congruence).
    destruct (lagged_loop_each _ _ _ _ _ _ _ _ _ EL i Hlt)
      as (ts & Xi & yi & Ti & H1 & H2 & H3 & H4 & H5).
    assert (Hwf : wf_series ts).
    { rewrite Forall_forall in Hts. apply Hts. eapply nth_error_In; eauto. }
    destruct (lagged_samples_rows _ _ _ _ _ _ _ _ _ Hwf Hpc Hfc H5)
      as (blocks & _ & _ & HXr & _ & _ & _ & Hall).
    assert (a = Xi) by congruence. subst a. rewrite HXr.
    now apply Forall_map.
  - assert (Hlt : (i < length targets)%nat)
      by (rewrite <- Ly; apply nth_error_Some; congruence).
    destruct (lagged_loop_each _ _ _ _ _ _ _ _ _ EL i Hlt)
      as (ts & Xi & yi & Ti & H1 & H2 & H3 & H4 & H5).
    assert (Hwf : wf_series ts).
    { rewrite Forall_forall in Hts. apply Hts. eapply nth_error_In; eauto. }
    destruct (lagged_samples_rows _ _ _ _ _ _ _ _ _ Hwf Hpc Hfc H5)
      as (blocks & _ & _ & _ & Hyr & _).
    assert (a = yi) by congruence. subst a. rewrite Hyr.
    apply Forall_map.
    apply (lagged_samples_targets_present p pc fc _ _ ts Xi yi Ti Hwf Hpc Hfc Htr H5).
Qed.

Lemma retained_rows_complete_witness :
  Forall (fun r => forallb notna r = true)
         [[Some 1]; [Some 2]; [Some 3]; [Some 4]].
Proof.
  assert (Hwf : wf_series e2e_series).
  { split; [discriminate|]. split; [repeat constructor|].
    repeat constructor; simpl; intuition discriminate. }
  assert (He2e : _create_lagged_data e2e_params [e2e_series] None None
                 = Ok ({| nd_cols := 1;
                          nd_rows := [[Some 1]; [Some 2]; [Some 3]; [Some 4]] |},
                       {| nd_cols := 1;
                          nd_rows := [[Some 2]; [Some 3]; [Some 4]; [Some 5]] |},
                       [[1; 2; 3; 4]])) by (vm_compute; reflexivity).
  exact (proj1 (retained_rows_complete e2e_params [e2e_series] None None _ _ _
                  (Forall_cons _ Hwf (Forall_nil _)) (Forall_nil _) (Forall_nil _)
                  He2e)).
Defined.

(** *** Chronological order *)

Lemma insert_uniq_chronological (t : Z) (l : list Z) :
  chronological l -> chronological (insert_uniq t l).
Proof.
  unfold chronological. induction 1 as [|x l Hl IH Hx]; simpl.
  - repeat constructor.
  - destruct (Z.ltb_spec t x) as [Hlt|Hge].
    + constructor; [now constructor|]. constructor; auto.
      rewrite Forall_forall in *. intros z Hz. specialize (Hx z Hz). lia.
    + destruct (Z.eqb_spec t x) as [->|Hne]; [now constructor|].
      constructor; auto. rewrite Forall_forall in *. intros z Hz.
      apply In_insert_uniq in Hz. destruct Hz as [->|Hz]; [lia|auto].
Qed.

Lemma sort_uniq_chronological (l : list Z) : chronological (sort_uniq l).
Proof.
  induction l as [|x l IH]; simpl; [constructor|].
  now apply insert_uniq_chronological.
Qed.

Lemma index_union_chronological (a b : list Z) :
  chronological a -> chronological b -> chronological (index_union a b).
Proof.
  intros Ha Hb. unfold index_union. destruct (index_eqb a b); auto.
  destruct a, b; auto. apply sort_uniq_chronological.
Qed.

Lemma union_indexes_chronological (idxs : list (list Z)) :
  Forall chronological idxs -> chronological (union_indexes idxs).
Proof.
  destruct idxs as [|i rest]; simpl; [constructor|].
  intros H. inversion H as [|? ? Hi Hrest]; subst. clear H.
  revert i Hi. induction Hrest as [|j rest Hj _ IH]; intros i Hi; simpl; auto.
  apply IH. now apply index_union_chronological.
Qed.

Lemma filter_body_chronological (f : Z * row -> bool) (b : list (Z * row)) :
  chronological (map fst b) -> chronological (map fst (filter f b)).
Proof.
  unfold chronological. induction b as [|tr b IH]; simpl; auto.
  intros H. inversion H as [|? ? Hb Htr]; subst.
  destruct (f tr); simpl; auto. constructor; auto.
  rewrite Forall_forall in *. intros z Hz. apply Htr.
  apply in_map_iff in Hz. destruct Hz as [tr' [<- Hin]].
  apply filter_In in Hin. apply in_map. tauto.
Qed.

Lemma skipn_chronological (k : nat) : forall l : list Z,
  chronological l -> chronological (skipn k l).
Proof.
  unfold chronological. induction k as [|k IH]; intros [|x l] H; simpl; auto.
  inversion H; subst. auto.
Qed.

Lemma keep_most_recent_chronological p (l : list Z) :
  chronological l -> chronological (keep_most_recent p l).
Proof.
  intros H. unfold keep_most_recent.
  destruct (max_samples_per_ts p) as [m|]; auto.
  destruct (m =? 0); auto. now apply skipn_chronological.
Qed.

Lemma index_reindex (idx : list Z) (d : DataFrame) : index (reindex idx d) = idx.
Proof. unfold index, reindex; simpl. rewrite map_map; simpl. apply map_id. Qed.

Lemma covariate_frame_chronological covs idx d :
  Forall chronological_series (items covs) ->
  covariate_frame covs idx = Ok (Some d) -> chronological (index d).
Proof.
  unfold covariate_frame. intros Hc.
  destruct (truthy covs); [|discriminate].
  destruct (nth_error (items covs) idx) as [ts|] eqn:E; [|discriminate].
  intros [= <-]. rewrite Forall_forall in Hc.
  apply (Hc ts). eapply nth_error_In; eauto.
Qed.

Lemma covariate_blocks_chronological p name dc lc d blocks :
  chronological (index d) ->
  (forall c, dc = Some c -> chronological (index c)) ->
  covariate_blocks p name dc lc d = Ok blocks ->
  Forall chronological (map index blocks).
Proof.
  intros Hd Hc H. apply covariate_blocks_map in H. subst blocks.
  destruct dc as [c|]; [|constructor].
  apply Forall_map, Forall_map, Forall_forall. intros lag _.
  rewrite index_rename, index_shift. unfold extend_covariate.
  destruct (negb (is_training p)); [|now apply Hc].
  rewrite index_reindex. apply index_union_chronological; auto.
Qed.

Lemma feature_blocks_chronological p pc fc idx ts blocks :
  chronological_series ts ->
  Forall chronological_series (items pc) ->
  Forall chronological_series (items fc) ->
  feature_blocks p pc fc idx ts = Ok blocks ->
  Forall chronological (map index blocks).
Proof.
  intros Hts Hpc Hfc. unfold feature_blocks.
  destruct (covariate_frame pc idx) as [dp|] eqn:Ep; cbn [bind]; [|discriminate].
  destruct (covariate_frame fc idx) as [df_|] eqn:Ef; cbn [bind]; [|discriminate].
  destruct (covariate_blocks p "past" dp _ _) as [bp|] eqn:Bp; cbn [bind];
    [|discriminate].
  destruct (covariate_blocks p "future" df_ _ _) as [bf|] eqn:Bf; cbn [bind];
    [|discriminate].
  intros [= <-]. rewrite !map_app, !Forall_app. repeat split.
  - rewrite target_blocks_map.
    apply Forall_map, Forall_map, Forall_forall. intros lag _.
    now rewrite index_rename, index_shift.
  - apply (covariate_blocks_chronological p "past" dp
             (lags_past_covariates p) (pd_dataframe ts) bp
             Hts); [|exact Bp].
    intros c ->. apply (covariate_frame_chronological pc idx c Hpc Ep).
  - apply (covariate_blocks_chronological p "future" df_
             (lags_future_covariates p) (pd_dataframe ts) bf
             Hts); [|exact Bf].
    intros c ->. apply (covariate_frame_chronological fc idx c Hfc Ef).
Qed.

Lemma lagged_samples_chronological p pc fc n idx ts X y T :
  chronological_series ts ->
  Forall chronological_series (items pc) ->
  Forall chronological_series (items fc) ->
  lagged_samples p pc fc n idx ts = Ok (X, y, T) ->
  chronological T.
Proof.
  intros Hts Hpc Hfc H.
  destruct (lagged_samples_inv _ _ _ _ _ _ _ _ _ H)
    as (df_X & D & HF & _ & HT & _).
  rewrite lagged_frames_concat in HF.
  destruct (lagged_concat p pc fc idx ts) as [[dX dXy]|] eqn:HC;
    cbn [bind] in HF; [|discriminate].
  injection HF as -> <-.
  destruct (lagged_concat_inv _ _ _ _ _ _ _ HC)
    as (blocks & df_y & HB & HX & Hy & HXy).
  rewrite <- keep_most_recent_map in HT. subst T.
  apply keep_most_recent_chronological.
  assert (HD : chronological (map fst (body dXy))).
  { change (map fst (body dXy)) with (index dXy).
    rewrite (concat_index _ _ HXy). apply union_indexes_chronological.
    repeat constructor.
    - rewrite (concat_index _ _ HX). apply union_indexes_chronological.
      apply (feature_blocks_chronological p pc fc idx ts blocks Hts Hpc Hfc HB).
    - rewrite (horizon_concat_index _ _ _ Hy). exact Hts. }
  unfold drop_missing. destruct (is_training p); simpl;
    now apply filter_body_chronological.
Qed.

(** X4 -- Retained time stamps stay in chronological order.  If the time
    indexes of all target and covariate series are strictly increasing,
    then so is every retained time index the builder returns, with or
    without a sample cap and with covariates that span other time ranges
    than the target. *)
Theorem retained_index_chronological p targets pc fc X y Ts :
  Forall chronological_series targets ->
  Forall chronological_series (items pc) ->
  Forall chronological_series (items fc) ->
  _create_lagged_data p targets pc fc = Ok (X, y, Ts) ->
  Forall chronological Ts.
Proof.
  intros Hts Hpc Hfc H. unfold _create_lagged_data in H.
  destruct (lagged_loop p pc fc (length targets) 0 targets)
    as [[[Xs ys] Ts']|e] eqn:EL; cbn [bind] in H; [|discriminate].
  destruct (np_concatenate_axis0 Xs) as [X'|e]; cbn [bind] in H; [|discriminate].
  destruct (np_concatenate_axis0 ys) as [y'|e]; cbn [bind] in H; [|discriminate].
  injection H as <- <- <-.
  destruct (lagged_loop_inv _ _ _ _ _ _ _ _ _ EL) as (_ & _ & LT & _).
  apply Forall_forall. intros T HT. apply In_nth_error in HT.
  destruct HT as [i Hi].
  assert (Hlt : (i < length targets)%nat)
    by (rewrite <- LT; apply nth_error_Some; congruence).
  destruct (lagged_loop_each _ _ _ _ _ _ _ _ _ EL i Hlt)
    as (ts & Xi & yi & Ti & H1 & H2 & H3 & H4 & H5).
  assert (T = Ti) by congruence. subst T.
  apply (lagged_samples_chronological p pc fc (length targets) (0 + i)%nat
           ts Xi yi Ti); auto.
  rewrite Forall_forall in Hts. apply Hts. eapply nth_error_In; eauto.
Qed.

Lemma retained_index_chronological_witness :
  Forall chronological [[4; 5; 6; 7; 8; 9]].
Proof.
  assert (HT : chronological_series ten_series).
  { unfold chronological_series, chronological.
    repeat constructor; simpl; lia. }
  assert (HP : chronological_series late_past).
  { unfold chronological_series, chronological.
    repeat constructor; simpl; lia. }
  destruct (_create_lagged_data past_lag_params [ten_series] (Some [late_past]) None)
    as [[[X y] Ts]|e] eqn:E; [|vm_compute in E; discriminate].
  pose proof (retained_index_chronological past_lag_params [ten_series]
                (Some [late_past]) None X y Ts
                (Forall_cons _ HT (Forall_nil _))
                (Forall_cons _ HP (Forall_nil _)) (Forall_nil _) E) as H.
  vm_compute in E. injection E as _ _ <-. exact H.
Defined.

(** *** Retained time stamps and the target index *)

Lemma blocks_row_present_each blocks t b :
  forallb notna (blocks_row blocks t) = true -> In b blocks ->
  forallb notna (row_or_nan b t) = true.
Proof.
  unfold blocks_row. rewrite forallb_flat_map, forallb_forall. auto.
Qed.

Lemma shift_present_in_index (k : Z) (d : DataFrame) (t : Z) :
  (0 < width d)%nat ->
  forallb notna (row_or_nan (shift k d) t) = true -> In t (index d).
Proof.
  intros Hw. rewrite row_or_nan_shift.
  destruct (get_loc t (index d)) as [pos|] eqn:E.
  - intros _. eapply nth_error_In. apply (get_loc_Some _ _ _ E).
  - now rewrite nan_row_not_all_present.
Qed.

Lemma wf_series_width ts : wf_series ts -> (0 < width (pd_dataframe ts))%nat.
Proof.
  intros (Hc & _). unfold width; simpl.
  destruct (components ts); [congruence|simpl; lia].
Qed.

Lemma lagged_samples_horizon_nonempty p pc fc n idx ts X y T :
  lagged_samples p pc fc n idx ts = Ok (X, y, T) ->
  horizon_blocks p (pd_dataframe ts) <> [].
Proof.
  intros H. destruct (lagged_samples_inv _ _ _ _ _ _ _ _ _ H)
    as (df_X & D & HF & _).
  rewrite lagged_frames_concat in HF.
  destruct (lagged_concat p pc fc idx ts) as [[dX dXy]|] eqn:HC;
    cbn [bind] in HF; [|discriminate].
  destruct (lagged_concat_inv _ _ _ _ _ _ _ HC) as (blocks & df_y & _ & _ & Hy & _).
  intros E. rewrite E in Hy. discriminate.
Qed.

Lemma horizon_blocks_shape p d b :
  In b (horizon_blocks p d) -> exists label k, b = rename label (shift k d).
Proof.
  unfold horizon_blocks. destruct (multi_models p).
  - intros Hb. apply in_map_iff in Hb. destruct Hb as [k [<- _]]. eauto.
  - intros [<-|[]]. eauto.
Qed.

(** X5 -- Retained time stamps are time stamps of the target.  In
    training mode, and in any mode when target lags are used, every time
    stamp the builder retains for a series belongs to the time index of
    that target series: rows at time stamps that only a covariate has
    are never returned. *)
Theorem retained_stamps_of_target p targets pc fc X y Ts :
  Forall wf_series targets -> wf_covariates pc -> wf_covariates fc ->
  is_training p = true \/ truthy (lags p) = true ->
  _create_lagged_data p targets pc fc = Ok (X, y, Ts) ->
  forall i ts Ti,
    nth_error targets i = Some ts -> nth_error Ts i = Some Ti ->
    forall t, In t Ti -> In t (time_index ts).
Proof.
  intros Hts Hpc Hfc Hmode H i ts Ti Hi HTi t Ht.
  unfold _create_lagged_data in H.
  destruct (lagged_loop p pc fc (length targets) 0 targets)
    as [[[Xs ys] Ts']|e] eqn:EL; cbn [bind] in H; [|discriminate].
  destruct (np_concatenate_axis0 Xs) as [X'|e]; cbn [bind] in H; [|discriminate].
  destruct (np_concatenate_axis0 ys) as [y'|e]; cbn [bind] in H; [|discriminate].
  injection H as <- <- <-.
  destruct (lagged_loop_inv _ _ _ _ _ _ _ _ _ EL) as (_ & _ & _ & Hnth).
  destruct (Hnth i ts Hi) as (Xi & yi & Ti' & _ & _ & H3 & H4).
  change (0 + i)%nat with i in H4.
  assert (Ti' = Ti) by congruence. subst Ti'.
  assert (Hwf : wf_series ts).
  { rewrite Forall_forall in Hts. apply Hts. eapply nth_error_In; eauto. }
  pose proof (wf_series_width ts Hwf) as Hw.
  change (time_index ts) with (index (pd_dataframe ts)).
  destruct Hmode as [Htr|Hlags].
  - pose proof (lagged_samples_targets_present _ _ _ _ _ _ _ _ _
                  Hwf Hpc Hfc Htr H4) as Hall.
    rewrite Forall_forall in Hall. specialize (Hall t Ht).
    pose proof (lagged_samples_horizon_nonempty _ _ _ _ _ _ _ _ _ H4) as Hne.
    destruct (horizon_blocks p (pd_dataframe ts)) as [|b hb] eqn:Eh; [congruence|].
    assert (Hb : In b (horizon_blocks p (pd_dataframe ts)))
      by (rewrite Eh; now left).
    destruct (horizon_blocks_shape _ _ _ Hb) as (label & k & ->).
    pose proof (blocks_row_present_each _ t _ Hall (or_introl eq_refl)) as Hp.
    rewrite row_or_nan_rename in Hp.
    apply (shift_present_in_index k _ t Hw Hp).
  - destruct (lagged_samples_rows _ _ _ _ _ _ _ _ _ Hwf Hpc Hfc H4)
      as (blocks & HB & _ & _ & _ & _ & _ & Hall).
    rewrite Forall_forall in Hall. specialize (Hall t Ht).
    unfold feature_blocks in HB.
    destruct (covariate_frame pc i); cbn [bind] in HB; [|discriminate].
    destruct (covariate_frame fc i); cbn [bind] in HB; [|discriminate].
    destruct (covariate_blocks p "past" _ _ _) as [bp|]; cbn [bind] in HB;
      [|discriminate].
    destruct (covariate_blocks p "future" _ _ _) as [bf|]; cbn [bind] in HB;
      [|discriminate].
    injection HB as <-.
    unfold target_blocks in Hall. rewrite Hlags in Hall.
    destruct (lags p) as [[|lag l]|]; try discriminate. cbn [items map app] in Hall.
    pose proof (blocks_row_present_each _ t _ Hall (or_introl eq_refl)) as Hp.
    rewrite row_or_nan_rename in Hp.
    apply (shift_present_in_index _ _ t Hw Hp).
Qed.

Lemma retained_stamps_of_target_witness :
  Forall (fun t => In t (time_index ten_series)) [4; 5; 6; 7; 8; 9].
Proof.
  apply Forall_forall.
  assert (HT : wf_series ten_series).
  { split; [discriminate|]. split; [repeat constructor|].
    repeat constructor; simpl; intuition discriminate. }
  assert (HP : wf_series late_past).
  { split; [discriminate|]. split; [repeat constructor|].
    repeat constructor; simpl; intuition discriminate. }
  destruct (_create_lagged_data past_lag_params [ten_series] (Some [late_past]) None)
    as [[[X y] Ts]|e] eqn:E; [|vm_compute in E; discriminate].
  pose proof (retained_stamps_of_target past_lag_params [ten_series]
                (Some [late_past]) None X y Ts
                (Forall_cons _ HT (Forall_nil _))
                (Forall_cons _ HP (Forall_nil _)) (Forall_nil _)
                (or_introl eq_refl) E 0%nat ten_series) as H.
  vm_compute in E. injection E as _ _ <-.
  apply (H _ eq_refl eq_refl).
Defined.

(** *** The target matrix in multi-step mode *)

Lemma with_multi_models_true p :
  multi_models p = true -> with_multi_models true p = p.
Proof. destruct p; simpl. now intros ->. Qed.

Lemma skipn_nth_error {A : Type} : forall (l : list A) (k : nat) (x : A),
  nth_error l k = Some x -> skipn k l = x :: skipn (S k) l.
Proof.
  induction l as [|a l IH]; intros [|k] x H; simpl in *; try discriminate.
  - now injection H as ->.
  - now apply IH.
Qed.

(** Consecutive positional reads inside a frame are a window of it. *)
Lemma iloc_window (l : list row) (w pos : nat) : forall (c s : nat),
  (pos + s + c <= length l)%nat ->
  flat_map (fun k => iloc l w (Z.of_nat pos - - k)) (map Z.of_nat (seq s c))
  = concat (firstn c (skipn (pos + s) l)).
Proof.
  induction c as [|c IH]; intros s Hlen; simpl.
  - reflexivity.
  - assert (Hnth : exists r, nth_error l (pos + s) = Some r).
    { destruct (nth_error l (pos + s)) as [r|] eqn:E; eauto.
      apply nth_error_None in E. lia. }
    destruct Hnth as [r Hr].
    replace (Z.of_nat pos - - Z.of_nat s) with (Z.of_nat (pos + s)) by lia.
    rewrite (iloc_inside _ _ _ _ Hr).
    rewrite (IH (S s)) by lia.
    replace (pos + S s)%nat with (S (pos + s)) by lia.
    rewrite (skipn_nth_error l (pos + s) r Hr). reflexivity.
Qed.

(** X6 -- Rows of the target matrix in multi-step mode.  With
    [multi_models] enabled and in training mode, [y] has for each series
    [output_chunk_length] blocks of target-component columns, and its
    row for a retained time stamp holds the rows of the target from that
    time stamp on, [output_chunk_length] of them side by side; all of
    them lie inside the series. *)
Theorem multi_step_target_rows p targets pc fc X y Ts :
  Forall wf_series targets -> wf_covariates pc -> wf_covariates fc ->
  multi_models p = true -> is_training p = true ->
  _create_lagged_data p targets pc fc = Ok (X, y, Ts) ->
  1 <= output_chunk_length p /\
  exists ys,
    nd_rows y = concat (map nd_rows ys) /\
    forall i ts, nth_error targets i = Some ts ->
      exists yi Ti,
        nth_error ys i = Some yi /\ nth_error Ts i = Some Ti /\
        nd_cols yi = (Z.to_nat (output_chunk_length p) * n_components ts)%nat /\
        forall j t, nth_error Ti j = Some t ->
          exists pos,
            get_loc t (time_index ts) = Some pos /\
            (pos + Z.to_nat (output_chunk_length p)
             <= length (series_values ts))%nat /\
            nth_error (nd_rows yi) j
            = Some (concat (firstn (Z.to_nat (output_chunk_length p))
                                   (skipn pos (series_values ts)))).
Proof.
  intros Hts Hpc Hfc Hmulti Htr H. unfold _create_lagged_data in H.
  destruct (lagged_loop p pc fc (length targets) 0 targets)
    as [[[Xs ys] Ts']|e] eqn:EL; cbn [bind] in H; [|discriminate].
  destruct (np_concatenate_axis0 Xs) as [X'|e] eqn:EX; cbn [bind] in H;
    [|discriminate].
  destruct (np_concatenate_axis0 ys) as [y'|e] eqn:Ey; cbn [bind] in H;
    [|discriminate].
  injection H as <- <- <-.
  destruct (lagged_loop_inv _ _ _ _ _ _ _ _ _ EL) as (LX & _ & _ & Hnth).
  assert (Hocl : 1 <= output_chunk_length p).
  { destruct targets as [|ts0 rest].
    - simpl in EL. injection EL as <- _ _. discriminate.
    - destruct (Hnth 0%nat ts0 eq_refl) as (X0 & y0 & T0 & _ & _ & _ & H0).
      pose proof (lagged_samples_horizon_nonempty _ _ _ _ _ _ _ _ _ H0) as Hne.
      unfold horizon_blocks in Hne. rewrite Hmulti in Hne.
      destruct (Z.leb_spec 1 (output_chunk_length p)); auto.
      exfalso. apply Hne. unfold range.
      replace (Z.to_nat (output_chunk_length p)) with 0%nat by lia. reflexivity. }
  split; [exact Hocl|].
  exists ys. split; [now apply np_concatenate_axis0_rows|].
  intros i ts Hi.
  destruct (Hnth i ts Hi) as (Xi & yi & Ti & _ & H2 & H3 & H4).
  change (0 + i)%nat with i in H4.
  assert (Hwf : wf_series ts).
  { rewrite Forall_forall in Hts. apply Hts. eapply nth_error_In; eauto. }
  pose proof (wf_series_width ts Hwf) as Hw.
  destruct (lagged_samples_rows _ _ _ _ _ _ _ _ _ Hwf Hpc Hfc H4)
    as (blocks & _ & _ & _ & Hyr & _ & Hyc & _).
  pose proof (lagged_samples_targets_present _ _ _ _ _ _ _ _ _
                Hwf Hpc Hfc Htr H4) as Hall.
  exists yi, Ti. split; [exact H2|]. split; [exact H3|]. split.
  { rewrite Hyc. pose proof (horizon_columns_multi p (pd_dataframe ts)) as HM.
    rewrite (with_multi_models_true p Hmulti) in HM. exact HM. }
  intros j t Hj.
  rewrite Forall_forall in Hall. specialize (Hall t (nth_error_In _ _ Hj)).
  rewrite Hyr, nth_error_map, Hj. cbn [option_map].
  unfold horizon_blocks in Hall |- *. rewrite Hmulti in Hall |- *.
  rewrite (blocks_row_group horizon_label) in Hall |- *.
  rewrite forallb_flat_map, forallb_forall in Hall.
  assert (H0 : forallb notna
                 (row_or_nan (shift (- 0) (pd_dataframe ts)) t) = true).
  { apply Hall, In_range. lia. }
  assert (Hlast : forallb notna
                    (row_or_nan (shift (- (output_chunk_length p - 1))
                                       (pd_dataframe ts)) t) = true).
  { apply Hall, In_range. lia. }
  rewrite row_or_nan_shift in H0, Hlast.
  change (index (pd_dataframe ts)) with (time_index ts) in *.
  change (values (pd_dataframe ts)) with (series_values ts) in *.
  destruct (get_loc t (time_index ts)) as [pos|] eqn:EL';
    [|now rewrite nan_row_not_all_present in H0].
  destruct (iloc_present _ _ _ Hw Hlast) as [_ Hin].
  assert (Hbound : (pos + Z.to_nat (output_chunk_length p)
                    <= length (series_values ts))%nat).
  { assert (Hlt : (Z.to_nat (Z.of_nat pos - - (output_chunk_length p - 1))
                   < length (series_values ts))%nat)
      by (apply nth_error_Some; congruence).
    lia. }
  exists pos. split; [reflexivity|]. split; [exact Hbound|]. f_equal.
  transitivity (flat_map (fun k => iloc (series_values ts)
                                    (width (pd_dataframe ts))
                                    (Z.of_nat pos - - k))
                         (range (output_chunk_length p))).
  - apply flat_map_ext. intros k. rewrite row_or_nan_shift.
    change (index (pd_dataframe ts)) with (time_index ts). now rewrite EL'.
  - unfold range. rewrite iloc_window by lia. now rewrite Nat.add_0_r.
Qed.

Lemma multi_step_target_rows_witness :
  exists yi,
    nd_cols yi = 2%nat /\
    nth_error (nd_rows yi) 0 = Some [Some 2; Some 3].
Proof.
  assert (Hwf : wf_series e2e_series).
  { split; [discriminate|]. split; [repeat constructor|].
    repeat constructor; simpl; intuition discriminate. }
  destruct (_create_lagged_data two_step_params [e2e_series] None None)
    as [[[X y] Ts]|e] eqn:E; [|vm_compute in E; discriminate].
  destruct (multi_step_target_rows two_step_params [e2e_series] None None X y Ts
              (Forall_cons _ Hwf (Forall_nil _)) (Forall_nil _) (Forall_nil _)
              eq_refl eq_refl E) as (_ & ys & _ & Hper).
  destruct (Hper 0%nat e2e_series eq_refl) as (yi & Ti & _ & HT & Hc & Hrows).
  vm_compute in E. injection E as _ _ <-. injection HT as <-.
  destruct (Hrows 0%nat 1 eq_refl) as (pos & Hpos & _ & Hrow).
  vm_compute in Hpos. injection Hpos as <-.
  exists yi. split; [exact Hc|exact Hrow].
Defined.

(** *** Column counts *)

Lemma length_group_labels label group_lags d :
  length (group_labels label group_lags d)
  = (length (items group_lags) * width d)%nat.
Proof.
  unfold group_labels. apply length_flat_map_fixed. intros lag. apply length_map.
Qed.

Lemma length_expected_columns p d dp df_ :
  length (expected_columns p d dp df_)
  = (length (items (lags p)) * width d
     + length (items (lags_past_covariates p))
       * match dp with Some c => width c | None => 0 end
     + length (items (lags_future_covariates p))
       * match df_ with Some c => width c | None => 0 end)%nat.
Proof.
  unfold expected_columns. rewrite !length_app, length_group_labels.
  destruct dp, df_; rewrite ?length_group_labels; simpl; lia.
Qed.

(** X7 -- Number of columns.  Whenever the builder returns for
    well-formed inputs, [X] has one column per target lag and target
    component, per past-covariate lag and past-covariate component and
    per future-covariate lag and future-covariate component (components
    counted on the first series), and [y] has one column per horizon
    step and target component in multi-step mode and one per target
    component otherwise. *)
Theorem column_counts p ts0 rest pc fc X y Ts :
  Forall wf_series (ts0 :: rest) -> wf_covariates pc -> wf_covariates fc ->
  _create_lagged_data p (ts0 :: rest) pc fc = Ok (X, y, Ts) ->
  nd_cols X
  = (length (items (lags p)) * n_components ts0
     + length (items (lags_past_covariates p)) * cov_width pc 0
     + length (items (lags_future_covariates p)) * cov_width fc 0)%nat /\
  nd_cols y
  = ((if multi_models p then Z.to_nat (output_chunk_length p) else 1)
     * n_components ts0)%nat.
Proof.
  intros Hts Hpc Hfc H. unfold _create_lagged_data in H.
  destruct (lagged_loop p pc fc (length (ts0 :: rest)) 0 (ts0 :: rest))
    as [[[Xs ys] Ts']|e] eqn:EL; cbn [bind] in H; [|discriminate].
  destruct (np_concatenate_axis0 Xs) as [X'|e] eqn:EX; cbn [bind] in H;
    [|discriminate].
  destruct (np_concatenate_axis0 ys) as [y'|e] eqn:Ey; cbn [bind] in H;
    [|discriminate].
  injection H as <- <- <-.
  destruct (lagged_loop_inv _ _ _ _ _ _ _ _ _ EL) as (_ & _ & _ & Hnth).
  destruct (Hnth 0%nat ts0 eq_refl) as (X0 & y0 & T0 & H1 & H2 & _ & H4).
  change (0 + 0)%nat with 0%nat in H4.
  assert (Hwf : wf_series ts0) by now inversion Hts.
  destruct (lagged_samples_rows _ _ _ _ _ _ _ _ _ Hwf Hpc Hfc H4)
    as (blocks & HB & _ & _ & _ & HXc & Hyc & _).
  destruct (feature_blocks_layout _ _ _ _ _ _ HB) as [Hcols _].
  rewrite <- (np_concatenate_axis0_cols _ _ X0 EX) by (eapply nth_error_In; eauto).
  rewrite <- (np_concatenate_axis0_cols _ _ y0 Ey) by (eapply nth_error_In; eauto).
  split.
  - rewrite HXc, Hcols, length_expected_columns. reflexivity.
  - rewrite Hyc. destruct (multi_models p) eqn:Em.
    + pose proof (horizon_columns_multi p (pd_dataframe ts0)) as HM.
      rewrite (with_multi_models_true p Em) in HM. exact HM.
    + pose proof (horizon_columns_single p (pd_dataframe ts0)) as HS.
      rewrite (with_multi_models_false p Em) in HS. rewrite HS.
      unfold width, n_components; simpl. lia.
Qed.

Lemma column_counts_witness :
  exists X y Ts,
    _create_lagged_data future_lag_params [ten_series] None (Some [ten_future])
    = Ok (X, y, Ts) /\
    nd_cols X = 2%nat /\ nd_cols y = 1%nat.
Proof.
  assert (HT : wf_series ten_series).
  { split; [discriminate|]. split; [repeat constructor|].
    repeat constructor; simpl; intuition discriminate. }
  assert (HF : wf_series ten_future).
  { split; [discriminate|]. split; [repeat constructor|].
    repeat constructor; simpl; intuition discriminate. }
  destruct (_create_lagged_data future_lag_params [ten_series] None
              (Some [ten_future])) as [[[X y] Ts]|e] eqn:E;
    [|vm_compute in E; discriminate].
  exists X, y, Ts. split; [reflexivity|].
  exact (column_counts future_lag_params ten_series [] None (Some [ten_future])
           X y Ts (Forall_cons _ HT (Forall_nil _)) (Forall_nil _)
           (Forall_cons _ HF (Forall_nil _)) E).
Defined.

(** *** What a successful call needs *)

Lemma lagged_samples_ok_inv p pc fc n idx ts r :
  lagged_samples p pc fc n idx ts = Ok r ->
  exists dp df_ bp bf,
    covariate_frame pc idx = Ok dp /\
    covariate_frame fc idx = Ok df_ /\
    covariate_blocks p "past" dp (lags_past_covariates p) (pd_dataframe ts)
    = Ok bp /\
    covariate_blocks p "future" df_ (lags_future_covariates p) (pd_dataframe ts)
    = Ok bf /\
    target_blocks p (pd_dataframe ts) ++ bp ++ bf <> [] /\
    horizon_blocks p (pd_dataframe ts) <> [].
Proof.
  destruct r as [[X y] T]. intros H.
  pose proof (lagged_samples_horizon_nonempty _ _ _ _ _ _ _ _ _ H) as Hh.
  destruct (lagged_samples_inv _ _ _ _ _ _ _ _ _ H) as (df_X & D & HF & _).
  rewrite lagged_frames_concat in HF.
  destruct (lagged_concat p pc fc idx ts) as [[dX dXy]|] eqn:HC;
    cbn [bind] in HF; [|discriminate].
  destruct (lagged_concat_inv _ _ _ _ _ _ _ HC) as (blocks & df_y & HB & HX & _).
  unfold feature_blocks in HB.
  destruct (covariate_frame pc idx) as [dp|] eqn:Ep; cbn [bind] in HB;
    [|discriminate].
  destruct (covariate_frame fc idx) as [df_|] eqn:Ef; cbn [bind] in HB;
    [|discriminate].
  destruct (covariate_blocks p "past" dp _ _) as [bp|] eqn:Bp; cbn [bind] in HB;
    [|discriminate].
  destruct (covariate_blocks p "future" df_ _ _) as [bf|] eqn:Bf; cbn [bind] in HB;
    [|discriminate].
  injection HB as <-. exists dp, df_, bp, bf.
  split; [reflexivity|]. split; [reflexivity|]. split; [exact Bp|].
  split; [exact Bf|]. split; [|exact Hh].
  intros E. rewrite E in HX. discriminate.
Qed.

Lemma covariate_blocks_ok p name dc lc d blocks :
  covariate_blocks p name dc lc d = Ok blocks ->
  (truthy lc = true -> dc <> None) /\ (blocks <> [] -> truthy lc = true).
Proof.
  unfold covariate_blocks. destruct (truthy lc).
  - destruct dc; [|discriminate]. intros _. split; auto. discriminate.
  - intros [= <-]. split; [discriminate|congruence].
Qed.

Lemma covariate_frame_ok covs idx dc :
  covariate_frame covs idx = Ok dc ->
  (dc <> None -> truthy covs = true) /\
  (truthy covs = true -> (idx < length (items covs))%nat).
Proof.
  unfold covariate_frame. destruct (truthy covs).
  - destruct (nth_error (items covs) idx) eqn:E; [|discriminate].
    intros _. split; auto. intros _. apply nth_error_Some. congruence.
  - intros [= <-]. split; [congruence|discriminate].
Qed.

(** X8 -- What a successful call needs.  The builder returns only if it
    is given at least one target series and at least one non-empty list
    of lags; covariates for every kind of covariate lags it is given;
    for every covariate sequence it is given, a covariate series for
    each target series, whether or not lags of that kind are used; and,
    in multi-step mode, a horizon of at least one step.  Without any
    target series it raises the error of [np.concatenate]; without
    covariates for the covariate lags it raises [AttributeError]; without
    any lags the error of [pd.concat]. *)
Theorem builder_needs p targets pc fc :
  (forall r, _create_lagged_data p targets pc fc = Ok r ->
     targets <> [] /\
     (truthy (lags p) = true \/ truthy (lags_past_covariates p) = true
      \/ truthy (lags_future_covariates p) = true) /\
     (truthy (lags_past_covariates p) = true -> truthy pc = true) /\
     (truthy (lags_future_covariates p) = true -> truthy fc = true) /\
     (truthy pc = true -> (length targets <= length (items pc))%nat) /\
     (truthy fc = true -> (length targets <= length (items fc))%nat) /\
     (multi_models p = true -> 1 <= output_chunk_length p)) /\
  (targets = [] -> _create_lagged_data p targets pc fc = Raise NumpyValueError) /\
  (targets <> [] -> truthy pc = false -> truthy fc = false ->
   (truthy (lags_past_covariates p) = true
    \/ truthy (lags_future_covariates p) = true) ->
   _create_lagged_data p targets pc fc = Raise AttributeError) /\
  (targets <> [] -> truthy pc = false -> truthy fc = false ->
   truthy (lags p) = false -> truthy (lags_past_covariates p) = false ->
   truthy (lags_future_covariates p) = false ->
   _create_lagged_data p targets pc fc = Raise PandasValueError).
Proof.
  split; [|split; [|split]].
  - intros [[X y] Ts] H. unfold _create_lagged_data in H.
    destruct (lagged_loop p pc fc (length targets) 0 targets)
      as [[[Xs ys] Ts']|e] eqn:EL; cbn [bind] in H; [|discriminate].
    destruct (np_concatenate_axis0 Xs) as [X'|e] eqn:EX; cbn [bind] in H;
      [|discriminate].
    destruct (lagged_loop_inv _ _ _ _ _ _ _ _ _ EL) as (LX & _ & _ & Hnth).
    assert (Hne : targets <> []).
    { intros ->. destruct Xs; [discriminate|]. discriminate. }
    split; [exact Hne|].
    assert (Hlast : exists ts, nth_error targets (length targets - 1) = Some ts).
    { destruct (nth_error targets (length targets - 1)) eqn:E; eauto.
      apply nth_error_None in E. destruct targets; [congruence|]. simpl in E. lia. }
    destruct Hlast as [ts Hts].
    destruct (Hnth _ ts Hts) as (Xi & yi & Ti & _ & _ & _ & HS).
    change (0 + (length targets - 1))%nat with (length targets - 1)%nat in HS.
    destruct (lagged_samples_ok_inv _ _ _ _ _ _ _ HS)
      as (dp & df_ & bp & bf & Ep & Ef & Bp & Bf & Hblocks & Hh).
    destruct (covariate_blocks_ok _ _ _ _ _ _ Bp) as [Pp1 Pp2].
    destruct (covariate_blocks_ok _ _ _ _ _ _ Bf) as [Pf1 Pf2].
    destruct (covariate_frame_ok _ _ _ Ep) as [Cp1 Cp2].
    destruct (covariate_frame_ok _ _ _ Ef) as [Cf1 Cf2].
    split; [|split; [|split; [|split; [|split]]]].
    + destruct (target_blocks p (pd_dataframe ts)) as [|b0 tb] eqn:Et.
      * destruct bp as [|b1 bp].
        -- right; right. apply Pf2. intros ->. now apply Hblocks.
        -- right; left. now apply Pp2.
      * left. unfold target_blocks in Et.
        destruct (truthy (lags p)); [reflexivity|discriminate].
    + auto.
    + auto.
    + intros Hp. specialize (Cp2 Hp). lia.
    + intros Hf. specialize (Cf2 Hf). lia.
    + intros Hm. unfold horizon_blocks in Hh. rewrite Hm in Hh.
      destruct (Z.leb_spec 1 (output_chunk_length p)); auto.
      exfalso. apply Hh. unfold range.
      replace (Z.to_nat (output_chunk_length p)) with 0%nat by lia. reflexivity.
  - intros ->. reflexivity.
  - intros Hne Hpc Hfc Hl. destruct targets as [|ts rest]; [congruence|].
    unfold _create_lagged_data, lagged_loop, lagged_samples, lagged_frames,
      lagged_concat, feature_blocks, covariate_frame, covariate_blocks.
    rewrite Hpc, Hfc. cbn [bind].
    destruct (truthy (lags_past_covariates p)); [reflexivity|].
    destruct Hl as [Hl|Hl]; [discriminate|]. rewrite Hl. reflexivity.
  - intros Hne Hpc Hfc H1 H2 H3. destruct targets as [|ts rest]; [congruence|].
    unfold _create_lagged_data, lagged_loop, lagged_samples, lagged_frames,
      lagged_concat, feature_blocks, covariate_frame, covariate_blocks,
      target_blocks.
    rewrite Hpc, Hfc, H1, H2, H3. reflexivity.
Qed.

Lemma builder_needs_witness :
  truthy (lags future_lag_params) = true
  \/ truthy (lags_past_covariates future_lag_params) = true
  \/ truthy (lags_future_covariates future_lag_params) = true.
Proof.
  destruct (_create_lagged_data future_lag_params [ten_series] None
              (Some [ten_future])) as [r|e] eqn:E;
    [|vm_compute in E; discriminate].
  destruct (builder_needs future_lag_params [ten_series] None
              (Some [ten_future])) as [H _].
  destruct (H r E) as (_ & Hl & _). exact Hl.
Defined.

(** ** Further properties of the static covariate appender *)

(** *** Series without static covariates *)

Lemma zip_rows_repeat (rows : list row) (z : row) :
  zip_rows rows (repeat z (length rows)) = map (fun r => r ++ z) rows.
Proof.
  unfold zip_rows. induction rows as [|r rows IH]; simpl; auto.
  now rewrite IH.
Qed.

Lemma add_static_covariates_no_static set_order n_in features targets b ocl pc fc ms
    n_comps m :
  static_inputs targets b ocl pc fc ms = Ok (n_comps, m) ->
  existsb has_static targets = false ->
  _add_static_covariates set_order n_in features targets b ocl pc fc ms
  = pad_to_model n_in features.
Proof.
  intros HI Hex. unfold _add_static_covariates. rewrite HI. cbn [bind].
  destruct (static_inputs_inv _ _ _ _ _ _ _ _ HI) as (_ & _ & _ & Hcov & _).
  now rewrite Hcov, Hex.
Qed.

(** X9 -- Series without static covariates.  When no series carries
    static covariates (and the per-series bookkeeping of the appender
    goes through), the features come back unchanged if the model states
    no expected feature count or one that is not larger than the number
    of columns; otherwise every row is extended with zeros up to the
    expected count.  This branch never fails. *)
Theorem padding_without_static set_order n_in features targets b ocl pc fc ms
    n_comps m :
  static_inputs targets b ocl pc fc ms = Ok (n_comps, m) ->
  existsb has_static targets = false ->
  (n_in = None ->
   _add_static_covariates set_order n_in features targets b ocl pc fc ms
   = Ok features) /\
  (forall n, n_in = Some n -> n <= Z.of_nat (nd_cols features) ->
   _add_static_covariates set_order n_in features targets b ocl pc fc ms
   = Ok features) /\
  (forall n, n_in = Some n -> Z.of_nat (nd_cols features) < n ->
   _add_static_covariates set_order n_in features targets b ocl pc fc ms
   = Ok {| nd_cols := Z.to_nat n;
           nd_rows := map (fun r => r ++ repeat (Some 0)
                                         (Z.to_nat n - nd_cols features))
                          (nd_rows features) |}).
Proof.
  intros HI Hex.
  rewrite (add_static_covariates_no_static set_order n_in features targets b ocl
             pc fc ms n_comps m HI Hex).
  split; [|split].
  - intros ->. reflexivity.
  - intros n -> Hn. unfold pad_to_model.
    destruct (Z.ltb_spec (Z.of_nat (nd_cols features)) n); [lia|reflexivity].
  - intros n -> Hn. unfold pad_to_model.
    destruct (Z.ltb_spec (Z.of_nat (nd_cols features)) n); [|lia].
    unfold np_tile_rows.
    destruct (Z.ltb_spec (Z.of_nat (length (nd_rows features))) 0); [lia|].
    cbn [bind]. unfold np_concatenate_axis1, np_zeros_row.
    cbn [nd_rows nd_cols]. rewrite concat_repeat_single, repeat_length, Nat2Z.id.
    rewrite Nat.eqb_refl. f_equal.
    replace (Z.to_nat (n - Z.of_nat (nd_cols features)))
      with (Z.to_nat n - nd_cols features)%nat by lia.
    f_equal; [lia|]. apply zip_rows_repeat.
Qed.

Lemma padding_without_static_witness :
  _add_static_covariates (nodup string_dec) (Some 3) one_row_features
    [e2e_series] e2e_bounds 1 None None None
  = Ok {| nd_cols := 3; nd_rows := [[Some 9; Some 0; Some 0]] |}.
Proof.
  destruct (static_inputs [e2e_series] e2e_bounds 1 None None None)
    as [[n_comps m]|e] eqn:E; [|vm_compute in E; discriminate].
  destruct (padding_without_static (nodup string_dec) (Some 3) one_row_features
              [e2e_series] e2e_bounds 1 None None None n_comps m E eq_refl)
    as (_ & _ & H).
  apply (H 3 eq_refl). simpl. lia.
Defined.

(** *** The features are kept *)

Lemma nth_error_zip_rows : forall (a b : list row) (i : nat) (r : row),
  length a = length b -> nth_error a i = Some r ->
  exists s, nth_error (zip_rows a b) i = Some (r ++ s).
Proof.
  unfold zip_rows. induction a as [|x a IH]; intros [|y b] [|i] r Hlen Hr;
    simpl in *; try discriminate.
  - injection Hr as ->. eauto.
  - apply IH; auto.
Qed.

Lemma length_zip_rows (a b : list row) :
  length a = length b -> length (zip_rows a b) = length a.
Proof.
  intros H. unfold zip_rows. rewrite length_map, length_combine, <- H.
  apply Nat.min_id.
Qed.

Lemma np_concatenate_axis1_keeps a b out :
  np_concatenate_axis1 a b = Ok out ->
  length (nd_rows out) = length (nd_rows a) /\
  (nd_cols a <= nd_cols out)%nat /\
  forall i r, nth_error (nd_rows a) i = Some r ->
    exists s, nth_error (nd_rows out) i = Some (r ++ s).
Proof.
  intros H. destruct (np_concatenate_axis1_inv _ _ _ H) as (Hr & Hc & Hl).
  rewrite Hr, Hc. split; [now apply length_zip_rows|]. split; [lia|].
  intros i r Hi. now apply nth_error_zip_rows.
Qed.

(** X10 -- The features are kept.  Whenever the appender returns, with
    or without static covariates, its result has the rows of the feature
    matrix in the same number and order, each one unchanged and followed
    by the appended cells, and no fewer columns. *)
Theorem appender_keeps_features set_order n_in features targets b ocl pc fc ms out :
  _add_static_covariates set_order n_in features targets b ocl pc fc ms = Ok out ->
  length (nd_rows out) = length (nd_rows features) /\
  (nd_cols features <= nd_cols out)%nat /\
  forall i r, nth_error (nd_rows features) i = Some r ->
    exists s, nth_error (nd_rows out) i = Some (r ++ s).
Proof.
  unfold _add_static_covariates. intros H.
  destruct (static_inputs targets b ocl pc fc ms) as [[n_comps m]|];
    cbn [bind] in H; [|discriminate].
  assert (Hsame : out = features ->
            length (nd_rows out) = length (nd_rows features) /\
            (nd_cols features <= nd_cols out)%nat /\
            forall i r, nth_error (nd_rows features) i = Some r ->
              exists s, nth_error (nd_rows out) i = Some (r ++ s)).
  { intros ->. repeat split; auto. intros i r Hi. exists []. now rewrite app_nil_r. }
  destruct (negb (covs_exist m)).
  - unfold pad_to_model in H. destruct n_in as [n|].
    + destruct (Z.of_nat (nd_cols features) <? n).
      * destruct (np_tile_rows _ _) as [tiled|]; cbn [bind] in H; [|discriminate].
        now apply np_concatenate_axis1_keeps in H.
      * injection H as <-. now apply Hsame.
    + injection H as <-. now apply Hsame.
  - unfold append_static in H.
    destruct (static_blocks _ _ _) as [blocks|]; cbn [bind] in H; [|discriminate].
    destruct (np_concatenate_axis0 blocks) as [sc|]; cbn [bind] in H;
      [|discriminate].
    now apply np_concatenate_axis1_keeps in H.
Qed.

Lemma appender_keeps_features_witness :
  exists s, nth_error [[Some 9; Some 1; Some 3; Some 2; Some 4]] 0
            = Some ([Some 9] ++ s).
Proof.
  assert (H : _add_static_covariates (nodup string_dec) None one_row_features
                [two_component_series] e2e_bounds 1 None None (Some 1)
              = Ok {| nd_cols := 5;
                      nd_rows := [[Some 9; Some 1; Some 3; Some 2; Some 4]] |})
    by (vm_compute; reflexivity).
  destruct (appender_keeps_features _ _ _ _ _ _ _ _ _ _ H) as (_ & _ & Hrows).
  exact (Hrows 0%nat [Some 9] eq_refl).
Defined.

(** *** Row counts have to add up *)

Lemma static_block_rows col_names n_comps f r blk :
  static_block col_names n_comps f r = Ok blk ->
  0 <= r /\ length (nd_rows blk) = Z.to_nat r.
Proof.
  intros H. destruct (frame_empty f) eqn:E.
  - destruct (static_block_empty _ _ _ _ _ E H) as (Hr & _ & ->).
    now rewrite repeat_length.
  - destruct (static_block_table _ _ _ _ _ E H) as (Hr & flat & -> & _).
    now rewrite repeat_length.
Qed.

Lemma list_sum_constant (rs : list Z) (k : Z) :
  (forall i r, nth_error rs i = Some r -> r = k) ->
  list_sum (map Z.to_nat rs) = (length rs * Z.to_nat k)%nat.
Proof.
  induction rs as [|r rs IH]; intros H; simpl; auto.
  rewrite (H 0%nat r eq_refl). f_equal. apply IH.
  intros i r' Hi. apply (H (S i) r' Hi).
Qed.

(** X11 -- Row counts have to add up.  When some series carries static
    covariates, the appender returns only if no repetition count is
    negative and the feature matrix has exactly as many rows as the
    repetition counts of all series add up to.  The count of a series is
    [max_samples_per_ts] when that is given, so the features must then
    hold exactly that many rows per series; otherwise it is the count
    recomputed from the lag bounds. *)
Theorem static_rows_add_up set_order n_in features targets b ocl pc fc ms out :
  _add_static_covariates set_order n_in features targets b ocl pc fc ms = Ok out ->
  existsb has_static targets = true ->
  exists rs,
    length rs = length targets /\
    (forall i ts, nth_error targets i = Some ts ->
       exists len,
         recomputed_rows b ocl pc fc i ts = Ok len /\
         nth_error rs i = Some (match ms with Some k => k | None => len end)) /\
    Forall (fun r => 0 <= r) rs /\
    length (nd_rows features) = list_sum (map Z.to_nat rs) /\
    (forall k, ms = Some k ->
       0 <= k /\
       length (nd_rows features) = (length targets * Z.to_nat k)%nat).
Proof.
  intros H Hex.
  destruct (add_static_covariates_inv _ _ _ _ _ _ _ _ _ _ H Hex)
    as (n_comps & m & blocks & sc & HI & HB & HC & HO).
  destruct (static_inputs_inv _ _ _ _ _ _ _ _ HI)
    as (Hfirst & _ & _ & _ & mpl & Hmpl & Hlen & Hreps).
  destruct (static_blocks_inv _ _ _ _ HB) as [HBlen HBnth].
  destruct (np_concatenate_axis1_inv _ _ _ HO) as (_ & _ & Hrows).
  rewrite (np_concatenate_axis0_rows _ _ HC), length_concat, map_map in Hrows.
  assert (Hblen : length blocks = length targets).
  { rewrite HBlen, length_combine, length_map, Hlen. apply Nat.min_id. }
  assert (Hblock : forall i r, nth_error (reps m) i = Some r ->
            exists blk, nth_error blocks i = Some blk /\
                        0 <= r /\ length (nd_rows blk) = Z.to_nat r).
  { intros i r Hr.
    assert (Hlt : (i < length targets)%nat)
      by (rewrite <- Hlen; apply nth_error_Some; congruence).
    destruct (nth_error targets i) as [ts|] eqn:Ei;
      [|apply nth_error_None in Ei; lia].
    destruct (HBnth i (frame_of ts) r
                (nth_error_combine _ _ _ _ _ (map_nth_error frame_of _ _ Ei) Hr))
      as (blk & Hblk & Hsb).
    exists blk. split; [exact Hblk|]. now apply static_block_rows in Hsb. }
  assert (Hnonneg : Forall (fun r => 0 <= r) (reps m)).
  { apply Forall_forall. intros r Hr. apply In_nth_error in Hr.
    destruct Hr as [i Hi]. now destruct (Hblock i r Hi) as (_ & _ & Hr0 & _). }
  assert (Hsum : length (nd_rows features) = list_sum (map Z.to_nat (reps m))).
  { rewrite Hrows. apply list_sum_pointwise; [congruence|].
    intros i blk r Hblk Hr. destruct (Hblock i r Hr) as (blk' & Hblk' & _ & Hl).
    congruence. }
  exists (reps m). split; [exact Hlen|]. split.
  { intros i ts Hi. destruct (Hreps i ts Hi) as (len & Hl & Hr).
    exists len. split; [|exact Hr]. unfold recomputed_rows. now rewrite Hmpl. }
  split; [exact Hnonneg|]. split; [exact Hsum|].
  intros k ->.
  assert (Hall : forall i r, nth_error (reps m) i = Some r -> r = k).
  { intros i r Hr.
    assert (Hlt : (i < length targets)%nat)
      by (rewrite <- Hlen; apply nth_error_Some; congruence).
    destruct (nth_error targets i) as [ts|] eqn:Ei;
      [|apply nth_error_None in Ei; lia].
    destruct (Hreps i ts Ei) as (len & _ & Hr'). congruence. }
  split.
  - destruct Hfirst as (ts0 & rest & -> & _).
    destruct (Hreps 0%nat ts0 eq_refl) as (len & _ & Hr).
    rewrite Forall_forall in Hnonneg. apply Hnonneg.
    eapply nth_error_In; eauto.
  - rewrite Hsum, (list_sum_constant _ k Hall). now rewrite Hlen.
Qed.

Lemma static_rows_add_up_witness :
  0 <= 1 /\ length (nd_rows one_row_features) = (1 * Z.to_nat 1)%nat.
Proof.
  assert (H : _add_static_covariates (nodup string_dec) None one_row_features
                [two_component_series] e2e_bounds 1 None None (Some 1)
              = Ok {| nd_cols := 5;
                      nd_rows := [[Some 9; Some 1; Some 3; Some 2; Some 4]] |})
    by (vm_compute; reflexivity).
  destruct (static_rows_add_up _ _ _ _ _ _ _ _ _ _ H eq_refl)
    as (rs & _ & _ & _ & _ & Hk).
  exact (Hk 1 eq_refl).
Defined.

(** *** What a successful call of the appender needs *)

Lemma py_max_ok (l : list Z) (m : Z) : py_max l = Ok m -> l <> [].
Proof. destruct l; [discriminate|]. discriminate. Qed.

Lemma len_shortest_features_ok b ocl pc fc mpl idx ts len :
  len_shortest_features b ocl pc fc mpl idx ts = Ok len ->
  (forall l, pc = Some l -> (idx < length l)%nat) /\
  (forall l, fc = Some l -> (idx < length l)%nat /\ max_future_cov_lag b <> None).
Proof.
  unfold len_shortest_features, covariate_len. intros H. split.
  - intros l ->. destruct (nth_error l idx) eqn:E.
    + apply nth_error_Some. congruence.
    + discriminate.
  - intros l ->.
    destruct pc as [lp|].
    + destruct (nth_error lp idx); cbn [bind] in H; [|discriminate].
      destruct (nth_error l idx) eqn:E; cbn [bind] in H; [|discriminate].
      split; [apply nth_error_Some; congruence|].
      destruct (max_future_cov_lag b); [discriminate|discriminate].
    + cbn [bind] in H.
      destruct (nth_error l idx) eqn:E; cbn [bind] in H; [|discriminate].
      split; [apply nth_error_Some; congruence|].
      destruct (max_future_cov_lag b); [discriminate|discriminate].
Qed.

(** X12 -- What a successful call of the appender needs.  The appender
    returns only if it is given at least one target series, at least one
    lag bound that is not [None], a covariate series for each target
    series in every covariate sequence that is not [None] (an empty
    sequence does not count as absent here), and the maximum future lag
    whenever future covariates are given.  Without target series it
    raises [IndexError]; with target series and no lag bound at all, the
    error of [max] on an empty sequence. *)
Theorem appender_needs set_order n_in features targets b ocl pc fc ms :
  (forall out,
     _add_static_covariates set_order n_in features targets b ocl pc fc ms = Ok out ->
     targets <> [] /\
     (min_target_lag b <> None \/ min_past_cov_lag b <> None
      \/ min_future_cov_lag b <> None) /\
     (forall l, pc = Some l -> (length targets <= length l)%nat) /\
     (forall l, fc = Some l ->
        (length targets <= length l)%nat /\ max_future_cov_lag b <> None)) /\
  (targets = [] ->
   _add_static_covariates set_order n_in features targets b ocl pc fc ms
   = Raise IndexError) /\
  (targets <> [] ->
   min_target_lag b = None -> min_past_cov_lag b = None ->
   min_future_cov_lag b = None ->
   _add_static_covariates set_order n_in features targets b ocl pc fc ms
   = Raise EmptySequenceError).
Proof.
  split; [|split].
  - intros out H. unfold _add_static_covariates in H.
    destruct (static_inputs targets b ocl pc fc ms) as [[n_comps m]|] eqn:HI;
      cbn [bind] in H; [|discriminate].
    destruct (static_inputs_inv _ _ _ _ _ _ _ _ HI)
      as ((ts0 & rest & -> & _) & _ & _ & _ & mpl & Hmpl & _ & Hreps).
    split; [discriminate|]. split.
    { unfold max_past_lag in Hmpl. apply py_max_ok in Hmpl.
      destruct (min_target_lag b); [left; discriminate|].
      destruct (min_past_cov_lag b); [right; left; discriminate|].
      destruct (min_future_cov_lag b); [right; right; discriminate|].
      exfalso. now apply Hmpl. }
    assert (Hlast : exists ts, nth_error (ts0 :: rest) (length rest) = Some ts).
    { destruct (nth_error (ts0 :: rest) (length rest)) eqn:E; eauto.
      apply nth_error_None in E. simpl in E. lia. }
    destruct Hlast as [ts Hts].
    destruct (Hreps _ ts Hts) as (len & Hl & _).
    destruct (len_shortest_features_ok _ _ _ _ _ _ _ _ Hl) as [Hp Hf].
    split.
    + intros l ->. specialize (Hp l eq_refl). simpl. lia.
    + intros l ->. destruct (Hf l eq_refl) as [Hlt Hmax]. simpl. split; [lia|auto].
  - intros ->. reflexivity.
  - intros Hne H1 H2 H3. destruct targets as [|ts rest]; [congruence|].
    unfold _add_static_covariates, static_inputs, max_past_lag.
    rewrite H1, H2, H3. reflexivity.
Qed.

Lemma appender_needs_witness :
  [two_component_series] <> [] /\
  (min_target_lag e2e_bounds <> None \/ min_past_cov_lag e2e_bounds <> None
   \/ min_future_cov_lag e2e_bounds <> None).
Proof.
  assert (H : _add_static_covariates (nodup string_dec) None one_row_features
                [two_component_series] e2e_bounds 1 None None (Some 1)
              = Ok {| nd_cols := 5;
                      nd_rows := [[Some 9; Some 1; Some 3; Some 2; Some 4]] |})
    by (vm_compute; reflexivity).
  destruct (appender_needs (nodup string_dec) None one_row_features
              [two_component_series] e2e_bounds 1 None None (Some 1)) as [Hn _].
  destruct (Hn _ H) as (H1 & H2 & _). split; assumption.
Defined.

(** ** Where the recomputed row count is right *)

(** In a frame without NaN a shifted row is present exactly when the
    position it is read from lies inside the frame. *)
Lemma present_shift_any (d : DataFrame) (t s : Z) :
  Forall (fun tr => forallb notna (snd tr) = true) (body d) ->
  (0 < width d)%nat ->
  forallb notna (row_or_nan (shift s d) t)
  = match get_loc t (index d) with
    | Some pos => (0 <=? Z.of_nat pos - s)
                  && (Z.of_nat pos - s <? Z.of_nat (length (values d)))
    | None => false
    end.
Proof.
  intros Hfree Hw. rewrite row_or_nan_shift.
  destruct (get_loc t (index d)) as [pos|];
    [|now apply nan_row_not_all_present].
  unfold iloc.
  destruct (Z.ltb_spec (Z.of_nat pos - s) 0) as [Hneg|Hpos].
  - rewrite nan_row_not_all_present by exact Hw.
    destruct (Z.leb_spec 0 (Z.of_nat pos - s)); [lia|reflexivity].
  - destruct (Z.leb_spec 0 (Z.of_nat pos - s)); [|lia]. cbn [andb].
    destruct (Z.ltb_spec (Z.of_nat pos - s) (Z.of_nat (length (values d))))
      as [Hin|Hout].
    + assert (Hlt : (Z.to_nat (Z.of_nat pos - s) < length (values d))%nat) by lia.
      pose proof (nth_In (values d) (nan_row (width d)) Hlt) as HI.
      unfold values in HI at 2. apply in_map_iff in HI.
      destruct HI as [tr [Htr Hin']]. rewrite <- Htr.
      rewrite Forall_forall in Hfree. now apply Hfree.
    + rewrite nth_overflow by lia. now apply nan_row_not_all_present.
Qed.

(** In an index without repetition every label is found at its own
    position. *)
Lemma get_loc_positions (idx : list Z) :
  NoDup idx ->
  map (fun t => get_loc t idx) idx = map Some (seq 0 (length idx)).
Proof.
  induction 1 as [|x idx Hx Hnd IH]; simpl; auto.
  rewrite Z.eqb_refl. f_equal.
  rewrite <- seq_shift, map_map, <- (map_map Some (option_map S)), <- IH, map_map.
  apply map_ext_in. intros t Ht.
  destruct (Z.eqb_spec x t) as [->|_]; [contradiction|reflexivity].
Qed.

Lemma length_filter_map {A B : Type} (f : A -> B) (h : B -> bool) (l : list A) :
  length (filter (fun a => h (f a)) l) = length (filter h (map f l)).
Proof.
  induction l as [|a l IH]; simpl; auto.
  destruct (h (f a)); simpl; now rewrite IH.
Qed.

(** The number of positions of [0 .. n-1] that lie between [lo] and
    [hi]. *)
Lemma count_between (lo : Z) : forall (n : nat) (hi : Z),
  0 <= lo -> hi < Z.of_nat n ->
  Z.of_nat (length (filter (fun i => (lo <=? Z.of_nat i) && (Z.of_nat i <=? hi))
                           (seq 0 n)))
  = Z.max 0 (hi - lo + 1).
Proof.
  induction n as [|n IH]; intros hi Hlo Hhi.
  - simpl. lia.
  - rewrite seq_S, filter_app, length_app. cbn [Nat.add filter].
    destruct (Z.eq_dec hi (Z.of_nat n)) as [->|Hne].
    + rewrite (filter_ext_in _
                 (fun i => (lo <=? Z.of_nat i) && (Z.of_nat i <=? Z.of_nat n - 1))).
      * rewrite Nat2Z.inj_add, IH by lia.
        destruct (Z.leb_spec lo (Z.of_nat n)), (Z.leb_spec (Z.of_nat n) (Z.of_nat n));
          simpl; lia.
      * intros i Hi. apply in_seq in Hi. f_equal.
        destruct (Z.leb_spec (Z.of_nat i) (Z.of_nat n)),
                 (Z.leb_spec (Z.of_nat i) (Z.of_nat n - 1)); auto; lia.
    + rewrite Nat2Z.inj_add, IH by lia.
      destruct (Z.leb_spec lo (Z.of_nat n)), (Z.leb_spec (Z.of_nat n) hi);
        simpl; lia.
Qed.

(** Lags that are not positive: all of them are available exactly when
    the smallest one is. *)
Lemma lags_available (l : list Z) (m0 : Z) (pos n : nat) :
  In m0 l -> (forall lag, In lag l -> m0 <= lag <= 0) -> (pos < n)%nat ->
  forallb (fun lag => (0 <=? Z.of_nat pos - - lag)
                      && (Z.of_nat pos - - lag <? Z.of_nat n)) l
  = (- m0 <=? Z.of_nat pos).
Proof.
  intros Hin Hall Hpos. destruct (Z.leb_spec (- m0) (Z.of_nat pos)) as [H|H].
  - apply forallb_forall. intros lag Hlag. specialize (Hall lag Hlag).
    apply andb_true_iff. split; [apply Z.leb_le|apply Z.ltb_lt]; lia.
  - destruct (forallb _ l) eqn:F; auto.
    rewrite forallb_forall in F. specialize (F m0 Hin).
    apply andb_true_iff in F. destruct F as [F _]. apply Z.leb_le in F. lia.
Qed.

Lemma forallb_pointwise {A : Type} (f g : A -> bool) (l : list A) :
  (forall a, f a = g a) -> forallb f l = forallb g l.
Proof. intros H. induction l as [|a l IH]; simpl; auto. now rewrite H, IH. Qed.

(** For a target without missing values the horizon blocks are present
    at a label exactly when the last horizon step lies inside the
    series. *)
Lemma horizon_present_pos p (d : DataFrame) (t : Z) :
  Forall (fun tr => forallb notna (snd tr) = true) (body d) ->
  (0 < width d)%nat -> 1 <= output_chunk_length p ->
  forallb notna (blocks_row (horizon_blocks p d) t)
  = match get_loc t (index d) with
    | Some pos => Z.of_nat pos <=? Z.of_nat (length (values d)) - output_chunk_length p
    | None => false
    end.
Proof.
  intros Hfree Hw Hocl.
  assert (Hsingle :
            forallb notna (blocks_row (horizon_blocks (with_multi_models false p) d) t)
            = match get_loc t (index d) with
              | Some pos => Z.of_nat pos
                            <=? Z.of_nat (length (values d)) - output_chunk_length p
              | None => false
              end).
  { unfold horizon_blocks, blocks_row; simpl.
    rewrite app_nil_r, row_or_nan_rename, present_shift_any by assumption.
    destruct (get_loc t (index d)) as [pos|]; auto.
    destruct (Z.leb_spec 0 (Z.of_nat pos - (- output_chunk_length p + 1))); [|lia].
    cbn [andb].
    destruct (Z.ltb_spec (Z.of_nat pos - (- output_chunk_length p + 1))
                         (Z.of_nat (length (values d)))),
             (Z.leb_spec (Z.of_nat pos)
                         (Z.of_nat (length (values d)) - output_chunk_length p));
      auto; lia. }
  destruct (multi_models p) eqn:Em.
  - rewrite <- (with_multi_models_true p Em) at 1.
    now rewrite horizon_present_last.
  - now rewrite <- (with_multi_models_false p Em) at 1.
Qed.

(** In the regular case -- target lags only, none of them positive, a
    target without missing values, training mode, no cap -- the number
    of rows a series contributes is its length minus the largest lag
    distance minus the horizon steps after the first. *)
Lemma lagged_samples_count p n idx ts X y T l m0 :
  wf_series ts -> nan_free ts ->
  lags p = Some l -> In m0 l -> (forall lag, In lag l -> m0 <= lag <= 0) ->
  is_training p = true -> max_samples_per_ts p = None ->
  1 <= output_chunk_length p ->
  lagged_samples p None None n idx ts = Ok (X, y, T) ->
  Z.of_nat (length T) = ts_len ts + m0 - (output_chunk_length p - 1).
Proof.
  intros Hwf Hfree Hl Hm0 Hall Htr Hcap Hocl H.
  pose proof (wf_series_width ts Hwf) as Hw.
  destruct (lagged_samples_inv _ _ _ _ _ _ _ _ _ H)
    as (df_X & D & HF & Hne & HT & _).
  unfold keep_most_recent in HT, Hne. rewrite Hcap in HT, Hne.
  rewrite lagged_frames_concat in HF.
  destruct (lagged_concat p None None idx ts) as [[dX dXy]|] eqn:HC;
    cbn [bind] in HF; [|discriminate].
  injection HF as -> <-.
  assert (HTne : T <> []).
  { rewrite HT. intros E. apply map_eq_nil in E. contradiction. }
  destruct (index_drop_missing p None None idx ts df_X dXy Hwf
              (Forall_nil _) (Forall_nil _) HC)
    as (blocks & HB & HI).
  destruct (lagged_concat_rows p None None idx ts df_X dXy Hwf
              (Forall_nil _) (Forall_nil _) HC)
    as (blocks' & df_y & HB' & HX & Hy & _ & _ & _ & HIdx & _).
  rewrite HB in HB'. injection HB' as <-.
  apply feature_blocks_target_only in HB. rewrite target_blocks_map, Hl in HB.
  cbn [items] in HB.
  assert (HIX : index df_X = index (pd_dataframe ts)).
  { rewrite (concat_index _ _ HX). apply union_indexes_same.
    - subst blocks. destruct l; [destruct Hm0|discriminate].
    - subst blocks. apply Forall_map, Forall_map, Forall_forall. intros lag _.
      now rewrite index_rename, index_shift. }
  rewrite HIX, (horizon_concat_index _ _ _ Hy), index_union_same in HIdx.
  change (map fst (body (drop_missing p df_X dXy)))
    with (index (drop_missing p df_X dXy)) in HT.
  rewrite HI, HIdx, Htr in HT. cbn [negb orb] in HT.
  set (len := length (values (pd_dataframe ts))).
  set (h := fun o : option nat =>
              match o with
              | Some pos => (- m0 <=? Z.of_nat pos)
                            && (Z.of_nat pos <=? Z.of_nat len - output_chunk_length p)
              | None => false
              end).
  assert (Hpred : forall t,
             forallb notna (blocks_row blocks t)
             && forallb notna (blocks_row (horizon_blocks p (pd_dataframe ts)) t)
             = h (get_loc t (index (pd_dataframe ts)))).
  { intros t. rewrite (horizon_present_pos p (pd_dataframe ts) t Hfree Hw Hocl).
    subst blocks. rewrite (blocks_row_group target_label), forallb_flat_map.
    rewrite (forallb_pointwise _
               (fun lag => match get_loc t (index (pd_dataframe ts)) with
                           | Some pos => (0 <=? Z.of_nat pos - - lag)
                                         && (Z.of_nat pos - - lag <? Z.of_nat len)
                           | None => false
                           end)).
    2:{ intros lag. now apply (present_shift_any (pd_dataframe ts)). }
    unfold h. destruct (get_loc t (index (pd_dataframe ts))) as [pos|] eqn:EL.
    - rewrite (lags_available l m0 pos len Hm0 Hall); auto.
      apply get_loc_Some in EL.
      assert (Hlt : (pos < length (index (pd_dataframe ts)))%nat)
        by (apply nth_error_Some; congruence).
      now rewrite length_index_values in Hlt.
    - destruct l; [destruct Hm0|reflexivity]. }
  rewrite (filter_ext _ _ Hpred) in HT.
  assert (Hcount : Z.of_nat (length T)
                   = Z.max 0 (Z.of_nat len - output_chunk_length p - - m0 + 1)).
  { rewrite HT.
    rewrite (length_filter_map (fun t => get_loc t (index (pd_dataframe ts))) h).
    rewrite get_loc_positions by (destruct Hwf as (_ & _ & Hnd); exact Hnd).
    rewrite <- (length_filter_map Some h). rewrite length_index_values. fold len.
    unfold h. apply count_between.
    - specialize (Hall m0 Hm0). lia.
    - lia. }
  assert (Hpos : (0 < length T)%nat).
  { destruct T; [congruence|simpl; lia]. }
  unfold ts_len. change (length (observations ts)) with (length (body (pd_dataframe ts))).
  assert (Hlen : len = length (body (pd_dataframe ts)))
    by (unfold len, values; apply length_map).
  lia.
Qed.

(** X13 -- Where the appender's row count is right.  With target lags
    only, none of them positive, target series without missing values,
    training mode, no sample cap and a horizon of at least one step, the
    number of rows the appender computes for a series from the smallest
    target lag, [len(ts) - max_past_lag - (output_chunk_length - 1)], is
    the number of rows the builder returned for that series. *)
Theorem recomputed_rows_agree p b targets l m0 X y Ts :
  Forall wf_series targets -> Forall nan_free targets ->
  lags p = Some l -> In m0 l -> (forall lag, In lag l -> m0 <= lag <= 0) ->
  is_training p = true -> max_samples_per_ts p = None ->
  1 <= output_chunk_length p ->
  min_target_lag b = Some m0 -> min_past_cov_lag b = None ->
  min_future_cov_lag b = None ->
  _create_lagged_data p targets None None = Ok (X, y, Ts) ->
  forall i ts Ti,
    nth_error targets i = Some ts -> nth_error Ts i = Some Ti ->
    recomputed_rows b (output_chunk_length p) None None i ts
    = Ok (Z.of_nat (length Ti)).
Proof.
  intros Hts Hfree Hl Hm0 Hall Htr Hcap Hocl Hb1 Hb2 Hb3 H i ts Ti Hi HTi.
  unfold _create_lagged_data in H.
  destruct (lagged_loop p None None (length targets) 0 targets)
    as [[[Xs ys] Ts']|e] eqn:EL; cbn [bind] in H; [|discriminate].
  destruct (np_concatenate_axis0 Xs) as [X'|e]; cbn [bind] in H; [|discriminate].
  destruct (np_concatenate_axis0 ys) as [y'|e]; cbn [bind] in H; [|discriminate].
  injection H as <- <- <-.
  destruct (lagged_loop_inv _ _ _ _ _ _ _ _ _ EL) as (_ & _ & _ & Hnth).
  destruct (Hnth i ts Hi) as (Xi & yi & Ti' & _ & _ & H3 & H4).
  change (0 + i)%nat with i in H4.
  assert (Ti' = Ti) by congruence. subst Ti'.
  assert (Hwf : wf_series ts).
  { rewrite Forall_forall in Hts. apply Hts. eapply nth_error_In; eauto. }
  assert (Hnf : nan_free ts).
  { rewrite Forall_forall in Hfree. apply Hfree. eapply nth_error_In; eauto. }
  rewrite (lagged_samples_count p (length targets) i ts Xi yi Ti l m0
             Hwf Hnf Hl Hm0 Hall Htr Hcap Hocl H4).
  unfold recomputed_rows, max_past_lag. rewrite Hb1, Hb2, Hb3.
  cbn [not_none flat_map app map py_max fold_left bind].
  unfold len_shortest_features.
  cbn [bind not_none flat_map app py_min fold_left].
  f_equal. specialize (Hall m0 Hm0). lia.
Qed.

Lemma recomputed_rows_agree_witness :
  recomputed_rows e2e_bounds 1 None None 0 e2e_series = Ok 4
  /\ retained_indexes (_create_lagged_data e2e_params [e2e_series] None None)
     = Ok [[1; 2; 3; 4]].
Proof.
  split; [|reflexivity].
  change (recomputed_rows e2e_bounds (output_chunk_length e2e_params) None None
            0 e2e_series = Ok (Z.of_nat (length [1; 2; 3; 4]))).
  apply (recomputed_rows_agree e2e_params e2e_bounds [e2e_series] [-1] (-1)
           {| nd_cols := 1; nd_rows := [[Some 1]; [Some 2]; [Some 3]; [Some 4]] |}
           {| nd_cols := 1; nd_rows := [[Some 2]; [Some 3]; [Some 4]; [Some 5]] |}
           [[1; 2; 3; 4]]).
  - repeat constructor; simpl; try discriminate; intuition congruence.
  - repeat constructor.
  - reflexivity.
  - now left.
  - intros lag [<-|[]]; lia.
  - reflexivity.
  - reflexivity.
  - simpl; lia.
  - reflexivity.
  - reflexivity.
  - reflexivity.
  - vm_compute. reflexivity.
  - reflexivity.
  - reflexivity.
Defined.

(** ** Training and inference on the same inputs *)

Lemma loc_row_own_labels (dflt : row) (b : list (Z * row)) :
  NoDup (map fst b) ->
  map (fun t => (t, match loc_row b t with Some r => r | None => dflt end))
      (map fst b) = b.
Proof.
  induction b as [|[t0 r0] b IH]; simpl; intros Hnd; auto.
  inversion Hnd as [|? ? Hnotin Hnd']; subst.
  rewrite Z.eqb_refl. f_equal.
  rewrite <- (IH Hnd') at 2. apply map_ext_in. intros t Ht.
  destruct (Z.eqb_spec t0 t) as [->|_]; [contradiction|reflexivity].
Qed.

(** Reindexing a frame to its own index gives the frame back. *)
Lemma reindex_own_index (d : DataFrame) :
  NoDup (index d) -> reindex (index d) d = d.
Proof.
  destruct d as [cols b]. unfold reindex, index, row_or_nan; simpl.
  intros Hnd. f_equal. now apply loc_row_own_labels.
Qed.

(** Line 121 changes nothing for a covariate that has the index of the
    target. *)
Lemma extend_covariate_same_index p (d c : DataFrame) :
  NoDup (index c) -> index c = index d -> extend_covariate p d c = c.
Proof.
  intros Hnd Hidx. unfold extend_covariate. destruct (negb (is_training p)); auto.
  rewrite <- Hidx, index_union_same. now apply reindex_own_index.
Qed.

Lemma covariate_blocks_any_mode p m name covs lc idx ts dc :
  wf_covariates covs ->
  (forall c, nth_error (items covs) idx = Some c -> time_index c = time_index ts) ->
  covariate_frame covs idx = Ok dc ->
  covariate_blocks (with_is_training m p) name dc lc (pd_dataframe ts)
  = covariate_blocks p name dc lc (pd_dataframe ts).
Proof.
  intros Hwf Hidx Hframe. unfold covariate_blocks.
  destruct (truthy lc); auto. destruct dc as [dc|]; auto.
  unfold covariate_frame in Hframe. destruct (truthy covs); [|discriminate].
  destruct (nth_error (items covs) idx) as [c|] eqn:E; [|discriminate].
  injection Hframe as <-.
  assert (Hc : wf_series c).
  { unfold wf_covariates in Hwf. rewrite Forall_forall in Hwf.
    apply Hwf. eapply nth_error_In; eauto. }
  destruct Hc as (_ & _ & Hnd).
  rewrite !extend_covariate_same_index; auto; exact (Hidx c eq_refl).
Qed.

Lemma feature_blocks_any_mode p m pc fc idx ts :
  wf_covariates pc -> wf_covariates fc ->
  (forall c, nth_error (items pc) idx = Some c -> time_index c = time_index ts) ->
  (forall c, nth_error (items fc) idx = Some c -> time_index c = time_index ts) ->
  feature_blocks (with_is_training m p) pc fc idx ts
  = feature_blocks p pc fc idx ts.
Proof.
  intros Hpc Hfc Hp Hf. unfold feature_blocks.
  destruct (covariate_frame pc idx) as [dp|e] eqn:Ep; cbn [bind]; auto.
  destruct (covariate_frame fc idx) as [df|e] eqn:Ef; cbn [bind]; auto.
  rewrite (covariate_blocks_any_mode p m "past" pc _ idx ts dp Hpc Hp Ep).
  rewrite (covariate_blocks_any_mode p m "future" fc _ idx ts df Hfc Hf Ef).
  reflexivity.
Qed.

Lemma lagged_concat_any_mode p m pc fc idx ts :
  wf_covariates pc -> wf_covariates fc ->
  (forall c, nth_error (items pc) idx = Some c -> time_index c = time_index ts) ->
  (forall c, nth_error (items fc) idx = Some c -> time_index c = time_index ts) ->
  lagged_concat (with_is_training m p) pc fc idx ts
  = lagged_concat p pc fc idx ts.
Proof.
  intros Hpc Hfc Hp Hf. unfold lagged_concat.
  rewrite (feature_blocks_any_mode p m pc fc idx ts Hpc Hfc Hp Hf). reflexivity.
Qed.

Lemma filter_both {A : Type} (f g : A -> bool) (l : list A) :
  filter (fun a => f a && g a) l = filter g (filter f l).
Proof.
  induction l as [|a l IH]; simpl; auto.
  destruct (f a); simpl; [destruct (g a)|]; now rewrite IH.
Qed.

Lemma filter_mapped {A B : Type} (h : A -> B) (g : B -> bool) (l : list A) :
  map h (filter (fun a => g (h a)) l) = filter g (map h l).
Proof.
  induction l as [|a l IH]; simpl; auto.
  destruct (g (h a)); simpl; now rewrite IH.
Qed.

Lemma zip_mapped {A B C : Type} (f : A -> B) (g : A -> C) (l : list A)
    (u : list B) (v : list C) :
  combine (map f l ++ u) (map g l ++ v)
  = map (fun a => (f a, g a)) l ++ combine u v.
Proof. induction l as [|a l IH]; simpl; auto. now rewrite IH. Qed.

(** One series: the rows kept in training mode are the rows kept in
    inference mode whose target cells are all present. *)
Lemma lagged_samples_inference p pc fc n idx ts X y T :
  wf_series ts -> wf_covariates pc -> wf_covariates fc ->
  is_training p = true -> max_samples_per_ts p = None ->
  (forall c, nth_error (items pc) idx = Some c -> time_index c = time_index ts) ->
  (forall c, nth_error (items fc) idx = Some c -> time_index c = time_index ts) ->
  lagged_samples p pc fc n idx ts = Ok (X, y, T) ->
  exists (w : nat) (b b' : list (Z * row)) X' y',
    lagged_samples (with_is_training false p) pc fc n idx ts
    = Ok (X', y', map fst b') /\
    nd_cols X' = nd_cols X /\ nd_cols y' = nd_cols y /\
    b = filter (fun tr => forallb notna (skipn w (snd tr))) b' /\
    T = map fst b /\
    nd_rows X = map (fun tr => firstn w (snd tr)) b /\
    nd_rows y = map (fun tr => skipn w (snd tr)) b /\
    nd_rows X' = map (fun tr => firstn w (snd tr)) b' /\
    nd_rows y' = map (fun tr => skipn w (snd tr)) b'.
Proof.
  intros Hwf Hpc Hfc Htr Hcap Hp Hf H.
  destruct (lagged_samples_inv _ _ _ _ _ _ _ _ _ H)
    as (df_X & D & HF & Hne & HT & HX & Hy & HcX & HcY).
  unfold keep_most_recent in Hne, HT, HX, Hy. rewrite Hcap in Hne, HT, HX, Hy.
  rewrite lagged_frames_concat in HF.
  destruct (lagged_concat p pc fc idx ts) as [[dX dXy]|] eqn:HC;
    cbn [bind] in HF; [|discriminate].
  injection HF as -> <-.
  set (p' := with_is_training false p).
  set (D' := drop_missing p' df_X dXy).
  assert (HF' : lagged_frames p' pc fc idx ts = Ok (df_X, D')).
  { rewrite lagged_frames_concat. unfold p'.
    rewrite (lagged_concat_any_mode p false pc fc idx ts Hpc Hfc Hp Hf), HC.
    reflexivity. }
  assert (HD' : body D'
                = filter (fun tr => forallb notna (firstn (width df_X) (snd tr)))
                         (body dXy)).
  { exact (drop_missing_inference p pc fc idx ts df_X dXy Hwf Hpc Hfc HC). }
  assert (HD : body (drop_missing p df_X dXy)
               = filter (fun tr => forallb notna (skipn (width df_X) (snd tr)))
                        (body D')).
  { rewrite HD', <- filter_both. unfold drop_missing. rewrite Htr.
    unfold dropna; simpl. apply filter_ext. intros tr.
    apply forallb_firstn_skipn. }
  pose proof (lagged_samples_outcome p' pc fc n idx ts df_X D' HF') as HO.
  assert (Hk : forall (A : Type) (l : list A), keep_most_recent p' l = l).
  { intros A l. unfold keep_most_recent, p'; simpl. now rewrite Hcap. }
  rewrite !Hk in HO.
  assert (Hne' : values D' <> []).
  { unfold values. intros E. apply map_eq_nil in E. apply Hne.
    rewrite HD, E. reflexivity. }
  destruct (values D') as [|r0 rs] eqn:EV; [congruence|]. rewrite <- EV in HO.
  exists (width df_X), (body (drop_missing p df_X dXy)), (body D').
  eexists. eexists.
  split; [exact HO|].
  assert (HW : width D' = width (drop_missing p df_X dXy))
    by (unfold D'; now rewrite !width_drop_missing).
  split; [simpl; rewrite HcX, HW; reflexivity|].
  split; [simpl; rewrite HcY, HW; reflexivity|].
  split; [exact HD|].
  split; [exact HT|].
  split; [exact HX|].
  split; [exact Hy|].
  split; simpl; unfold values; now rewrite map_map.
Qed.

Lemma lagged_loop_inference p pc fc n : forall targets idx Xs ys Ts,
  Forall wf_series targets -> wf_covariates pc -> wf_covariates fc ->
  is_training p = true -> max_samples_per_ts p = None ->
  (forall i ts c, nth_error targets i = Some ts ->
     nth_error (items pc) (idx + i) = Some c -> time_index c = time_index ts) ->
  (forall i ts c, nth_error targets i = Some ts ->
     nth_error (items fc) (idx + i) = Some c -> time_index c = time_index ts) ->
  lagged_loop p pc fc n idx targets = Ok (Xs, ys, Ts) ->
  exists Xs' ys' Ts',
    lagged_loop (with_is_training false p) pc fc n idx targets
    = Ok (Xs', ys', Ts') /\
    map nd_cols Xs' = map nd_cols Xs /\ map nd_cols ys' = map nd_cols ys /\
    Forall2 (fun T T' => incl T T') Ts Ts' /\
    combine (concat Ts)
            (combine (concat (map nd_rows Xs)) (concat (map nd_rows ys)))
    = filter complete_target
        (combine (concat Ts')
                 (combine (concat (map nd_rows Xs')) (concat (map nd_rows ys')))).
Proof.
  induction targets as [|ts0 rest IH];
    intros idx Xs ys Ts Hts Hpc Hfc Htr Hcap Hp Hf H.
  - simpl in H. injection H as <- <- <-.
    exists [], [], []. repeat split; auto.
  - simpl in H.
    destruct (lagged_samples p pc fc n idx ts0) as [[[X0 y0] T0]|e] eqn:E0;
      cbn [bind] in H; [|discriminate].
    destruct (lagged_loop p pc fc n (S idx) rest) as [[[Xs1 ys1] Ts1]|e] eqn:E1;
      cbn [bind] in H; [|discriminate].
    injection H as <- <- <-.
    inversion Hts as [|? ? Hwf0 Hrest]; subst.
    assert (Hp0 : forall c, nth_error (items pc) idx = Some c ->
                            time_index c = time_index ts0).
    { intros c Hc. apply (Hp 0%nat ts0 c eq_refl). now rewrite Nat.add_0_r. }
    assert (Hf0 : forall c, nth_error (items fc) idx = Some c ->
                            time_index c = time_index ts0).
    { intros c Hc. apply (Hf 0%nat ts0 c eq_refl). now rewrite Nat.add_0_r. }
    destruct (lagged_samples_inference p pc fc n idx ts0 X0 y0 T0
                Hwf0 Hpc Hfc Htr Hcap Hp0 Hf0 E0)
      as (w & b & b' & X0' & y0' & HS & HcX & HcY & Hb & HT & HX & HY & HX' & HY').
    destruct (IH (S idx) Xs1 ys1 Ts1 Hrest Hpc Hfc Htr Hcap) as
      (Xs1' & ys1' & Ts1' & HL & HcXs & HcYs & HIncl & HSam); auto.
    { intros i ts c Hi Hc. apply (Hp (S i) ts c Hi).
      now rewrite <- Nat.add_succ_comm. }
    { intros i ts c Hi Hc. apply (Hf (S i) ts c Hi).
      now rewrite <- Nat.add_succ_comm. }
    exists (X0' :: Xs1'), (y0' :: ys1'), (map fst b' :: Ts1').
    split; [simpl; rewrite HS; cbn [bind]; rewrite HL; reflexivity|].
    split; [simpl; now rewrite HcX, HcXs|].
    split; [simpl; now rewrite HcY, HcYs|].
    split.
    { constructor; auto. rewrite HT, Hb. intros t Ht.
      apply in_map_iff in Ht. destruct Ht as (tr & <- & Hin).
      apply filter_In in Hin. apply in_map. tauto. }
    cbn [map concat]. rewrite HT, HX, HY, HX', HY'.
    rewrite !zip_mapped, filter_app, <- HSam. f_equal.
    rewrite Hb.
    exact (filter_mapped
             (fun a : Z * row => (fst a, (firstn w (snd a), skipn w (snd a))))
             complete_target b').
Qed.

Lemma forallb_cols (f : nat -> bool) (l l' : list ndarray) :
  map nd_cols l' = map nd_cols l ->
  forallb (fun b => f (nd_cols b)) l' = forallb (fun b => f (nd_cols b)) l.
Proof.
  revert l'; induction l as [|a l IH]; intros [|a' l'] H; simpl in *;
    try discriminate; auto.
  injection H as H0 H1. now rewrite H0, (IH l' H1).
Qed.

Lemma np_concatenate_axis0_same_cols arrays arrays' a :
  map nd_cols arrays' = map nd_cols arrays ->
  np_concatenate_axis0 arrays = Ok a ->
  np_concatenate_axis0 arrays'
  = Ok {| nd_cols := nd_cols a; nd_rows := concat (map nd_rows arrays') |}.
Proof.
  destruct arrays as [|a0 rest], arrays' as [|a0' rest']; simpl;
    try discriminate.
  intros Hc H. injection Hc as H0 H1.
  rewrite H0.
  rewrite (forallb_cols (fun c => Nat.eqb c (nd_cols a0)) rest rest' H1).
  destruct (forallb _ rest); [|discriminate].
  injection H as <-. reflexivity.
Qed.

(** X14 -- Training samples are the inference samples with a complete
    target row.  When every covariate series has the time index of its
    target series and no sample cap is set, a call that returns in
    training mode also returns in inference mode, with the same numbers
    of columns; the samples of the training call (time stamp, feature
    row, target row) are exactly the samples of the inference call whose
    target row has no missing value, in the same order, and every time
    stamp retained for a series in training is retained for it in
    inference. *)
Theorem training_samples_in_inference p targets pc fc X y Ts :
  Forall wf_series targets -> wf_covariates pc -> wf_covariates fc ->
  is_training p = true -> max_samples_per_ts p = None ->
  same_span targets pc -> same_span targets fc ->
  _create_lagged_data p targets pc fc = Ok (X, y, Ts) ->
  exists X' y' Ts',
    _create_lagged_data (with_is_training false p) targets pc fc
    = Ok (X', y', Ts') /\
    nd_cols X' = nd_cols X /\ nd_cols y' = nd_cols y /\
    Forall2 (fun T T' => incl T T') Ts Ts' /\
    samples (X, y, Ts) = filter complete_target (samples (X', y', Ts')).
Proof.
  intros Hts Hpc Hfc Htr Hcap Hp Hf H.
  unfold _create_lagged_data in H.
  destruct (lagged_loop p pc fc (length targets) 0 targets)
    as [[[Xs ys] Ts0]|e] eqn:EL; cbn [bind] in H; [|discriminate].
  destruct (np_concatenate_axis0 Xs) as [X0|e] eqn:EX; cbn [bind] in H;
    [|discriminate].
  destruct (np_concatenate_axis0 ys) as [y0|e] eqn:EY; cbn [bind] in H;
    [|discriminate].
  injection H as <- <- <-.
  destruct (lagged_loop_inference p pc fc (length targets) targets 0 Xs ys Ts0
              Hts Hpc Hfc Htr Hcap Hp Hf EL)
    as (Xs' & ys' & Ts' & HL & HcX & HcY & HIncl & HSam).
  exists {| nd_cols := nd_cols X0; nd_rows := concat (map nd_rows Xs') |},
         {| nd_cols := nd_cols y0; nd_rows := concat (map nd_rows ys') |}, Ts'.
  split.
  { unfold _create_lagged_data. rewrite HL. cbn [bind].
    rewrite (np_concatenate_axis0_same_cols Xs Xs' X0 HcX EX). cbn [bind].
    rewrite (np_concatenate_axis0_same_cols ys ys' y0 HcY EY). reflexivity. }
  split; [reflexivity|]. split; [reflexivity|]. split; [exact HIncl|].
  unfold samples. cbn [nd_rows].
  rewrite (np_concatenate_axis0_rows Xs X0 EX), (np_concatenate_axis0_rows ys y0 EY).
  exact HSam.
Qed.

Lemma training_samples_in_inference_witness :
  exists X' y' Ts',
    _create_lagged_data (with_is_training false past_lag_params) [p3_series]
      (Some [univariate "c" [(0, Some 5); (1, Some 6); (2, Some 7); (3, Some 8)]])
      None = Ok (X', y', Ts') /\
    nd_cols X' = 2%nat /\ nd_cols y' = 1%nat /\
    Forall2 (fun T T' => incl T T') [[1; 2]] Ts' /\
    samples ({| nd_cols := 2; nd_rows := [[Some 1; Some 5]; [Some 2; Some 6]] |},
             {| nd_cols := 1; nd_rows := [[Some 2]; [Some 3]] |}, [[1; 2]])
    = filter complete_target (samples (X', y', Ts')).
Proof.
  apply (training_samples_in_inference past_lag_params [p3_series]
           (Some [univariate "c" [(0, Some 5); (1, Some 6); (2, Some 7); (3, Some 8)]])
           None
           {| nd_cols := 2; nd_rows := [[Some 1; Some 5]; [Some 2; Some 6]] |}
           {| nd_cols := 1; nd_rows := [[Some 2]; [Some 3]] |}
           [[1; 2]]).
  - repeat constructor; simpl; try discriminate; intuition discriminate.
  - repeat constructor; simpl; try discriminate; intuition discriminate.
  - constructor.
  - reflexivity.
  - reflexivity.
  - intros [|[|i]] ts c Hi Hc; try discriminate.
    injection Hi as <-. injection Hc as <-. reflexivity.
  - intros [|i] ts c Hi Hc; discriminate.
  - vm_compute. reflexivity.
Defined.

(** X15 -- The static columns have one width.  When some series
    carries static covariates and the appender returns, the columns it
    adds to the features have one width for all series: the number of
    collected names times the number of rows of the static table, for
    every series whose table is not empty, and the number of collected
    names times the number of components of the first series, for every
    series without static covariates or with an empty table.  Series
    whose blocks would differ in width make the call fail. *)
Theorem static_columns_width set_order n_in features targets b ocl pc fc ms out :
  _add_static_covariates set_order n_in features targets b ocl pc fc ms = Ok out ->
  existsb has_static targets = true ->
  let col_names := set_order (flat_map static_names targets) in
  exists w ts0 rest,
    targets = ts0 :: rest /\
    nd_cols out = (nd_cols features + w)%nat /\
    (forall ts, In ts targets -> frame_empty (frame_of ts) = false ->
       w = (length col_names * length (sc_values (frame_of ts)))%nat) /\
    (forall ts, In ts targets -> frame_empty (frame_of ts) = true ->
       w = (length col_names * n_components ts0)%nat).
Proof.
  intros H Hex col_names.
  destruct (add_static_covariates_inv _ _ _ _ _ _ _ _ _ _ H Hex)
    as (n_comps & m & blocks & sc & HI & HB & HC & HO).
  destruct (static_inputs_inv _ _ _ _ _ _ _ _ HI)
    as ((ts0 & rest & Htargets & Hn) & _ & _ & _ & mpl & _ & Hlen & _).
  destruct (static_blocks_inv _ _ _ _ HB) as [_ HBnth].
  destruct (np_concatenate_axis1_inv _ _ _ HO) as (_ & Hcols & _).
  assert (Hblock : forall ts, In ts targets ->
            exists blk r, In blk blocks /\
              static_block col_names n_comps (frame_of ts) r = Ok blk).
  { intros ts Hin. apply In_nth_error in Hin. destruct Hin as [i Hi].
    assert (Hlt : (i < length (reps m))%nat)
      by (rewrite Hlen; apply nth_error_Some; congruence).
    destruct (nth_error (reps m) i) as [r|] eqn:Er;
      [|apply nth_error_None in Er; lia].
    destruct (HBnth i (frame_of ts) r
                (nth_error_combine _ _ _ _ _ (map_nth_error frame_of _ _ Hi) Er))
      as (blk & Hblk & Hsb).
    exists blk, r. split; [eapply nth_error_In; eauto|exact Hsb]. }
  exists (nd_cols sc), ts0, rest.
  split; [exact Htargets|]. split; [exact Hcols|]. split.
  - intros ts Hin Hne. destruct (Hblock ts Hin) as (blk & r & Hblk & Hsb).
    rewrite <- (np_concatenate_axis0_cols _ _ _ HC Hblk).
    destruct (static_block_table _ _ _ _ _ Hne Hsb) as (_ & flat & _ & Hw & Hl & _).
    congruence.
  - intros ts Hin He. destruct (Hblock ts Hin) as (blk & r & Hblk & Hsb).
    rewrite <- (np_concatenate_axis0_cols _ _ _ HC Hblk).
    destruct (static_block_empty _ _ _ _ _ He Hsb) as (_ & Hw & _).
    now rewrite Hw, Hn.
Qed.

Lemma static_columns_width_witness :
  exists w ts0 rest,
    [p6_first; p6_second] = ts0 :: rest /\
    2%nat = (1 + w)%nat /\
    (forall ts, In ts [p6_first; p6_second] -> frame_empty (frame_of ts) = false ->
       w = (length (nodup string_dec (flat_map static_names [p6_first; p6_second]))
            * length (sc_values (frame_of ts)))%nat) /\
    (forall ts, In ts [p6_first; p6_second] -> frame_empty (frame_of ts) = true ->
       w = (length (nodup string_dec (flat_map static_names [p6_first; p6_second]))
            * n_components ts0)%nat).
Proof.
  assert (H : _add_static_covariates (nodup string_dec) None
                {| nd_cols := 1;
                   nd_rows := [[Some 1]; [Some 2]; [Some 4]; [Some 5]] |}
                [p6_first; p6_second] e2e_bounds 1 None None None
              = Ok {| nd_cols := 2;
                      nd_rows := [[Some 1; Some 7]; [Some 2; Some 7];
                                  [Some 4; Some 0]; [Some 5; Some 0]] |})
    by (vm_compute; reflexivity).
  exact (static_columns_width _ _ _ _ _ _ _ _ _ _ H eq_refl).
Defined.

(** ** The values under the target lags *)

(** One series: the cells of a retained row under the target lags. *)
Lemma lagged_samples_target_lags p pc fc n idx ts X y T l :
  wf_series ts -> wf_covariates pc -> wf_covariates fc ->
  lags p = Some l -> l <> [] ->
  lagged_samples p pc fc n idx ts = Ok (X, y, T) ->
  forall j t, nth_error T j = Some t ->
    exists pos rest_cells,
      get_loc t (time_index ts) = Some pos /\
      (forall lag, In lag l ->
         0 <= Z.of_nat pos + lag < Z.of_nat (length (series_values ts))) /\
      nth_error (nd_rows X) j
      = Some (flat_map (fun lag => nth (Z.to_nat (Z.of_nat pos + lag))
                                       (series_values ts) [])
                       l ++ rest_cells).
Proof.
  intros Hwf Hpc Hfc Hl Hne H j t Hj.
  pose proof (wf_series_width ts Hwf) as Hw.
  destruct (lagged_samples_rows _ _ _ _ _ _ _ _ _ Hwf Hpc Hfc H)
    as (blocks & HB & _ & HXr & _ & _ & _ & Hall).
  rewrite Forall_forall in Hall. specialize (Hall t (nth_error_In _ _ Hj)).
  unfold feature_blocks in HB.
  destruct (covariate_frame pc idx); cbn [bind] in HB; [|discriminate].
  destruct (covariate_frame fc idx); cbn [bind] in HB; [|discriminate].
  destruct (covariate_blocks p "past" _ _ _) as [bp|]; cbn [bind] in HB;
    [|discriminate].
  destruct (covariate_blocks p "future" _ _ _) as [bf|]; cbn [bind] in HB;
    [|discriminate].
  injection HB as <-.
  rewrite target_blocks_map, Hl in Hall, HXr. cbn [items] in Hall, HXr.
  rewrite blocks_row_app, (blocks_row_group target_label), forallb_app in Hall.
  apply andb_true_iff in Hall. destruct Hall as [Hall _].
  rewrite forallb_flat_map, forallb_forall in Hall.
  change (index (pd_dataframe ts)) with (time_index ts) in *.
  assert (Hpos : exists pos, get_loc t (time_index ts) = Some pos).
  { destruct l as [|lag0 l']; [congruence|].
    specialize (Hall lag0 (or_introl eq_refl)).
    rewrite row_or_nan_shift in Hall.
    change (index (pd_dataframe ts)) with (time_index ts) in Hall.
    destruct (get_loc t (time_index ts)) as [pos|]; eauto.
    now rewrite nan_row_not_all_present in Hall. }
  destruct Hpos as [pos Epos].
  assert (Hlag : forall lag, In lag l ->
            0 <= Z.of_nat pos + lag < Z.of_nat (length (series_values ts)) /\
            row_or_nan (shift (- lag) (pd_dataframe ts)) t
            = nth (Z.to_nat (Z.of_nat pos + lag)) (series_values ts) []).
  { intros lag Hin. specialize (Hall lag Hin).
    rewrite row_or_nan_shift in Hall |- *.
    change (index (pd_dataframe ts)) with (time_index ts) in Hall |- *.
    change (values (pd_dataframe ts)) with (series_values ts) in Hall |- *.
    rewrite Epos in Hall |- *.
    destruct (iloc_present _ _ _ Hw Hall) as [H0 Hnth].
    replace (Z.of_nat pos - - lag) with (Z.of_nat pos + lag) in * by lia.
    assert (Hlt : (Z.to_nat (Z.of_nat pos + lag) < length (series_values ts))%nat)
      by (apply nth_error_Some; congruence).
    split; [lia|]. symmetry. now apply nth_error_nth. }
  exists pos, (blocks_row (bp ++ bf) t).
  split; [exact Epos|]. split; [intros lag Hin; now apply Hlag|].
  rewrite HXr, nth_error_map, Hj. cbn [option_map]. f_equal.
  rewrite blocks_row_app, (blocks_row_group target_label). f_equal.
  rewrite !flat_map_concat_map. f_equal. apply map_ext_in.
  intros lag Hin. now apply Hlag.
Qed.

(** X16 -- The values under the target lags.  When target lags are
    given, every retained time stamp is a time stamp of the target
    series, and the row of [X] for it starts with, for each target lag
    in the order given, the values of the target series [lag] positions
    away from that time stamp's position (before it for a negative lag,
    after it for a positive one); all these positions lie inside the
    series.  The lag counts rows of the series, not time. *)
Theorem target_lag_values p targets pc fc X y Ts l :
  Forall wf_series targets -> wf_covariates pc -> wf_covariates fc ->
  lags p = Some l -> l <> [] ->
  _create_lagged_data p targets pc fc = Ok (X, y, Ts) ->
  exists Xs,
    nd_rows X = concat (map nd_rows Xs) /\
    forall i ts, nth_error targets i = Some ts ->
      exists Xi Ti,
        nth_error Xs i = Some Xi /\ nth_error Ts i = Some Ti /\
        length (nd_rows Xi) = length Ti /\
        forall j t, nth_error Ti j = Some t ->
          exists pos rest_cells,
            get_loc t (time_index ts) = Some pos /\
            (forall lag, In lag l ->
               0 <= Z.of_nat pos + lag < Z.of_nat (length (series_values ts))) /\
            nth_error (nd_rows Xi) j
            = Some (flat_map (fun lag => nth (Z.to_nat (Z.of_nat pos + lag))
                                             (series_values ts) [])
                             l ++ rest_cells).
Proof.
  intros Hts Hpc Hfc Hl Hne H. unfold _create_lagged_data in H.
  destruct (lagged_loop p pc fc (length targets) 0 targets)
    as [[[Xs ys] Ts']|e] eqn:EL; cbn [bind] in H; [|discriminate].
  destruct (np_concatenate_axis0 Xs) as [X'|e] eqn:EX; cbn [bind] in H;
    [|discriminate].
  destruct (np_concatenate_axis0 ys) as [y'|e] eqn:Ey; cbn [bind] in H;
    [|discriminate].
  injection H as <- <- <-.
  destruct (lagged_loop_inv _ _ _ _ _ _ _ _ _ EL) as (_ & _ & _ & Hnth).
  exists Xs. split; [now apply np_concatenate_axis0_rows|].
  intros i ts Hi.
  destruct (Hnth i ts Hi) as (Xi & yi & Ti & H1 & _ & H3 & H4).
  change (0 + i)%nat with i in H4.
  assert (Hwf : wf_series ts).
  { rewrite Forall_forall in Hts. apply Hts. eapply nth_error_In; eauto. }
  exists Xi, Ti. split; [exact H1|]. split; [exact H3|]. split.
  - destruct (lagged_samples_rows _ _ _ _ _ _ _ _ _ Hwf Hpc Hfc H4)
      as (blocks & _ & _ & HXr & _). rewrite HXr. apply length_map.
  - exact (lagged_samples_target_lags p pc fc (length targets) i ts Xi yi Ti l
             Hwf Hpc Hfc Hl Hne H4).
Qed.

Lemma target_lag_values_witness :
  exists Xs,
    [[Some 1; Some 5]; [Some 2; Some 6]] = concat (map nd_rows Xs) /\
    forall i ts, nth_error [p3_series] i = Some ts ->
      exists Xi Ti,
        nth_error Xs i = Some Xi /\ nth_error [[1; 2]] i = Some Ti /\
        length (nd_rows Xi) = length Ti /\
        forall j t, nth_error Ti j = Some t ->
          exists pos rest_cells,
            get_loc t (time_index ts) = Some pos /\
            (forall lag, In lag [-1] ->
               0 <= Z.of_nat pos + lag < Z.of_nat (length (series_values ts))) /\
            nth_error (nd_rows Xi) j
            = Some (flat_map (fun lag => nth (Z.to_nat (Z.of_nat pos + lag))
                                             (series_values ts) [])
                             [-1] ++ rest_cells).
Proof.
  apply (target_lag_values past_lag_params [p3_series]
           (Some [univariate "c" [(0, Some 5); (1, Some 6); (2, Some 7); (3, Some 8)]])
           None
           {| nd_cols := 2; nd_rows := [[Some 1; Some 5]; [Some 2; Some 6]] |}
           {| nd_cols := 1; nd_rows := [[Some 2]; [Some 3]] |}
           [[1; 2]] [-1]).
  - repeat constructor; simpl; try discriminate; intuition discriminate.
  - repeat constructor; simpl; try discriminate; intuition discriminate.
  - constructor.
  - reflexivity.
  - discriminate.
  - vm_compute. reflexivity.
Defined.
